(** * mybac: the quiz-taking page and the gemini-chat edge function

    A shallow embedding of the two source files of the repository:

    - the React component [QuizTaking] (quiz attempt lifecycle: loading,
      countdown, answer capture, scoring, submission);
    - the Deno handler of [supabase/functions/gemini-chat/index.ts].

    Conventions of the embedding.
    - JavaScript numbers that the code uses as counters, indices and
      seconds are integers far below 2^53; they are modelled as [Z].
    - [selectedAnswers : Record<string, string>] is a [gmap string string];
      a read of an absent key is [None] (JavaScript's [undefined]).
    - A handler of the component closes over the state of the render in
      which it was created: it is a function of that [State].  What it does
      is a list of [Action]s: calls of the state setters and calls to the
      outside (toast, navigate, console).  [commit] applies the setters,
      which is React re-rendering with the new state.
    - An [async] function is a resumption ([Async]): it runs to its next
      [await], hands a request to the collaborator, and goes on with the
      answer. *)

From Stdlib Require Import ZArith Lia.
From Stdlib Require DecimalString DecimalZ DecimalPos.
From stdpp Require Import base option list strings gmap.

Local Open Scope Z_scope.
Local Open Scope string_scope.
Local Open Scope list_scope.

(** ** Data model (the interfaces at the top of the component) *)

Module Question.
Record t := mk {
    id : string;
    question_text : string;
    option_a : string;
    option_b : string;
    option_c : string;
    option_d : string;
    correct_answer : string;
    difficulty : option string
}.
End Question.

(** [questions: any[]] of a quiz row: the component keeps the payload only
    when [Array.isArray] holds of it. *)
Inductive QuestionsPayload :=
| PayloadArray (qs : list Question.t)
| PayloadOther.

Module Quiz.
Record t := mk {
    id : string;
    subject : string;
    chapter : option string;
    questions : QuestionsPayload;
    max_score : Z;
    type : string
}.
End Quiz.

Module QuizAttempt.
(** A row of [quiz_attempts]; [student_id] is the column the load query
    filters on. *)
Record t := mk {
    id : string;
    quiz_id : string;
    student_id : string;
    score : Z;
    answers : gmap string string;
    attempt_number : Z
}.
End QuizAttempt.

(** ** Component state: the eight [useState] cells *)

Record State := mkState {
  attempt : option QuizAttempt.t;
  quiz : option Quiz.t;
  questions : list Question.t;
  currentQuestionIndex : Z;
  selectedAnswers : gmap string string;
  timeLeft : Z;
  isSubmitting : bool;
  loading : bool
}.

(** The values passed to [useState] on mount. *)
Definition initialState : State :=
  {| attempt := None;
     quiz := None;
     questions := [];
     currentQuestionIndex := 0;
     selectedAnswers := ∅;
     timeLeft := 1800;
     isSubmitting := false;
     loading := true |}.

(** ** Scoring *)

(** [selectedAnswers[question.id] === question.correct_answer]: strict
    equality of a possibly undefined value with a string.  A key that the
    object does not hold itself reads as [undefined] or as a member
    inherited from [Object.prototype], which is no string: the comparison
    is false either way, and [None] stands for both. *)
Definition strictEq (v : option string) (s : string) : bool :=
  match v with
  | Some a => bool_decide (a = s)
  | None => false
  end.

(** [quiz?.type === 'daily' ? 25 : 8] *)
Definition pointsPerQuestion (q : option Quiz.t) : Z :=
  match q with
  | Some qz => if bool_decide (Quiz.type qz = "daily") then 25 else 8
  | None => 8
  end.

(** The body of the [forEach] callback, acting on the counter
    [correctAnswers]. *)
Definition countStep (sel : gmap string string) (correctAnswers : Z)
    (question : Question.t) : Z :=
  if strictEq (sel !! Question.id question) (Question.correct_answer question)
  then correctAnswers + 1
  else correctAnswers.

Definition calculateScore (st : State) : Z :=
  let correctAnswers := foldl (countStep (selectedAnswers st)) 0 (questions st) in
  correctAnswers * pointsPerQuestion (quiz st).

(** ** What a handler does: setter calls and calls to the outside *)

(** The two toasts of the component differ in their [variant]; the success
    toast shows ["Your score: s/m"], kept here as the two numbers. *)
Inductive ToastMsg :=
| ToastError (description : string)
| ToastCompleted (finalScore maxScore : Z).

Inductive Action :=
| SetAttempt (a : QuizAttempt.t)
| SetQuiz (q : Quiz.t)
| SetQuestions (qs : list Question.t)
| SetCurrentQuestionIndex (i : Z)
| SetSelectedAnswers (questionId answer : string)
| SetTimeLeft (t : Z)
| SetIsSubmitting (b : bool)
| SetLoading (b : bool)
| Toast (msg : ToastMsg)
| Navigate (path : string)
| ConsoleError (msg : string).

(** One setter call applied to the state.  [SetSelectedAnswers] is the
    functional update [prev => ({...prev, [questionId]: answer})]. *)
Definition commit1 (st : State) (a : Action) : State :=
  match a with
  | SetAttempt x =>
      mkState (Some x) (quiz st) (questions st) (currentQuestionIndex st)
        (selectedAnswers st) (timeLeft st) (isSubmitting st) (loading st)
  | SetQuiz x =>
      mkState (attempt st) (Some x) (questions st) (currentQuestionIndex st)
        (selectedAnswers st) (timeLeft st) (isSubmitting st) (loading st)
  | SetQuestions x =>
      mkState (attempt st) (quiz st) x (currentQuestionIndex st)
        (selectedAnswers st) (timeLeft st) (isSubmitting st) (loading st)
  | SetCurrentQuestionIndex x =>
      mkState (attempt st) (quiz st) (questions st) x
        (selectedAnswers st) (timeLeft st) (isSubmitting st) (loading st)
  | SetSelectedAnswers k v =>
      mkState (attempt st) (quiz st) (questions st) (currentQuestionIndex st)
        (<[k:=v]> (selectedAnswers st)) (timeLeft st) (isSubmitting st) (loading st)
  | SetTimeLeft x =>
      mkState (attempt st) (quiz st) (questions st) (currentQuestionIndex st)
        (selectedAnswers st) x (isSubmitting st) (loading st)
  | SetIsSubmitting x =>
      mkState (attempt st) (quiz st) (questions st) (currentQuestionIndex st)
        (selectedAnswers st) (timeLeft st) x (loading st)
  | SetLoading x =>
      mkState (attempt st) (quiz st) (questions st) (currentQuestionIndex st)
        (selectedAnswers st) (timeLeft st) (isSubmitting st) x
  | Toast _ | Navigate _ | ConsoleError _ => st
  end.

Definition commit (st : State) (acts : list Action) : State :=
  foldl commit1 st acts.

(** ** The synchronous handlers *)

Definition handleAnswerSelect (questionId answer : string) : list Action :=
  [SetSelectedAnswers questionId answer].

(** [questions.length] *)
Definition questionCount (st : State) : Z := Z.of_nat (length (questions st)).

Definition handleNextQuestion (st : State) : list Action :=
  if bool_decide (currentQuestionIndex st < questionCount st - 1)
  then [SetCurrentQuestionIndex (currentQuestionIndex st + 1)]
  else [].

Definition handlePreviousQuestion (st : State) : list Action :=
  if bool_decide (currentQuestionIndex st > 0)
  then [SetCurrentQuestionIndex (currentQuestionIndex st - 1)]
  else [].

(** ** The persistence and activity-logging collaborators *)

Inductive PgError := NotFoundError | MultipleRows | WriteFailed.

Inductive Result (A : Type) :=
| Ok (data : A)
| Err (error : PgError).
Arguments Ok {A} data.
Arguments Err {A} error.

Inductive Settled := Resolved | Rejected.

(** [selectedAnswers] is a plain object: a key it does not hold itself is
    looked up in [Object.prototype].  These are the names found there; the
    value is a function, and for [__proto__] the prototype itself, in any
    case a truthy value that is no string. *)
Definition objectPrototypeNames : list string :=
  ["constructor"; "__defineGetter__"; "__defineSetter__"; "hasOwnProperty";
   "__lookupGetter__"; "__lookupSetter__"; "isPrototypeOf";
   "propertyIsEnumerable"; "toString"; "valueOf"; "__proto__";
   "toLocaleString"].

(** The value that [handleSubmitQuiz] passes as [studentAnswer]: a string,
    or the member of [Object.prototype] of the given name. *)
Inductive StudentAnswer :=
| AnswerString (s : string)
| InheritedMember (name : string).

(** The awaited calls of the component, indexed by the type of what the
    [await] yields.  [attemptId] comes from [useParams] and may be
    undefined.  The [completed_at] timestamp of the update is left out. *)
Inductive Request : Type -> Type :=
| SelectAttempt (attemptId : option string) (userId : string)
    : Request (Result QuizAttempt.t)
| SelectQuiz (quizId : string) : Request (Result Quiz.t)
| UpdateAttempt (attemptId : option string) (score : Z)
    (answers : gmap string string) : Request (option PgError)
| TrackQuizQuestion (attemptId : option string)
    (questionId questionText : string) (studentAnswer : StudentAnswer)
    (correctAnswer : string) (isCorrect : bool) : Request Settled.

(** An [async] function: what it does up to its next [await], the awaited
    call, and how it goes on with the answer. *)
Inductive Async :=
| Return (acts : list Action)
| Await (acts : list Action) {A : Type} (req : Request A) (k : A -> Async).

(** ** fetchQuizAttempt *)

(** The [catch] block followed by the [finally] block. *)
Definition fetchFailed : list Action :=
  [ConsoleError "Error fetching quiz:";
   Toast (ToastError "Failed to load quiz");
   Navigate "/quizzes";
   SetLoading false].

(** [Array.isArray(quizData.questions) ? quizData.questions : []] *)
Definition loadedQuestions (quizData : Quiz.t) : list Question.t :=
  match Quiz.questions quizData with
  | PayloadArray qs => qs
  | PayloadOther => []
  end.

Definition fetchQuizAttempt (attemptId : option string) (userId : string) : Async :=
  Await [] (SelectAttempt attemptId userId) (fun r =>
    match r with
    | Err _ => Return fetchFailed
    | Ok attemptData =>
        Await [SetAttempt attemptData]
          (SelectQuiz (QuizAttempt.quiz_id attemptData)) (fun r' =>
            match r' with
            | Err _ => Return fetchFailed
            | Ok quizData =>
                Return [SetQuiz quizData;
                        SetQuestions (loadedQuestions quizData);
                        SetLoading false]
            end)
    end).

(** ** handleSubmitQuiz *)

(** The [catch] block followed by the [finally] block. *)
Definition submitFailed : list Action :=
  [ConsoleError "Error submitting quiz:";
   Toast (ToastError "Failed to submit quiz");
   SetIsSubmitting false].

(** [quiz?.max_score || 100] *)
Definition shownMaxScore (q : option Quiz.t) : Z :=
  match q with
  | Some qz => if bool_decide (Quiz.max_score qz = 0) then 100 else Quiz.max_score qz
  | None => 100
  end.

(** [selectedAnswers[question.id] || '']: the selection of the question
    when there is one (an empty selection gives the empty string either
    way); without selection the member that the object inherits under this
    name, which is truthy, when the id is a name of [Object.prototype], and
    the empty string otherwise. *)
Definition studentAnswerOf (sel : gmap string string) (question : Question.t)
    : StudentAnswer :=
  match sel !! Question.id question with
  | Some a => AnswerString a
  | None =>
      if bool_decide (Question.id question ∈ objectPrototypeNames)
      then InheritedMember (Question.id question)
      else AnswerString ""
  end.

(** [studentAnswer === question.correct_answer]: an inherited member is no
    string and equals none. *)
Definition answerIs (studentAnswer : StudentAnswer) (correct : string) : bool :=
  match studentAnswer with
  | AnswerString a => bool_decide (a = correct)
  | InheritedMember _ => false
  end.

(** The [for ... of questions] loop with its [await], then the success
    toast, the navigation and the [finally] block. *)
Fixpoint trackQuestions (attemptId : option string) (st : State) (finalScore : Z)
    (qs : list Question.t) : Async :=
  match qs with
  | [] =>
      Return [Toast (ToastCompleted finalScore (shownMaxScore (quiz st)));
              Navigate "/quizzes";
              SetIsSubmitting false]
  | question :: rest =>
      let studentAnswer := studentAnswerOf (selectedAnswers st) question in
      let isCorrect := answerIs studentAnswer (Question.correct_answer question) in
      Await [] (TrackQuizQuestion attemptId (Question.id question)
                  (Question.question_text question) studentAnswer
                  (Question.correct_answer question) isCorrect)
        (fun r =>
           match r with
           | Resolved => trackQuestions attemptId st finalScore rest
           | Rejected => Return submitFailed
           end)
  end.

Definition handleSubmitQuiz (attemptId : option string) (st : State) : Async :=
  if isSubmitting st then Return []
  else
    let finalScore := calculateScore st in
    Await [SetIsSubmitting true]
      (UpdateAttempt attemptId finalScore (selectedAnswers st)) (fun updateError =>
        match updateError with
        | Some _ => Return submitFailed
        | None => trackQuestions attemptId st finalScore (questions st)
        end).

(** ** The record store behind the queries *)

Record Db := mkDb {
  quiz_attempts : list QuizAttempt.t;
  quizzes : list Quiz.t
}.

(** [.single()]: the row when the filters leave exactly one, an error
    otherwise. *)
Definition single {A : Type} (rows : list A) : Result A :=
  match rows with
  | [] => Err NotFoundError
  | [row] => Ok row
  | _ :: _ :: _ => Err MultipleRows
  end.

(** [from('quiz_attempts').select('*').eq('id', attemptId)
      .eq('student_id', user.id).single()]; an undefined [attemptId]
    matches no row. *)
Definition select_attempt (d : Db) (attemptId : option string) (userId : string)
    : Result QuizAttempt.t :=
  single (filter (fun row => Some (QuizAttempt.id row) = attemptId
                             ∧ QuizAttempt.student_id row = userId)
                 (quiz_attempts d)).

(** [from('quizzes').select('*').eq('id', quizId).single()] *)
Definition select_quiz (d : Db) (quizId : string) : Result Quiz.t :=
  single (filter (fun row => Quiz.id row = quizId) (quizzes d)).

(** The collaborators of one session: the rows that the two reads see, and
    the outcomes of the write and of the activity-log calls. *)
Record Backend := mkBackend {
  db : Db;
  update_outcome : option string -> Z -> gmap string string -> option PgError;
  track_outcome : option string -> string -> Settled
}.

Definition answer (b : Backend) {A : Type} (req : Request A) : A :=
  match req in Request T return T with
  | SelectAttempt attemptId userId => select_attempt (db b) attemptId userId
  | SelectQuiz quizId => select_quiz (db b) quizId
  | UpdateAttempt attemptId score answers => update_outcome b attemptId score answers
  | TrackQuizQuestion attemptId questionId _ _ _ _ => track_outcome b attemptId questionId
  end.

(** ** Traces *)

(** Who invoked [handleSubmitQuiz]: the timer effect or the Submit button. *)
Inductive Caller := ByTimer | ByClick.

Inductive Event :=
| Did (a : Action)
| Called {A : Type} (req : Request A)
| Invoked (who : Caller).

(** An [async] function run to its end against the collaborators. *)
Fixpoint run (b : Backend) (a : Async) : list Event :=
  match a with
  | Return acts => Did <$> acts
  | Await acts req k => (Did <$> acts) ++ Called req :: run b (k (answer b req))
  end.

Definition isUpdateRequest {A : Type} (req : Request A) : bool :=
  match req with
  | UpdateAttempt _ _ _ => true
  | _ => false
  end.

Definition isUpdate (e : Event) : bool :=
  match e with
  | Called req => isUpdateRequest req
  | _ => false
  end.

Definition isTimerSubmit (e : Event) : bool :=
  match e with
  | Invoked ByTimer => true
  | _ => false
  end.

Definition isInvoked (e : Event) : bool :=
  match e with
  | Invoked _ => true
  | _ => false
  end.

Definition isNavigate (e : Event) : bool :=
  match e with
  | Did (Navigate _) => true
  | _ => false
  end.

Definition isToast (e : Event) : bool :=
  match e with
  | Did (Toast _) => true
  | _ => false
  end.

Definition countEvents (p : Event -> bool) (tr : list Event) : nat :=
  length (filter (fun e => p e = true) tr).

(** ** What is on the screen *)

Inductive View :=
| Spinner
| NotFoundCard
| SessionView (currentQuestion : option Question.t).

(** The three returns of the component function: the spinner while
    [loading], the card ["Quiz not found or has no questions."] with its
    [Back to Quizzes] button when [!quiz || !questions.length], the quiz
    otherwise. *)
Definition render (st : State) : View :=
  if loading st then Spinner
  else
    match quiz st, questions st with
    | None, _ | _, [] => NotFoundCard
    | Some _, _ :: _ =>
        SessionView (if bool_decide (0 <= currentQuestionIndex st)
                     then questions st !! Z.to_nat (currentQuestionIndex st)
                     else None)
    end.

(** The states of the lifecycle, read off the component state.  [NoSession]
    is the card shown for a missing quiz or a quiz without questions. *)
Inductive Phase := Loading | Ready | Submitting | NoSession.

Definition phase (st : State) : Phase :=
  match render st with
  | Spinner => Loading
  | NotFoundCard => NoSession
  | SessionView _ => if isSubmitting st then Submitting else Ready
  end.

(** ** The countdown effect *)

Inductive TimerEffect :=
| SetTimeoutFor (captured : Z)
| CallSubmit.

(** The body of [useEffect(..., [timeLeft])]: with time left it arms a one
    second timeout whose callback is [setTimeLeft(timeLeft - 1)], otherwise
    it calls [handleSubmitQuiz()]. *)
Definition timerEffect (st : State) : TimerEffect :=
  if bool_decide (timeLeft st > 0) then SetTimeoutFor (timeLeft st) else CallSubmit.

(** ** The mounted component and its event loop *)

(** [attemptId] and [user] are what [useParams] and [useAuth] give ([user]
    is kept as its [id]); [timer] is the pending timeout with the
    [timeLeft] its callback closed over; [pending] holds the [async]
    functions suspended at an [await], each with the answer it will resume
    with; [mounted] turns false when the page is left; [log] is everything
    done so far, oldest first. *)
Record Session := mkSession {
  attemptId : option string;
  user : option string;
  comp : State;
  timer : option Z;
  pending : list Async;
  mounted : bool;
  log : list Event
}.

(** One action of a handler.  Setters act on a mounted component only.
    [navigate] leaves the page: the component is unmounted and the cleanup
    of the countdown effect clears the timeout. *)
Definition perform (s : Session) (a : Action) : Session :=
  let comp' := if mounted s then commit1 (comp s) a else comp s in
  match a with
  | Navigate _ =>
      mkSession (attemptId s) (user s) comp' None (pending s) false
        (log s ++ [Did a])
  | _ =>
      mkSession (attemptId s) (user s) comp' (timer s) (pending s) (mounted s)
        (log s ++ [Did a])
  end.

Definition performAll (s : Session) (acts : list Action) : Session :=
  foldl perform s acts.

Definition record (s : Session) (e : Event) : Session :=
  mkSession (attemptId s) (user s) (comp s) (timer s) (pending s) (mounted s)
    (log s ++ [e]).

Definition suspend (s : Session) (a : Async) : Session :=
  mkSession (attemptId s) (user s) (comp s) (timer s) (pending s ++ [a])
    (mounted s) (log s).

(** Start or resume an [async] function: it runs to its next [await]. *)
Definition launch (b : Backend) (s : Session) (a : Async) : Session :=
  match a with
  | Return acts => performAll s acts
  | Await acts req k =>
      suspend (record (performAll s acts) (Called req)) (k (answer b req))
  end.

Definition setTimer (s : Session) (t : option Z) : Session :=
  mkSession (attemptId s) (user s) (comp s) t (pending s) (mounted s) (log s).

Definition setPending (s : Session) (p : list Async) : Session :=
  mkSession (attemptId s) (user s) (comp s) (timer s) p (mounted s) (log s).

Definition invokeSubmit (b : Backend) (who : Caller) (s : Session) : Session :=
  launch b (record s (Invoked who)) (handleSubmitQuiz (attemptId s) (comp s)).

(** The countdown effect run for the current render. *)
Definition runTimerEffect (b : Backend) (s : Session) : Session :=
  if mounted s then
    match timerEffect (comp s) with
    | SetTimeoutFor captured => setTimer s (Some captured)
    | CallSubmit => invokeSubmit b ByTimer (setTimer s None)
    end
  else s.

(** JavaScript truthiness of a possibly undefined string. *)
Definition truthyString (o : option string) : bool :=
  match o with
  | Some v => negb (bool_decide (v = ""))
  | None => false
  end.

(** The first render and the two effects that follow it. *)
Definition mount (b : Backend) (attemptId user : option string) : Session :=
  let s0 := mkSession attemptId user initialState None [] true [] in
  let s1 :=
    match user with
    | Some userId =>
        if truthyString attemptId then launch b s0 (fetchQuizAttempt attemptId userId)
        else perform s0 (Navigate "/quizzes")
    | None => perform s0 (Navigate "/quizzes")
    end in
  runTimerEffect b s1.

(** [String.fromCharCode(65 + index)] for the four option buttons. *)
Inductive OptionButton := ButtonA | ButtonB | ButtonC | ButtonD.

Definition optionLetter (o : OptionButton) : string :=
  match o with
  | ButtonA => "A"
  | ButtonB => "B"
  | ButtonC => "C"
  | ButtonD => "D"
  end.

Inductive Input :=
| Tick
| Reply (n : nat)
| ClickOption (o : OptionButton)
| ClickNext
| ClickPrevious
| ClickSubmit
| ClickBack
| ClickLeave (confirmed : bool).

(** The pending timeout fires: [setTimeLeft(timeLeft - 1)] with the
    captured [timeLeft]; the effect runs again when [timeLeft] changed. *)
Definition tick (b : Backend) (s : Session) : Session :=
  match timer s with
  | None => s
  | Some captured =>
      let s' := perform (setTimer s None) (SetTimeLeft (captured - 1)) in
      if bool_decide (timeLeft (comp s) = captured - 1) then s'
      else runTimerEffect b s'
  end.

(** One turn of the event loop.  A click reaches a handler only when the
    current render shows the button and the button is enabled. *)
Definition step (b : Backend) (s : Session) (i : Input) : Session :=
  match i with
  | Tick => tick b s
  | Reply n =>
      match pending s !! n with
      | Some a => launch b (setPending s (delete n (pending s))) a
      | None => s
      end
  | _ =>
      if mounted s then
        match render (comp s), i with
        | SessionView (Some currentQuestion), ClickOption o =>
            performAll s (handleAnswerSelect (Question.id currentQuestion) (optionLetter o))
        | SessionView _, ClickNext =>
            if bool_decide (currentQuestionIndex (comp s) = questionCount (comp s) - 1)
            then s
            else performAll s (handleNextQuestion (comp s))
        | SessionView _, ClickPrevious =>
            if bool_decide (currentQuestionIndex (comp s) = 0) then s
            else performAll s (handlePreviousQuestion (comp s))
        | SessionView _, ClickSubmit =>
            if bool_decide (currentQuestionIndex (comp s) = questionCount (comp s) - 1)
               && negb (isSubmitting (comp s))
            then invokeSubmit b ByClick s
            else s
        | SessionView _, ClickLeave true => perform s (Navigate "/quizzes")
        | NotFoundCard, ClickBack => perform s (Navigate "/quizzes")
        | _, _ => s
        end
      else s
  end.

Definition steps (b : Backend) (s : Session) (ins : list Input) : Session :=
  foldl (step b) s ins.

(** * The gemini-chat edge function *)

Module GeminiChat.

(** ** JSON values and the JavaScript reads the handler makes of them *)

(** A parsed JSON document.  An object is the list of its own properties,
    each key once.  Numbers matter to the handler only through their
    truthiness; they are kept as integers. *)
#[local] Unset Elimination Schemes.
Inductive json :=
| JNull
| JBool (b : bool)
| JNumber (n : Z)
| JString (s : string)
| JArray (items : list json)
| JObject (fields : list (string * json)).
#[local] Set Elimination Schemes.

(** A JavaScript value: [None] is [undefined]. *)
Definition value := option json.

Fixpoint assoc (name : string) (fields : list (string * json)) : value :=
  match fields with
  | [] => None
  | (k, v) :: rest => if bool_decide (k = name) then Some v else assoc name rest
  end.

(** [v.name] on a value that is neither [null] nor [undefined], for the
    names the handler reads ([question], [subject], [chapter],
    [candidates], [content], [parts], [text]): none of them is inherited
    by arrays, strings, numbers or booleans. *)
Definition member (v : json) (name : string) : value :=
  match v with
  | JObject fields => assoc name fields
  | _ => None
  end.

(** [v[0]] on a value that is neither [null] nor [undefined]. *)
Definition index0 (v : json) : value :=
  match v with
  | JArray items => head items
  | JString (String c _) => Some (JString (String c ""))
  | JObject fields => assoc "0" fields
  | _ => None
  end.

(** Optional chaining: [v?.name] and [v?.[0]]. *)
Definition optMember (v : value) (name : string) : value :=
  match v with
  | None | Some JNull => None
  | Some x => member x name
  end.

Definition optIndex0 (v : value) : value :=
  match v with
  | None | Some JNull => None
  | Some x => index0 x
  end.

(** JavaScript truthiness. *)
Definition truthy (v : value) : bool :=
  match v with
  | None | Some JNull => false
  | Some (JBool b) => b
  | Some (JNumber n) => negb (bool_decide (n = 0))
  | Some (JString s) => negb (bool_decide (s = ""))
  | Some (JArray _) | Some (JObject _) => true
  end.

(** [v || d] *)
Definition orElse (v : value) (d : json) : json :=
  match v with
  | Some x => if truthy v then x else d
  | None => d
  end.

(** [v || null] *)
Definition orNull (v : value) : json := orElse v JNull.

(** ** Requests, responses and the outside world *)

Record HttpRequest := mkRequest {
  method : string;
  (** what [req.json()] resolves to; [None] when it rejects *)
  json_body : option json;
  (** [req.headers.get('Authorization')] *)
  authorization : option string
}.

(** What the handler throws, or what is thrown under it. *)
Inductive Thrown :=
| SyntaxError
| TypeError
| FetchRejected
| ApiKeyNotConfigured
| GeminiApiError (status : Z) (errorData : string).

Inductive Body :=
| NoBody
| AnswerBody (answer : json)
| ErrorBody (error : string)
| ThrownBody (error : Thrown).

Record HttpResponse := mkResponse {
  status : Z;
  body : Body
}.

(** The prompt is a fixed template string around three values, kept here
    as the values: a string stands in the text as it is; the text that the
    template makes of a value of another kind is not modelled (it can be
    empty for a truthy value, as for the empty array). *)
Record Prompt := mkPrompt {
  prompt_subject : json;
  prompt_chapter : json;
  prompt_question : json
}.

Record UpstreamResponse := mkUpstream {
  ok : bool;
  upstream_status : Z;
  (** [response.text()] *)
  text_body : string;
  (** what [response.json()] resolves to; [None] when it rejects *)
  upstream_json : option json
}.

Inductive FetchOutcome :=
| Rejects
| Responds (response : UpstreamResponse).

Record ConversationRow := mkRow {
  user_id : string;
  question_text : json;
  answer_text : json;
  subject : json;
  chapter : json
}.

Record World := mkWorld {
  (** [Deno.env.get('GEMINI_API_KEY')] *)
  GEMINI_API_KEY : option string;
  (** the completion API *)
  gemini : Prompt -> FetchOutcome;
  (** [supabase.auth.getUser(token)]: the user's id, if any *)
  getUser : string -> option string;
  (** the error of the insert, if any; the handler only logs it *)
  insertConversation : ConversationRow -> option string
}.

Inductive Call :=
| Fetch (p : Prompt)
| GetUser (token : string)
| Insert (row : ConversationRow).

(** ** The handler *)

Definition fallbackAnswer : string := "Sorry, I could not generate a response.".

(** [data.candidates?.[0]?.content?.parts?.[0]?.text] for [data] other
    than [null]. *)
Definition candidateText (data : json) : value :=
  optMember
    (optIndex0
       (optMember
          (optMember (optIndex0 (member data "candidates")) "content")
          "parts"))
    "text".

(** [s.replace(pat, rep)]: the first occurrence only. *)
Fixpoint replaceFirst (pat rep s : string) : string :=
  if String.prefix pat s
  then String.append rep (String.substring (String.length pat) (String.length s) s)
  else
    match s with
    | EmptyString => EmptyString
    | String c s' => String c (replaceFirst pat rep s')
    end.

(** The block that stores the conversation: the calls it makes.  The
    client calls answer with a result object ([{ data, error }]) and do not
    throw; [SUPABASE_URL] and [SUPABASE_SERVICE_ROLE_KEY] are set, as the
    source asserts with [!]. *)
Definition storeConversation (w : World) (req : HttpRequest)
    (question : json) (subject chapter : value) (aiAnswer : json) : list Call :=
  if truthyString (authorization req) then
    match authorization req with
    | Some authHeader =>
        let token := replaceFirst "Bearer " "" authHeader in
        match getUser w token with
        | Some uid =>
            [GetUser token;
             Insert (mkRow uid question aiAnswer (orNull subject) (orNull chapter))]
        | None => [GetUser token]
        end
    | None => []
    end
  else [].

(** The [catch] block. *)
Definition caught (calls : list Call) (e : Thrown) : list Call * HttpResponse :=
  (calls, mkResponse 500 (ThrownBody e)).

Definition isNull (v : json) : bool :=
  match v with
  | JNull => true
  | _ => false
  end.

(** What follows a 2xx answer of the completion API. *)
Definition respond (w : World) (req : HttpRequest) (prompt : Prompt)
    (q : json) (subject chapter : value) (response : UpstreamResponse)
    : list Call * HttpResponse :=
  match upstream_json response with
  | None => caught [Fetch prompt] SyntaxError
  | Some data =>
      (* [data.candidates] throws on [null] *)
      if isNull data then caught [Fetch prompt] TypeError
      else
        let aiAnswer := orElse (candidateText data) (JString fallbackAnswer) in
        (Fetch prompt :: storeConversation w req q subject chapter aiAnswer,
         mkResponse 200 (AnswerBody aiAnswer))
  end.

(** The function passed to [serve]: the calls made to the outside, in
    order, and the response. *)
Definition handler (w : World) (req : HttpRequest) : list Call * HttpResponse :=
  if bool_decide (method req = "OPTIONS") then ([], mkResponse 200 NoBody)
  else
    match json_body req with
    | None => caught [] SyntaxError
    | Some payload =>
        (* destructuring [null] throws *)
        if isNull payload then caught [] TypeError
        else
          let question := member payload "question" in
          let subject := member payload "subject" in
          let chapter := member payload "chapter" in
          match question with
          | Some q =>
              if truthy question then
                if truthyString (GEMINI_API_KEY w) then
                  let prompt :=
                    mkPrompt (orElse subject (JString "General"))
                      (orElse chapter (JString "General")) q in
                  match gemini w prompt with
                  | Rejects => caught [Fetch prompt] FetchRejected
                  | Responds response =>
                      if ok response
                      then respond w req prompt q subject chapter response
                      else
                        caught [Fetch prompt]
                          (GeminiApiError (upstream_status response)
                             (text_body response))
                  end
                else caught [] ApiKeyNotConfigured
              else ([], mkResponse 400 (ErrorBody "Question is required"))
          | None => ([], mkResponse 400 (ErrorBody "Question is required"))
          end
    end.

(** ** The properties of the handler, as the specification words them *)

(** A path into a JSON document; a step through [null] or a missing part
    ends in [undefined]. *)
Inductive PathStep :=
| Key (name : string)
| First.

Fixpoint follow (path : list PathStep) (v : value) : value :=
  match path with
  | [] => v
  | step :: rest =>
      follow rest
        match v with
        | None | Some JNull => None
        | Some x =>
            match step with
            | Key name => member x name
            | First => index0 x
            end
        end
  end.

(** Where the completion API puts the text of its first candidate. *)
Definition candidateTextPath : list PathStep :=
  [Key "candidates"; First; Key "content"; Key "parts"; First; Key "text"].

(** The body holds no candidate text: nothing at the path, or something
    empty. *)
Definition noCandidateText (data : json) : Prop :=
  truthy (follow candidateTextPath (Some data)) = false.

(** The completion API was called and failed: the call rejected, or the
    response was not a 2xx one. *)
Definition upstreamFailed (w : World) (req : HttpRequest) : Prop :=
  exists p, Fetch p ∈ (handler w req).1
            /\ (gemini w p = Rejects
                \/ exists r, gemini w p = Responds r /\ ok r = false).

Definition isClientError (code : Z) : Prop := 400 <= code < 500.

Definition isSuccess (code : Z) : Prop := 200 <= code < 300.

End GeminiChat.

(** * The properties, as the specification words them *)

(** A question counts when the selection recorded for its id is its
    correct option letter. *)
Definition answeredCorrectly (S : gmap string string) (q : Question.t) : Prop :=
  S !! Question.id q = Some (Question.correct_answer q).

#[global] Instance answeredCorrectly_dec S q : Decision (answeredCorrectly S q).
Proof. unfold answeredCorrectly. apply _. Defined.

(** The number of counting questions times the point value of the quiz
    type: 25 for ["daily"], 8 otherwise. *)
Definition specScore (Q : Quiz.t) (S : gmap string string) : Z :=
  Z.of_nat (length (filter (answeredCorrectly S) (loadedQuestions Q)))
  * (if bool_decide (Quiz.type Q = "daily") then 25 else 8).

(** The cursor lies within [0, questionCount - 1]. *)
Definition cursorInRange (st : State) : Prop :=
  0 <= currentQuestionIndex st <= questionCount st - 1.


(** * Sample data *)

Definition sampleQuestion (id correct : string) : Question.t :=
  Question.mk id "?" "first" "second" "third" "fourth" correct None.

Definition fourQuestions : list Question.t :=
  [sampleQuestion "q1" "A"; sampleQuestion "q2" "B";
   sampleQuestion "q3" "C"; sampleQuestion "q4" "D"].

Definition dailyQuiz : Quiz.t :=
  Quiz.mk "quiz-1" "Mathematics" None (PayloadArray fourQuestions) 100 "daily".

Definition practiceQuiz : Quiz.t :=
  Quiz.mk "quiz-2" "Physics" (Some "Waves") (PayloadArray fourQuestions) 32 "practice".

Definition emptyQuiz : Quiz.t :=
  Quiz.mk "quiz-3" "Chemistry" None (PayloadArray []) 100 "daily".

(** Three of the four selections are the correct letters. *)
Definition threeOfFour : gmap string string :=
  <["q1" := "A"]> (<["q2" := "B"]> (<["q3" := "C"]> (<["q4" := "A"]> ∅))).

(** The state in which the load leaves the component for quiz [Q], with
    selection [S] and the cursor at [i]. *)
Definition loadedState (Q : Quiz.t) (S : gmap string string) (i : Z) : State :=
  mkState None (Some Q) (loadedQuestions Q) i S 1800 false false.

Definition sampleAttempt : QuizAttempt.t :=
  QuizAttempt.mk "attempt-1" "quiz-1" "student-1" 0 ∅ 1.

Definition emptyQuizAttempt : QuizAttempt.t :=
  QuizAttempt.mk "attempt-3" "quiz-3" "student-1" 0 ∅ 1.

Definition sampleDb : Db :=
  mkDb [sampleAttempt; emptyQuizAttempt] [dailyQuiz; practiceQuiz; emptyQuiz].

(** A backend on which every write and every activity-log call succeeds. *)
Definition sampleBackend : Backend :=
  mkBackend sampleDb (fun _ _ _ => None) (fun _ _ => Resolved).

(** A backend on which the update of the attempt fails. *)
Definition failingBackend : Backend :=
  mkBackend sampleDb (fun _ _ _ => Some WriteFailed) (fun _ _ => Resolved).

(** A session in [Ready] on quiz [Q] with [t] seconds left. *)
Definition readySession (Q : Quiz.t) (S : gmap string string) (i t : Z) : Session :=
  mkSession (Some "attempt-1") (Some "student-1")
    (mkState (Some sampleAttempt) (Some Q) (loadedQuestions Q) i S t false false)
    (Some t) [] true [].

(** Sample requests and worlds of the edge function. *)
Definition questionRequest (q : GeminiChat.json) : GeminiChat.HttpRequest :=
  GeminiChat.mkRequest "POST"
    (Some (GeminiChat.JObject [("question", q); ("subject", GeminiChat.JString "Maths")]))
    None.

Definition noQuestionRequest : GeminiChat.HttpRequest :=
  GeminiChat.mkRequest "POST"
    (Some (GeminiChat.JObject [("subject", GeminiChat.JString "Maths")])) None.

(** A world whose completion API always gives [r]. *)
Definition worldAnswering (r : GeminiChat.FetchOutcome) : GeminiChat.World :=
  GeminiChat.mkWorld (Some "key") (fun _ => r) (fun _ => None) (fun _ => None).

Definition overloaded : GeminiChat.FetchOutcome :=
  GeminiChat.Responds (GeminiChat.mkUpstream false 503 "overloaded" None).

(** A 200 answer whose body is [{"candidates": []}]. *)
Definition noCandidates : GeminiChat.FetchOutcome :=
  GeminiChat.Responds
    (GeminiChat.mkUpstream true 200 ""
       (Some (GeminiChat.JObject [("candidates", GeminiChat.JArray [])]))).

(** A 200 answer with one candidate saying [text]. *)
Definition oneCandidate (text : string) : GeminiChat.FetchOutcome :=
  GeminiChat.Responds
    (GeminiChat.mkUpstream true 200 ""
       (Some (GeminiChat.JObject
          [("candidates",
            GeminiChat.JArray
              [GeminiChat.JObject
                 [("content",
                   GeminiChat.JObject
                     [("parts",
                       GeminiChat.JArray
                         [GeminiChat.JObject
                            [("text", GeminiChat.JString text)]])])]])]))).

(** A 200 answer whose body is [null]. *)
Definition nullBody : GeminiChat.FetchOutcome :=
  GeminiChat.Responds (GeminiChat.mkUpstream true 200 "" (Some GeminiChat.JNull)).

(** * Invariants of the event loop *)

Definition isSetTimeLeft (a : Action) : bool :=
  match a with
  | SetTimeLeft _ => true
  | _ => false
  end.

(** An [async] function that never calls [setTimeLeft], whatever answers
    it gets. *)
Inductive NoTimeLeft : Async -> Prop :=
| NoTimeLeft_Return acts :
    Forall (fun a => isSetTimeLeft a = false) acts ->
    NoTimeLeft (Return acts)
| NoTimeLeft_Await acts A (req : Request A) k :
    Forall (fun a => isSetTimeLeft a = false) acts ->
    (forall x, NoTimeLeft (k x)) ->
    NoTimeLeft (Await acts req k).

(** The countdown of a session: a pending timeout belongs to a mounted
    component, carries the current [timeLeft], which is positive; without a
    pending timeout the page was left or the countdown is at zero; the
    timer effect has called [handleSubmitQuiz] once when the countdown is
    at zero and never before; the suspended [async] functions leave
    [timeLeft] alone. *)
Record CountdownInv (s : Session) : Prop := mkCountdownInv {
  inv_nonneg : 0 <= timeLeft (comp s);
  inv_armed : forall c, timer s = Some c ->
                c = timeLeft (comp s) /\ 0 < c /\ mounted s = true;
  inv_idle : timer s = None -> mounted s = false \/ timeLeft (comp s) = 0;
  inv_submits : countEvents isTimerSubmit (log s)
                = if bool_decide (timeLeft (comp s) = 0) then 1%nat else 0%nat;
  inv_pending : Forall NoTimeLeft (pending s)
}.

(** An [async] function that makes no update call, whatever answers it
    gets. *)
Inductive NoUpdate : Async -> Prop :=
| NoUpdate_Return acts : NoUpdate (Return acts)
| NoUpdate_Await acts A (req : Request A) k :
    isUpdateRequest req = false ->
    (forall x, NoUpdate (k x)) ->
    NoUpdate (Await acts req k).

(** What [handleSubmitQuiz] does once the awaited update has answered. *)
Definition afterUpdate (attemptId : option string) (st : State)
    (updateError : option PgError) : Async :=
  match updateError with
  | Some _ => Return submitFailed
  | None => trackQuestions attemptId st (calculateScore st) (questions st)
  end.

(** Actions that leave the cursor alone, and actions that leave both the
    cursor and the list of questions alone. *)
Definition keepsIndex (a : Action) : bool :=
  match a with
  | SetCurrentQuestionIndex _ => false
  | _ => true
  end.

Definition keepsCursor (a : Action) : bool :=
  match a with
  | SetCurrentQuestionIndex _ | SetQuestions _ => false
  | _ => true
  end.

(** An [async] function that never sets the cursor or the questions. *)
Inductive Plain : Async -> Prop :=
| Plain_Return acts :
    Forall (fun a => keepsCursor a = true) acts -> Plain (Return acts)
| Plain_Await acts A (req : Request A) k :
    Forall (fun a => keepsCursor a = true) acts ->
    (forall x, Plain (k x)) ->
    Plain (Await acts req k).

(** An [async] function that never sets the cursor and sets the questions
    at most in its last stretch, after its last [await]. *)
Inductive Loader : Async -> Prop :=
| Loader_Return acts :
    Forall (fun a => keepsIndex a = true) acts -> Loader (Return acts)
| Loader_Await acts A (req : Request A) k :
    Forall (fun a => keepsCursor a = true) acts ->
    (forall x, Loader (k x)) ->
    Loader (Await acts req k).

(** Suspended functions among which exactly one may still set the
    questions. *)
Inductive OneLoader : list Async -> Prop :=
| OneLoader_here a l : Loader a -> Forall Plain l -> OneLoader (a :: l)
| OneLoader_later a l : Plain a -> OneLoader l -> OneLoader (a :: l).

(** The state before any question has arrived. *)
Definition pristine (st : State) : Prop :=
  questions st = [] /\ currentQuestionIndex st = 0.

(** The cursor of a session: it is in range as soon as there are
    questions, and the questions can still change only while there are
    none. *)
Record CursorInv (s : Session) : Prop := mkCursorInv {
  cur_state : pristine (comp s) \/ cursorInRange (comp s);
  cur_pending : Forall Plain (pending s)
                \/ (pristine (comp s) /\ OneLoader (pending s))
}.

(** * The clock *)

(** [String(n)] of a whole number: its decimal digits, with a minus sign
    below zero.  (From 10^21 on the source prints the exponent form; the
    numbers of the model stay below.) *)
Definition numberToString (n : Z) : string :=
  DecimalString.NilZero.string_of_int (Z.to_int n).

(** [s.padStart(2, '0')] *)
Definition padStart2 (s : string) : string :=
  match String.length s with
  | O => "00"
  | 1%nat => String.append "0" s
  | _ => s
  end.

(** [Number.MAX_SAFE_INTEGER]: up to it every whole number is a number of
    JavaScript, [Math.floor(n / 60)] is the whole quotient and [String]
    prints all the digits. *)
Definition maxSafeInteger : Z := 2 ^ 53 - 1.

(** The clock, for a whole number of seconds whose absolute value is at
    most [maxSafeInteger]; the component calls it with [timeLeft] only.
    [Math.floor(seconds / 60)] is the floor division; [seconds % 60] has
    the sign of [seconds].  Beyond that range, and for a number of seconds
    that is not whole, the source computes on floating-point numbers, which
    is not modelled. *)
Definition formatTime (seconds : Z) : string :=
  let minutes := seconds / 60 in
  let remainingSeconds := Z.rem seconds 60 in
  String.append (numberToString minutes)
    (String.append ":" (padStart2 (numberToString remainingSeconds))).

(** * The option buttons *)

(** [selectedAnswers[currentQuestion.id] === optionLetter]: whether the
    button of an option is drawn as selected. *)
Definition isSelected (st : State) (question : Question.t) (o : OptionButton) : bool :=
  strictEq (selectedAnswers st !! Question.id question) (optionLetter o).

(** * Calls of the edge function, by kind *)

Definition isFetch (c : GeminiChat.Call) : bool :=
  match c with
  | GeminiChat.Fetch _ => true
  | _ => false
  end.

(** The calls of the block that stores the conversation. *)
Definition isStoreCall (c : GeminiChat.Call) : bool :=
  match c with
  | GeminiChat.GetUser _ | GeminiChat.Insert _ => true
  | GeminiChat.Fetch _ => false
  end.

(** Sample requests with an [Authorization] header. *)
Definition authorizedRequest (header : string) : GeminiChat.HttpRequest :=
  GeminiChat.mkRequest "POST"
    (Some (GeminiChat.JObject [("question", GeminiChat.JString "What is a limit?")]))
    (Some header).

(** A world that knows the user behind the token ["t0k3n"]. *)
Definition worldWithUser (r : GeminiChat.FetchOutcome) : GeminiChat.World :=
  GeminiChat.mkWorld (Some "key") (fun _ => r)
    (fun token => if bool_decide (token = "t0k3n") then Some "user-7" else None)
    (fun _ => None).

(** A world without API key. *)
Definition worldWithoutKey : GeminiChat.World :=
  GeminiChat.mkWorld None (fun _ => GeminiChat.Rejects) (fun _ => None) (fun _ => None).

(** * Reading a trace *)

(** What [k] ticks write to the log when the countdown stands at [t], with
    [k] at most [t]: one [setTimeLeft] call each, down to [t - k]. *)
Fixpoint ticking (t : Z) (k : nat) : list Event :=
  match k with
  | O => []
  | S k' => Did (SetTimeLeft (t - 1)) :: ticking (t - 1) k'
  end.

(** The inputs of a load during which time passes: [k1] ticks before the
    first query answers and [k2] ticks before the second one does. *)
Definition slowLoad (k1 k2 : nat) : list Input :=
  replicate k1 Tick ++ [Reply 0] ++ replicate k2 Tick ++ [Reply 0].


(** The log entry of the activity-log call that [handleSubmitQuiz] makes
    for a question. *)
Definition trackCall (attemptId : option string) (sel : gmap string string)
    (question : Question.t) : Event :=
  Called (TrackQuizQuestion attemptId (Question.id question)
            (Question.question_text question) (studentAnswerOf sel question)
            (Question.correct_answer question)
            (answerIs (studentAnswerOf sel question)
               (Question.correct_answer question))).

Definition isTrack (e : Event) : bool :=
  match e with
  | Called (TrackQuizQuestion _ _ _ _ _ _) => true
  | _ => false
  end.

(** An activity-log call that reports a correct answer. *)
Definition isTrackedCorrect (e : Event) : bool :=
  match e with
  | Called (TrackQuizQuestion _ _ _ _ _ isCorrect) => isCorrect
  | _ => false
  end.

(** The number of [await]s an [async] function goes through against the
    collaborators. *)
Fixpoint awaits (b : Backend) (a : Async) : nat :=
  match a with
  | Return _ => 0
  | Await _ req k => S (awaits b (k (answer b req)))
  end.

(** A session that goes through the entries of a trace one after the
    other. *)
Definition replay (s : Session) (tr : list Event) : Session :=
  foldl (fun s e => match e with
                    | Did a => perform s a
                    | _ => record s e
                    end) s tr.

(** More sample data: an attempt whose quiz is not in the store, and a
    backend on which the activity log rejects the call for question
    ["q2"]. *)
Definition orphanAttempt : QuizAttempt.t :=
  QuizAttempt.mk "attempt-9" "quiz-9" "student-1" 0 ∅ 1.

Definition orphanBackend : Backend :=
  mkBackend (mkDb [orphanAttempt] [dailyQuiz]) (fun _ _ _ => None)
    (fun _ _ => Resolved).


Definition isDid (e : Event) : bool :=
  match e with
  | Did _ => true
  | _ => false
  end.

(** A quiz row one of whose questions carries no correct answer. *)
Definition unkeyedQuiz : Quiz.t :=
  Quiz.mk "quiz-4" "History" None
    (PayloadArray [sampleQuestion "q1" "A"; sampleQuestion "q2" ""]) 50 "daily".

(** * The selection in every session *)

(** Actions that leave the selection alone, and actions that leave both
    the selection and the list of questions alone. *)
Definition keepsAnswers (a : Action) : bool :=
  match a with
  | SetSelectedAnswers _ _ => false
  | _ => true
  end.

Definition keepsSelection (a : Action) : bool :=
  match a with
  | SetSelectedAnswers _ _ | SetQuestions _ => false
  | _ => true
  end.

(** An [async] function that never sets the selection or the questions. *)
Inductive Calm : Async -> Prop :=
| Calm_Return acts :
    Forall (fun a => keepsSelection a = true) acts -> Calm (Return acts)
| Calm_Await acts A (req : Request A) k :
    Forall (fun a => keepsSelection a = true) acts ->
    (forall x, Calm (k x)) ->
    Calm (Await acts req k).

(** An [async] function that never sets the selection and sets the
    questions at most after its last [await]. *)
Inductive Fetching : Async -> Prop :=
| Fetching_Return acts :
    Forall (fun a => keepsAnswers a = true) acts -> Fetching (Return acts)
| Fetching_Await acts A (req : Request A) k :
    Forall (fun a => keepsSelection a = true) acts ->
    (forall x, Fetching (k x)) ->
    Fetching (Await acts req k).

Inductive OneFetching : list Async -> Prop :=
| OneFetching_here a l : Fetching a -> Forall Calm l -> OneFetching (a :: l)
| OneFetching_later a l : Calm a -> OneFetching l -> OneFetching (a :: l).

(** Every key of [selectedAnswers] is the id of one of the [questions],
    and every value is the letter of an option button. *)
Definition validSelection (st : State) : Prop :=
  forall k v, selectedAnswers st !! k = Some v ->
    (exists q, q ∈ questions st /\ Question.id q = k)
    /\ (exists o, v = optionLetter o).

(** The selection of a session: it is valid, and the questions can still
    change only while there are none and nothing is selected. *)
Record SelectionInv (s : Session) : Prop := mkSelectionInv {
  sel_state : validSelection (comp s);
  sel_pending : Forall Calm (pending s)
                \/ (questions (comp s) = [] /\ selectedAnswers (comp s) = ∅
                    /\ OneFetching (pending s))
}.

(** * Pressing Next and Previous *)

(** The state after [handleNextQuestion], respectively
    [handlePreviousQuestion], ran on the render of [st]. *)
Definition pressNext (st : State) : State := commit st (handleNextQuestion st).

Definition pressPrevious (st : State) : State :=
  commit st (handlePreviousQuestion st).

(** Requests whose body is [null], and whose body is not JSON. *)
Definition nullRequest : GeminiChat.HttpRequest :=
  GeminiChat.mkRequest "POST" (Some GeminiChat.JNull) None.

Definition unreadableRequest : GeminiChat.HttpRequest :=
  GeminiChat.mkRequest "POST" None None.
(** * Scoring *)

Lemma strictEq_true S q :
  strictEq (S !! Question.id q) (Question.correct_answer q) = true
  <-> answeredCorrectly S q.
Proof.
  unfold strictEq, answeredCorrectly.
  destruct (S !! Question.id q) as [a|]; [|split; discriminate].
  rewrite bool_decide_eq_true. split; congruence.
Qed.

Lemma countStep_matching S acc q :
  answeredCorrectly S q -> countStep S acc q = acc + 1.
Proof.
  intros H. unfold countStep. apply strictEq_true in H. by rewrite H.
Qed.

Lemma countStep_other S acc q :
  ~ answeredCorrectly S q -> countStep S acc q = acc.
Proof.
  intros H. unfold countStep.
  destruct (strictEq _ _) eqn:E; [|done].
  apply strictEq_true in E. contradiction.
Qed.

(** The [forEach] loop adds the number of counting questions to its
    counter. *)
Lemma forEach_counts S qs : forall acc,
  foldl (countStep S) acc qs
  = acc + Z.of_nat (length (filter (answeredCorrectly S) qs)).
Proof.
  induction qs as [|q qs IH]; intros acc; simpl.
  - lia.
  - rewrite IH. destruct (decide (answeredCorrectly S q)) as [Hq|Hq].
    + rewrite (countStep_matching _ _ _ Hq), filter_cons_True by done.
      simpl. lia.
    + rewrite (countStep_other _ _ _ Hq), filter_cons_False by done.
      done.
Qed.

(** C1.  For every quiz Q and selection mapping S, in a component state
    that holds Q and its questions (as the load leaves it) and S, the score
    computed by [calculateScore] is the number of questions of Q whose
    recorded selection equals the question's correct option letter, times
    25 when the type of Q is "daily" and times 8 otherwise.  Questions
    without a selection or with another selection add nothing. *)
Theorem calculateScore_counts_matches (st : State) (Q : Quiz.t) :
  quiz st = Some Q ->
  questions st = loadedQuestions Q ->
  calculateScore st = specScore Q (selectedAnswers st).
Proof.
  intros HQ Hqs. unfold calculateScore, specScore, pointsPerQuestion.
  rewrite HQ, Hqs, forEach_counts. f_equal.
Qed.

Lemma calculateScore_counts_matches_witness :
  let st := loadedState dailyQuiz threeOfFour 0 in
  quiz st = Some dailyQuiz
  /\ questions st = loadedQuestions dailyQuiz
  /\ calculateScore st = specScore dailyQuiz threeOfFour.
Proof.
  split; [reflexivity|]. split; [reflexivity|].
  apply calculateScore_counts_matches; reflexivity.
Defined.

(** The scenario of the specification: four questions, type "daily",
    three selections right. *)
Example score_daily_three_of_four :
  calculateScore (loadedState dailyQuiz threeOfFour 0) = 75.
Proof. vm_compute. reflexivity. Qed.

Example score_practice_three_of_four :
  calculateScore (loadedState practiceQuiz threeOfFour 0) = 24.
Proof. vm_compute. reflexivity. Qed.

Example score_no_selection :
  calculateScore (loadedState practiceQuiz ∅ 0) = 0.
Proof. vm_compute. reflexivity. Qed.

(** Without a quiz the point value is 8, and there are no questions. *)
Lemma calculateScore_initial : calculateScore initialState = 0.
Proof. reflexivity. Qed.

(** The loop reads the selection only at the ids of the questions. *)
Lemma forEach_agree (S S' : gmap string string) qs : forall acc,
  (forall q, q ∈ qs -> S' !! Question.id q = S !! Question.id q) ->
  foldl (countStep S') acc qs = foldl (countStep S) acc qs.
Proof.
  induction qs as [|q qs IH]; intros acc H; simpl; [done|].
  assert (countStep S' acc q = countStep S acc q) as ->.
  { unfold countStep. rewrite H; [done|]. apply list_elem_of_here. }
  apply IH. intros q' Hq'. apply H. by apply list_elem_of_further.
Qed.

(** C5.  An entry added to the selection mapping at a key that is the id
    of no question of the quiz leaves the score as it was. *)
Theorem calculateScore_extra_key (st : State) (k v : string) :
  (forall q, q ∈ questions st -> Question.id q <> k) ->
  calculateScore (commit st (handleAnswerSelect k v)) = calculateScore st.
Proof.
  intros Hk. unfold calculateScore. simpl. f_equal.
  apply forEach_agree. intros q Hq.
  apply lookup_insert_ne. intros ->. by apply (Hk q).
Qed.

Lemma calculateScore_extra_key_witness :
  let st := loadedState dailyQuiz threeOfFour 0 in
  (forall q, q ∈ questions st -> Question.id q <> "zz")
  /\ calculateScore (commit st (handleAnswerSelect "zz" "A")) = calculateScore st.
Proof.
  assert (forall q, q ∈ questions (loadedState dailyQuiz threeOfFour 0)
                    -> Question.id q <> "zz") as H.
  { intros q Hq. simpl in Hq. unfold fourQuestions in Hq.
    repeat (apply elem_of_cons in Hq as [->|Hq]; [discriminate|]).
    by apply elem_of_nil in Hq. }
  split; [exact H|]. apply calculateScore_extra_key. exact H.
Defined.

(** * Moving between questions *)

(** C6.  With the cursor within [0, questionCount - 1], [handleNextQuestion]
    and [handlePreviousQuestion] leave it there; at the last index
    [handleNextQuestion] calls no setter and the state stays as it is, and
    so does [handlePreviousQuestion] at index 0; everywhere else they set
    the cursor one further, respectively one back, and nothing else. *)
Theorem cursor_moves_clamped (st : State) :
  cursorInRange st ->
  let next := commit st (handleNextQuestion st) in
  let prev := commit st (handlePreviousQuestion st) in
  cursorInRange next /\ cursorInRange prev
  /\ (currentQuestionIndex st = questionCount st - 1 ->
      handleNextQuestion st = [] /\ next = st)
  /\ (currentQuestionIndex st = 0 ->
      handlePreviousQuestion st = [] /\ prev = st)
  /\ (currentQuestionIndex st <> questionCount st - 1 ->
      next = commit1 st (SetCurrentQuestionIndex (currentQuestionIndex st + 1)))
  /\ (currentQuestionIndex st <> 0 ->
      prev = commit1 st (SetCurrentQuestionIndex (currentQuestionIndex st - 1))).
Proof.
  unfold cursorInRange, handleNextQuestion, handlePreviousQuestion, questionCount.
  intros [Hlo Hhi]. simpl.
  repeat case_bool_decide; simpl; unfold questionCount; simpl;
    repeat split; intros; try lia; done.
Qed.

Lemma cursor_moves_clamped_witness :
  let st := loadedState dailyQuiz ∅ 3 in
  cursorInRange st
  /\ handleNextQuestion st = []
  /\ currentQuestionIndex (commit st (handlePreviousQuestion st)) = 2.
Proof.
  assert (cursorInRange (loadedState dailyQuiz ∅ 3)) as H.
  { unfold cursorInRange, questionCount. simpl. lia. }
  split; [exact H|].
  destruct (cursor_moves_clamped _ H) as (_ & _ & Hlast & _ & _ & Hprev).
  split.
  - apply Hlast. reflexivity.
  - rewrite Hprev; [reflexivity|]. simpl. lia.
Defined.

(** * The event loop: what a step leaves alone *)

Lemma countEvents_app p tr tr' :
  countEvents p (tr ++ tr') = (countEvents p tr + countEvents p tr')%nat.
Proof. unfold countEvents. by rewrite filter_app, length_app. Qed.

Lemma countEvents_Did p acts :
  (forall a, p (Did a) = false) -> countEvents p (Did <$> acts) = 0%nat.
Proof.
  intros H. unfold countEvents. induction acts as [|a acts IH]; [done|].
  simpl. rewrite filter_cons_False; [done|]. rewrite H. discriminate.
Qed.

Lemma perform_log s a : log (perform s a) = log s ++ [Did a].
Proof. by destruct a. Qed.

Lemma perform_pending s a : pending (perform s a) = pending s.
Proof. by destruct a. Qed.

Lemma perform_attemptId s a : attemptId (perform s a) = attemptId s.
Proof. by destruct a. Qed.

Lemma perform_mounted_false s a : mounted s = false -> mounted (perform s a) = false.
Proof. by destruct a. Qed.

Lemma perform_unmounted_comp s a : mounted s = false -> comp (perform s a) = comp s.
Proof. intros H. destruct a; simpl; by rewrite H. Qed.

Lemma perform_timeLeft s a :
  isSetTimeLeft a = false -> timeLeft (comp (perform s a)) = timeLeft (comp s).
Proof. destruct a; try discriminate; intros _; simpl; by destruct (mounted s). Qed.

(** A step of a handler either keeps the timeout and the mount status, or
    it is a navigation, which clears the one and ends the other. *)
Lemma perform_timer s a :
  (timer (perform s a) = timer s /\ mounted (perform s a) = mounted s)
  \/ (timer (perform s a) = None /\ mounted (perform s a) = false).
Proof. destruct a; simpl; auto. Qed.

Lemma performAll_cons s a acts :
  performAll s (a :: acts) = performAll (perform s a) acts.
Proof. reflexivity. Qed.

Lemma performAll_log s acts : log (performAll s acts) = log s ++ (Did <$> acts).
Proof.
  revert s. induction acts as [|a acts IH]; intros s.
  - simpl. by rewrite app_nil_r.
  - rewrite performAll_cons, IH, perform_log, <- app_assoc. done.
Qed.

Lemma performAll_pending s acts : pending (performAll s acts) = pending s.
Proof.
  revert s. induction acts as [|a acts IH]; intros s; [done|].
  by rewrite performAll_cons, IH, perform_pending.
Qed.

Lemma performAll_attemptId s acts : attemptId (performAll s acts) = attemptId s.
Proof.
  revert s. induction acts as [|a acts IH]; intros s; [done|].
  by rewrite performAll_cons, IH, perform_attemptId.
Qed.

Lemma performAll_timeLeft s acts :
  Forall (fun a => isSetTimeLeft a = false) acts ->
  timeLeft (comp (performAll s acts)) = timeLeft (comp s).
Proof.
  intros H. revert s. induction H as [|a acts Ha _ IH]; intros s; [done|].
  by rewrite performAll_cons, IH, perform_timeLeft.
Qed.

Lemma performAll_timer s acts :
  (timer (performAll s acts) = timer s /\ mounted (performAll s acts) = mounted s)
  \/ (timer (performAll s acts) = None /\ mounted (performAll s acts) = false).
Proof.
  revert s. induction acts as [|a acts IH]; intros s; [auto|].
  rewrite performAll_cons.
  destruct (IH (perform s a)) as [[-> ->]|[-> ->]]; [|auto].
  apply perform_timer.
Qed.

(** While the component stays mounted, the setters of a handler are the
    ones [commit] applies. *)
Lemma performAll_mounted_comp s acts :
  mounted (performAll s acts) = true ->
  comp (performAll s acts) = commit (comp s) acts /\ mounted s = true.
Proof.
  revert s. induction acts as [|a acts IH]; intros s; [auto|].
  rewrite performAll_cons. intros H.
  destruct (IH _ H) as [-> Hm].
  destruct (mounted s) eqn:E.
  - split; [|done]. unfold commit. simpl. f_equal.
    destruct a; simpl; by rewrite E.
  - by rewrite perform_mounted_false in Hm.
Qed.

(** * The countdown invariant *)

Lemma NoTimeLeft_fetchQuizAttempt aid uid : NoTimeLeft (fetchQuizAttempt aid uid).
Proof.
  unfold fetchQuizAttempt, fetchFailed.
  constructor; [constructor|]. intros [attemptData|e].
  - constructor; [repeat constructor|]. intros [quizData|e];
      constructor; repeat constructor.
  - constructor. repeat constructor.
Qed.

Lemma NoTimeLeft_trackQuestions aid st finalScore qs :
  NoTimeLeft (trackQuestions aid st finalScore qs).
Proof.
  induction qs as [|q qs IH]; simpl.
  - constructor. repeat constructor.
  - constructor; [constructor|]. intros [|]; [exact IH|].
    constructor. repeat constructor.
Qed.

Lemma NoTimeLeft_handleSubmitQuiz aid st : NoTimeLeft (handleSubmitQuiz aid st).
Proof.
  unfold handleSubmitQuiz. destruct (isSubmitting st).
  - constructor. constructor.
  - constructor; [repeat constructor|]. intros [e|].
    + constructor. repeat constructor.
    + apply NoTimeLeft_trackQuestions.
Qed.

(** A step that leaves the countdown, the count of timer submits and the
    tameness of the suspended functions alone, and at most leaves the
    page, keeps the invariant. *)
Lemma CountdownInv_quiet s s' :
  CountdownInv s ->
  timeLeft (comp s') = timeLeft (comp s) ->
  (timer s' = timer s /\ mounted s' = mounted s)
  \/ (timer s' = None /\ mounted s' = false) ->
  countEvents isTimerSubmit (log s') = countEvents isTimerSubmit (log s) ->
  Forall NoTimeLeft (pending s') ->
  CountdownInv s'.
Proof.
  intros [Hn Ha Hi Hs Hp] Ht Hm Hc Hp'. constructor.
  - by rewrite Ht.
  - intros c Hc'. rewrite Ht. destruct Hm as [[Htm Hmm]|[Htm _]].
    + rewrite Htm in Hc'. rewrite Hmm. by apply Ha.
    + congruence.
  - intros Hnone. rewrite Ht. destruct Hm as [[Htm Hmm]|[_ Hmm]].
    + rewrite Hmm. apply Hi. congruence.
    + by left.
  - by rewrite Hc, Ht.
  - done.
Qed.

Lemma performAll_inv s acts :
  CountdownInv s ->
  Forall (fun a => isSetTimeLeft a = false) acts ->
  CountdownInv (performAll s acts).
Proof.
  intros Hinv Hacts. apply (CountdownInv_quiet s); [done|..].
  - by apply performAll_timeLeft.
  - apply performAll_timer.
  - rewrite performAll_log, countEvents_app, countEvents_Did by done. lia.
  - rewrite performAll_pending. apply Hinv.
Qed.

Lemma record_inv s e :
  CountdownInv s -> isTimerSubmit e = false -> CountdownInv (record s e).
Proof.
  intros Hinv He. apply (CountdownInv_quiet s); [done|done|by left| |apply Hinv].
  simpl. rewrite countEvents_app. unfold countEvents at 2. simpl.
  rewrite filter_cons_False, filter_nil by (rewrite He; discriminate).
  simpl. lia.
Qed.

Lemma suspend_inv s a :
  CountdownInv s -> NoTimeLeft a -> CountdownInv (suspend s a).
Proof.
  intros Hinv Ha. apply (CountdownInv_quiet s); [done|done|by left|done|].
  simpl. apply Forall_app. split; [apply Hinv|]. by constructor.
Qed.

Lemma launch_inv b s a :
  CountdownInv s -> NoTimeLeft a -> CountdownInv (launch b s a).
Proof.
  intros Hinv Ha. destruct Ha as [acts Hacts|acts A req k Hacts Hk]; simpl.
  - by apply performAll_inv.
  - apply suspend_inv; [|apply Hk].
    apply record_inv; [|done]. by apply performAll_inv.
Qed.

Lemma invokeSubmit_ByClick_inv b s :
  CountdownInv s -> CountdownInv (invokeSubmit b ByClick s).
Proof.
  intros Hinv. unfold invokeSubmit. apply launch_inv.
  - by apply record_inv.
  - apply NoTimeLeft_handleSubmitQuiz.
Qed.

(** A tick with more than one second left: the countdown goes down by one
    and the next timeout is armed; nothing else happens. *)
Lemma tick_counting b s c :
  mounted s = true -> timer s = Some c -> timeLeft (comp s) = c -> 1 < c ->
  tick b s
  = mkSession (attemptId s) (user s) (commit1 (comp s) (SetTimeLeft (c - 1)))
      (Some (c - 1)) (pending s) true (log s ++ [Did (SetTimeLeft (c - 1))]).
Proof.
  intros Hm Ht Hc Hgt. unfold tick. rewrite Ht, Hc.
  rewrite bool_decide_eq_false_2 by lia.
  unfold runTimerEffect, perform, setTimer. simpl. rewrite Hm.
  unfold timerEffect. simpl. rewrite bool_decide_eq_true_2 by lia. done.
Qed.

(** The tick from one to zero: the effect of the render with [timeLeft = 0]
    calls [handleSubmitQuiz] of that render, once, and arms no timeout. *)
Lemma tick_last b s :
  mounted s = true -> timer s = Some 1 -> timeLeft (comp s) = 1 ->
  tick b s
  = invokeSubmit b ByTimer
      (mkSession (attemptId s) (user s) (commit1 (comp s) (SetTimeLeft 0))
         None (pending s) true (log s ++ [Did (SetTimeLeft 0)])).
Proof.
  intros Hm Ht Hc. unfold tick. rewrite Ht, Hc. simpl.
  unfold runTimerEffect, perform, setTimer. simpl. rewrite Hm.
  unfold timerEffect. simpl. done.
Qed.

(** Without a pending timeout a tick is nothing. *)
Lemma tick_idle b s : timer s = None -> tick b s = s.
Proof. intros H. unfold tick. by rewrite H. Qed.

Lemma countEvents_snoc p tr e :
  countEvents p (tr ++ [e]) = (countEvents p tr + if p e then 1 else 0)%nat.
Proof.
  rewrite countEvents_app. f_equal. unfold countEvents.
  destruct (p e) eqn:E.
  - by rewrite filter_cons_True.
  - rewrite filter_cons_False; [done|]. rewrite E. discriminate.
Qed.

Lemma tick_inv b s : CountdownInv s -> CountdownInv (tick b s).
Proof.
  intros Hinv. destruct (timer s) as [c|] eqn:Ht; [|by rewrite tick_idle].
  destruct (inv_armed s Hinv c Ht) as (Hc & Hpos & Hm).
  destruct (decide (c = 1)) as [->|Hne].
  - rewrite tick_last by done. unfold invokeSubmit.
    apply launch_inv; [|apply NoTimeLeft_handleSubmitQuiz].
    constructor; simpl.
    + lia.
    + discriminate.
    + by right.
    + rewrite !countEvents_snoc, (inv_submits s Hinv), <- Hc. simpl. done.
    + apply Hinv.
  - rewrite (tick_counting b s c) by (done || lia). constructor; simpl.
    + lia.
    + intros c' [= <-]. repeat split; lia.
    + discriminate.
    + rewrite countEvents_snoc, (inv_submits s Hinv), <- Hc. simpl.
      rewrite !bool_decide_eq_false_2 by lia. done.
    + apply Hinv.
Qed.

Lemma setPending_inv s p :
  CountdownInv s -> Forall NoTimeLeft p -> CountdownInv (setPending s p).
Proof. intros Hinv Hp. by apply (CountdownInv_quiet s); [|done|left|done|]. Qed.

(** Every turn of the event loop keeps the invariant. *)
Lemma step_inv b s i : CountdownInv s -> CountdownInv (step b s i).
Proof.
  intros Hinv.
  assert (CountdownInv (perform s (Navigate "/quizzes"))) as Hnav.
  { change (CountdownInv (performAll s [Navigate "/quizzes"])).
    apply performAll_inv; [done|]. repeat constructor. }
  destruct i; cbv beta iota delta [step]; try by apply tick_inv.
  - destruct (pending s !! n) as [a|] eqn:Ha; [|done].
    apply launch_inv.
    + apply setPending_inv; [done|]. apply Forall_delete, Hinv.
    + eapply Forall_lookup_1; [apply Hinv|done].
  - destruct (mounted s); [|done].
    destruct (render (comp s)) as [| |[q|]]; try done.
    apply performAll_inv; [done|]. repeat constructor.
  - destruct (mounted s); [|done].
    destruct (render (comp s)) as [| |[q|]]; try done.
    all: case_bool_decide; [done|].
    all: apply performAll_inv; [done|]; unfold handleNextQuestion.
    all: case_bool_decide; repeat constructor.
  - destruct (mounted s); [|done].
    destruct (render (comp s)) as [| |[q|]]; try done.
    all: case_bool_decide; [done|].
    all: apply performAll_inv; [done|]; unfold handlePreviousQuestion.
    all: case_bool_decide; repeat constructor.
  - destruct (mounted s); [|done].
    destruct (render (comp s)) as [| |[q|]]; try done.
    all: destruct (_ && _); [|done]; by apply invokeSubmit_ByClick_inv.
  - destruct (mounted s); [|done].
    destruct (render (comp s)) as [| |[q|]]; done.
  - destruct (mounted s); [|done].
    destruct (render (comp s)) as [| |[q|]]; try done.
    all: by destruct confirmed.
Qed.

Lemma steps_cons b s i ins : steps b s (i :: ins) = steps b (step b s i) ins.
Proof. reflexivity. Qed.

Lemma steps_inv b ins : forall s, CountdownInv s -> CountdownInv (steps b s ins).
Proof.
  induction ins as [|i ins IH]; intros s Hinv; [done|].
  apply IH. by apply step_inv.
Qed.

(** The mount with both parameters present: the first query is on its
    way, the first timeout is armed, the spinner is shown. *)
Lemma mount_loading b aid uid :
  truthyString aid = true ->
  mount b aid (Some uid)
  = mkSession aid (Some uid) initialState (Some 1800)
      [match select_attempt (db b) aid uid with
       | Err _ => Return fetchFailed
       | Ok attemptData =>
           Await [SetAttempt attemptData]
             (SelectQuiz (QuizAttempt.quiz_id attemptData)) (fun r' =>
               match r' with
               | Err _ => Return fetchFailed
               | Ok quizData =>
                   Return [SetQuiz quizData;
                           SetQuestions (loadedQuestions quizData);
                           SetLoading false]
               end)
       end]
      true [Called (SelectAttempt aid uid)].
Proof. intros H. unfold mount. rewrite H. reflexivity. Qed.

(** The mount without an attempt id or without a user: the page is left at
    once, no query is made and no timeout stays armed. *)
Lemma mount_missing b aid uid :
  truthyString aid = false \/ uid = None ->
  mount b aid uid
  = mkSession aid uid initialState None [] false [Did (Navigate "/quizzes")].
Proof.
  intros [H| ->]; unfold mount; [|reflexivity].
  destruct uid; [|reflexivity]. rewrite H. reflexivity.
Qed.

Lemma mount_inv b aid uid : CountdownInv (mount b aid uid).
Proof.
  destruct uid as [uid|]; [destruct (truthyString aid) eqn:E|].
  - rewrite mount_loading by done. constructor; simpl; try done.
    + intros c [= <-]. done.
    + constructor; [|constructor].
      destruct (select_attempt _ _ _) as [attemptData|e].
      * constructor; [repeat constructor|]. intros [quizData|e];
          constructor; repeat constructor.
      * constructor. repeat constructor.
  - rewrite mount_missing by auto. constructor; simpl; try done. by left.
  - rewrite mount_missing by auto. constructor; simpl; try done. by left.
Qed.

(** In every session that the event loop can reach from a mount, the timer
    effect has called [handleSubmitQuiz] exactly once if the countdown is
    at zero, and not at all otherwise. *)
Lemma reachable_timer_submits b aid uid ins :
  let s := steps b (mount b aid uid) ins in
  countEvents isTimerSubmit (log s)
  = if bool_decide (timeLeft (comp s) = 0) then 1%nat else 0%nat.
Proof. apply inv_submits, steps_inv, mount_inv. Qed.

(** * Submission *)

(** [handleSubmitQuiz] in a render that has [isSubmitting] set returns at
    its first line. *)
Lemma handleSubmitQuiz_busy aid st :
  isSubmitting st = true -> handleSubmitQuiz aid st = Return [].
Proof. intros H. unfold handleSubmitQuiz. by rewrite H. Qed.

Lemma handleSubmitQuiz_idle aid st :
  isSubmitting st = false ->
  handleSubmitQuiz aid st
  = Await [SetIsSubmitting true]
      (UpdateAttempt aid (calculateScore st) (selectedAnswers st))
      (afterUpdate aid st).
Proof. intros H. unfold handleSubmitQuiz. by rewrite H. Qed.

Lemma invokeSubmit_busy b who s :
  isSubmitting (comp s) = true -> invokeSubmit b who s = record s (Invoked who).
Proof. intros H. unfold invokeSubmit. by rewrite handleSubmitQuiz_busy. Qed.

Lemma invokeSubmit_idle b who s :
  mounted s = true -> isSubmitting (comp s) = false ->
  invokeSubmit b who s
  = mkSession (attemptId s) (user s) (commit1 (comp s) (SetIsSubmitting true))
      (timer s)
      (pending s
       ++ [afterUpdate (attemptId s) (comp s)
             (update_outcome b (attemptId s) (calculateScore (comp s))
                (selectedAnswers (comp s)))])
      true
      (log s
       ++ [Invoked who; Did (SetIsSubmitting true);
           Called (UpdateAttempt (attemptId s) (calculateScore (comp s))
                     (selectedAnswers (comp s)))]).
Proof.
  intros Hm Hs. unfold invokeSubmit. rewrite handleSubmitQuiz_idle by done.
  unfold launch, suspend, record, performAll, perform. simpl. rewrite Hm.
  by rewrite <- !app_assoc.
Qed.

Lemma NoUpdate_trackQuestions aid st finalScore qs :
  NoUpdate (trackQuestions aid st finalScore qs).
Proof.
  induction qs as [|q qs IH]; simpl; [constructor|].
  constructor; [done|]. intros [|]; [exact IH|constructor].
Qed.

Lemma NoUpdate_afterUpdate aid st e : NoUpdate (afterUpdate aid st e).
Proof. destruct e; [constructor|apply NoUpdate_trackQuestions]. Qed.

Lemma NoUpdate_fetchQuizAttempt_resumed b aid uid :
  NoUpdate (match select_attempt (db b) aid uid with
            | Err _ => Return fetchFailed
            | Ok attemptData =>
                Await [SetAttempt attemptData]
                  (SelectQuiz (QuizAttempt.quiz_id attemptData)) (fun r' =>
                    match r' with
                    | Err _ => Return fetchFailed
                    | Ok quizData =>
                        Return [SetQuiz quizData;
                                SetQuestions (loadedQuestions quizData);
                                SetLoading false]
                    end)
            end).
Proof.
  destruct (select_attempt _ _ _); [|constructor].
  constructor; [done|]. intros [?|?]; constructor.
Qed.

(** Run to its end, an [async] function without update call leaves none
    in the trace. *)
Lemma run_NoUpdate b a : NoUpdate a -> countEvents isUpdate (run b a) = 0%nat.
Proof.
  induction 1 as [acts|acts A req k Hreq _ IH]; simpl.
  - by apply countEvents_Did.
  - rewrite countEvents_app, countEvents_Did by done.
    change (Called req :: run b (k (answer b req)))
      with ([Called req] ++ run b (k (answer b req))).
    rewrite countEvents_app, IH.
    change [Called req] with ([] ++ [Called req]).
    rewrite countEvents_snoc. simpl. by rewrite Hreq.
Qed.

(** One invocation, run to its end: one update call, unless it found
    [isSubmitting] set. *)
Lemma run_handleSubmitQuiz_updates b aid st :
  countEvents isUpdate (run b (handleSubmitQuiz aid st))
  = if isSubmitting st then 0%nat else 1%nat.
Proof.
  destruct (isSubmitting st) eqn:E.
  - by rewrite handleSubmitQuiz_busy.
  - rewrite handleSubmitQuiz_idle by done. simpl.
    change (Did (SetIsSubmitting true) :: Called (UpdateAttempt aid (calculateScore st) (selectedAnswers st)) :: ?r)
      with ([Did (SetIsSubmitting true); Called (UpdateAttempt aid (calculateScore st) (selectedAnswers st))] ++ r).
    rewrite countEvents_app, run_NoUpdate by apply NoUpdate_afterUpdate.
    reflexivity.
Qed.

Lemma launch_NoUpdate b s a :
  NoUpdate a -> Forall NoUpdate (pending s) ->
  countEvents isUpdate (log (launch b s a)) = countEvents isUpdate (log s)
  /\ Forall NoUpdate (pending (launch b s a)).
Proof.
  intros Ha Hp. destruct Ha as [acts|acts A req k Hreq Hk]; simpl.
  - rewrite performAll_log, performAll_pending, countEvents_app,
      countEvents_Did by done. split; [lia|done].
  - rewrite countEvents_snoc, performAll_log, performAll_pending,
      countEvents_app, countEvents_Did by done. simpl. rewrite Hreq.
    split; [lia|]. apply Forall_app. split; [done|]. by constructor.
Qed.

(** While only replies arrive, suspended functions without update call
    add none to the log. *)
Lemma replies_NoUpdate b ns : forall s,
  Forall NoUpdate (pending s) ->
  countEvents isUpdate (log (steps b s (Reply <$> ns)))
  = countEvents isUpdate (log s).
Proof.
  induction ns as [|n ns IH]; intros s Hp; [done|].
  rewrite fmap_cons, steps_cons. cbv beta iota delta [step].
  destruct (pending s !! n) as [a|] eqn:Ha; [|by apply IH].
  destruct (launch_NoUpdate b (setPending s (delete n (pending s))) a)
    as [Hlog Hp'].
  - eapply Forall_lookup_1; done.
  - by apply Forall_delete.
  - rewrite IH by done. exact Hlog.
Qed.

Lemma invokeSubmit_pending_NoUpdate b who s :
  Forall NoUpdate (pending s) -> Forall NoUpdate (pending (invokeSubmit b who s)).
Proof.
  intros Hp. destruct (isSubmitting (comp s)) eqn:E.
  - by rewrite invokeSubmit_busy.
  - unfold invokeSubmit. rewrite handleSubmitQuiz_idle by done.
    unfold launch, suspend, record. cbn [pending].
    rewrite performAll_pending. cbn [pending].
    apply Forall_app. split; [done|].
    constructor; [|constructor]. apply NoUpdate_afterUpdate.
Qed.

Lemma step_pending_NoUpdate b s i :
  Forall NoUpdate (pending s) -> Forall NoUpdate (pending (step b s i)).
Proof.
  intros Hp.
  assert (forall a, Forall NoUpdate (pending (perform s a))) as Hperf
    by (intros a; by rewrite perform_pending).
  assert (forall acts, Forall NoUpdate (pending (performAll s acts))) as Hall
    by (intros acts; by rewrite performAll_pending).
  destruct i; cbv beta iota delta [step].
  - unfold tick. destruct (timer s) as [c|]; [|done].
    assert (Forall NoUpdate
              (pending (perform (setTimer s None) (SetTimeLeft (c - 1))))) as H
      by by rewrite perform_pending.
    case_bool_decide; [done|].
    unfold runTimerEffect. destruct (mounted _); [|done].
    destruct (timerEffect _); [done|].
    by apply invokeSubmit_pending_NoUpdate.
  - destruct (pending s !! n) as [a|] eqn:Ha; [|done].
    apply launch_NoUpdate; [by eapply Forall_lookup_1|by apply Forall_delete].
  - destruct (mounted s); [|done].
    destruct (render (comp s)) as [| |[q|]]; done.
  - destruct (mounted s); [|done].
    destruct (render (comp s)) as [| |[q|]]; try done.
    all: by case_bool_decide.
  - destruct (mounted s); [|done].
    destruct (render (comp s)) as [| |[q|]]; try done.
    all: by case_bool_decide.
  - destruct (mounted s); [|done].
    destruct (render (comp s)) as [| |[q|]]; try done.
    all: destruct (_ && _); [|done]; by apply invokeSubmit_pending_NoUpdate.
  - destruct (mounted s); [|done].
    destruct (render (comp s)) as [| |[q|]]; done.
  - destruct (mounted s); [|done].
    destruct (render (comp s)) as [| |[q|]]; try done.
    all: by destruct confirmed.
Qed.

(** In every session reached from a mount, no suspended function will
    make an update call: the update is the first thing a submission
    awaits. *)
Lemma reachable_pending_NoUpdate b aid uid ins :
  Forall NoUpdate (pending (steps b (mount b aid uid) ins)).
Proof.
  assert (Forall NoUpdate (pending (mount b aid uid))) as H0.
  { destruct uid as [uid|]; [destruct (truthyString aid) eqn:E|].
    - rewrite mount_loading by done. simpl. constructor; [|constructor].
      apply NoUpdate_fetchQuizAttempt_resumed.
    - rewrite mount_missing by auto. constructor.
    - rewrite mount_missing by auto. constructor. }
  revert H0. generalize (mount b aid uid).
  induction ins as [|i ins IH]; intros s Hs; [done|].
  rewrite steps_cons. by apply IH, step_pending_NoUpdate.
Qed.

(** C2 as stated does not hold: a submission runs more than once in a
    session.  A submission that fails clears the flag in its [finally]
    block and leaves the user on the page with the Submit button enabled
    again: a second click runs the submission again.  One session, two
    update calls. *)
Lemma resubmit_after_failure_updates_twice :
  let s := steps failingBackend (readySession dailyQuiz threeOfFour 3 1800)
             [ClickSubmit; Reply 0; ClickSubmit] in
  mounted s = true
  /\ countEvents isUpdate (log s) = 2%nat
  /\ log s
     = [Invoked ByClick; Did (SetIsSubmitting true);
        Called (UpdateAttempt (Some "attempt-1") 75 threeOfFour);
        Did (ConsoleError "Error submitting quiz:");
        Did (Toast (ToastError "Failed to submit quiz"));
        Did (SetIsSubmitting false);
        Invoked ByClick; Did (SetIsSubmitting true);
        Called (UpdateAttempt (Some "attempt-1") 75 threeOfFour)].
Proof. cbv zeta. split; [|split]; vm_compute; reflexivity. Qed.

(** C2, amended.  [handleSubmitQuiz] is guarded against running again
    while a submission is in progress.  When it is invoked a second time
    while the first submission is still in progress (the render that the
    second invocation belongs to has [isSubmitting] set by the first), the
    second invocation returns at once: it calls no setter and makes no call
    to the outside.  The update of the attempt is then made exactly once:
    by the first invocation, and by nothing that follows while the replies
    to it arrive.  The guard lasts as long as the submission: its
    [finally] block clears the flag. *)
Theorem submit_twice_updates_once (b : Backend) (s : Session) (who who' : Caller) :
  mounted s = true ->
  isSubmitting (comp s) = false ->
  Forall NoUpdate (pending s) ->
  let s1 := invokeSubmit b who s in
  let s2 := invokeSubmit b who' s1 in
  isSubmitting (comp s1) = true
  /\ handleSubmitQuiz (attemptId s1) (comp s1) = Return []
  /\ s2 = record s1 (Invoked who')
  /\ countEvents isUpdate (log s2) = S (countEvents isUpdate (log s))
  /\ (forall ns, countEvents isUpdate (log (steps b s2 (Reply <$> ns)))
                 = S (countEvents isUpdate (log s)))
  /\ countEvents isUpdate (run b (handleSubmitQuiz (attemptId s) (comp s))) = 1%nat
  /\ countEvents isUpdate (run b (handleSubmitQuiz (attemptId s1) (comp s1))) = 0%nat.
Proof.
  intros Hm Hs Hp s1 s2.
  assert (isSubmitting (comp s1) = true) as Hs1.
  { unfold s1. by rewrite invokeSubmit_idle. }
  assert (s2 = record s1 (Invoked who')) as Hs2.
  { unfold s2. by apply invokeSubmit_busy. }
  assert (countEvents isUpdate (log s2) = S (countEvents isUpdate (log s))) as Hc.
  { rewrite Hs2. unfold s1. rewrite invokeSubmit_idle by done. simpl.
    rewrite !countEvents_app. simpl. unfold countEvents at 2 3. simpl. lia. }
  repeat split; try done.
  - by apply handleSubmitQuiz_busy.
  - intros ns. rewrite replies_NoUpdate; [done|].
    rewrite Hs2. unfold s1. rewrite invokeSubmit_idle by done. simpl.
    apply Forall_app. split; [done|]. constructor; [|constructor].
    apply NoUpdate_afterUpdate.
  - by rewrite run_handleSubmitQuiz_updates, Hs.
  - by rewrite run_handleSubmitQuiz_updates, Hs1.
Qed.

Lemma submit_twice_updates_once_witness :
  let s := readySession dailyQuiz threeOfFour 3 1800 in
  let s2 := invokeSubmit sampleBackend ByTimer (invokeSubmit sampleBackend ByClick s) in
  mounted s = true
  /\ isSubmitting (comp s) = false
  /\ Forall NoUpdate (pending s)
  /\ countEvents isUpdate (log s2) = S (countEvents isUpdate (log s)).
Proof.
  split; [reflexivity|]. split; [reflexivity|].
  split; [apply Forall_nil_2|].
  apply (submit_twice_updates_once sampleBackend
           (readySession dailyQuiz threeOfFour 3 1800) ByClick ByTimer);
    [reflexivity|reflexivity|apply Forall_nil_2].
Defined.

(** The log of the witness: the click, the flag, the one update with the
    score 75, and the invocation by the timer that did nothing. *)
Example submit_twice_log :
  log (invokeSubmit sampleBackend ByTimer
         (invokeSubmit sampleBackend ByClick
            (readySession dailyQuiz threeOfFour 3 1800)))
  = [Invoked ByClick; Did (SetIsSubmitting true);
     Called (UpdateAttempt (Some "attempt-1") 75 threeOfFour);
     Invoked ByTimer].
Proof. vm_compute. reflexivity. Qed.

(** * The countdown *)

Lemma phase_SetTimeLeft st x : phase (commit1 st (SetTimeLeft x)) = phase st.
Proof. reflexivity. Qed.

Lemma phase_Ready_idle st : phase st = Ready -> isSubmitting st = false.
Proof.
  unfold phase. destruct (render st); try discriminate.
  by destruct (isSubmitting st).
Qed.

Lemma ticks_idle b k : forall s,
  timer s = None -> steps b s (replicate k Tick) = s.
Proof.
  induction k as [|k IH]; intros s H; [done|].
  cbn [replicate]. rewrite steps_cons.
  change (step b s Tick) with (tick b s). rewrite tick_idle by done. by apply IH.
Qed.

Lemma commit1_SetTimeLeft_same st :
  commit1 st (SetTimeLeft (timeLeft st)) = st.
Proof. by destruct st. Qed.

(** The countdown in any phase.  With the timeout of the current render
    pending and [t > 0] seconds left, [k] ticks leave [t - k] seconds, or
    none from the [t]-th tick on.  Before the [t]-th tick nothing but
    [timeLeft] changes and nobody invokes [handleSubmitQuiz]; the [t]-th
    tick makes the timer effect invoke it, once, and later ticks find no
    timeout to fire. *)
Lemma ticks_countdown b k : forall s t,
  mounted s = true ->
  timer s = Some t ->
  timeLeft (comp s) = t ->
  0 < t ->
  let s' := steps b s (replicate k Tick) in
  timeLeft (comp s') = Z.max 0 (t - Z.of_nat k)
  /\ countEvents isInvoked (log s')
     = (countEvents isInvoked (log s)
        + if bool_decide (t <= Z.of_nat k)%Z then 1 else 0)%nat
  /\ (Z.of_nat k < t ->
      comp s' = commit1 (comp s) (SetTimeLeft (t - Z.of_nat k))
      /\ timer s' = Some (t - Z.of_nat k) /\ mounted s' = true)
  /\ (t <= Z.of_nat k -> isSubmitting (comp s) = false ->
      comp s' = commit1 (commit1 (comp s) (SetTimeLeft 0)) (SetIsSubmitting true)
      /\ exists tr,
        log s'
        = log s ++ tr
          ++ [Invoked ByTimer; Did (SetIsSubmitting true);
              Called (UpdateAttempt (attemptId s) (calculateScore (comp s))
                        (selectedAnswers (comp s)))]).
Proof.
  induction k as [|k IH]; intros s t Hm Htimer Ht Hpos; cbn [replicate].
  - cbn zeta. rewrite bool_decide_eq_false_2 by lia.
    change (steps b s []) with s. repeat split; try lia; try done.
    + replace (t - Z.of_nat 0) with (timeLeft (comp s)) by lia.
      by rewrite commit1_SetTimeLeft_same.
    + rewrite Htimer. f_equal. lia.
  - cbn zeta. rewrite steps_cons. change (step b s Tick) with (tick b s).
    destruct (decide (t = 1)) as [->|Hne].
    + rewrite tick_last by done.
      rewrite bool_decide_eq_true_2 by lia.
      destruct (isSubmitting (comp s)) eqn:Hs.
      * rewrite invokeSubmit_busy by done.
        rewrite ticks_idle by done. simpl.
        repeat split; try lia; try done.
        rewrite !countEvents_snoc. simpl. lia.
      * rewrite invokeSubmit_idle by done.
        rewrite ticks_idle by done. simpl.
        repeat split; try lia.
        -- rewrite !countEvents_app. unfold countEvents at 2 3. simpl. lia.
        -- exists [Did (SetTimeLeft 0)]. by rewrite <- app_assoc.
    + rewrite (tick_counting b s t) by (done || lia).
      edestruct (IH (mkSession (attemptId s) (user s)
                       (commit1 (comp s) (SetTimeLeft (t - 1))) (Some (t - 1))
                       (pending s) true (log s ++ [Did (SetTimeLeft (t - 1))]))
                    (t - 1)) as (H1 & H2 & H3 & H4); try done; try lia.
      split; [|split; [|split]].
      * rewrite H1. lia.
      * rewrite H2. simpl. rewrite countEvents_snoc. simpl.
        destruct (decide (t - 1 <= Z.of_nat k)).
        -- rewrite !bool_decide_eq_true_2 by lia. lia.
        -- rewrite !bool_decide_eq_false_2 by lia. lia.
      * intros Hk. destruct H3 as (-> & -> & ->); [lia|].
        replace (t - Z.of_nat (S k)) with (t - 1 - Z.of_nat k) by lia.
        done.
      * intros Hk Hs. destruct H4 as (Hcomp & tr & Htr); [lia|done|].
        split; [by rewrite Hcomp|].
        exists (Did (SetTimeLeft (t - 1)) :: tr).
        rewrite Htr. simpl. by rewrite <- app_assoc.
Qed.

(** C3.  In [Ready], with the timeout of the current render pending and
    [t > 0] seconds left, every tick takes one second off the countdown.
    After [k] ticks the countdown stands at [t - k], or at zero from the
    [t]-th tick on; [handleSubmitQuiz] has not been invoked while fewer than
    [t] ticks have passed (and the session is still in [Ready]), and it has
    been invoked exactly once from the [t]-th tick on, however many ticks
    follow. *)
Theorem countdown_submits_once_at_zero (b : Backend) (k : nat) :
  forall (s : Session) (t : Z),
  mounted s = true ->
  phase (comp s) = Ready ->
  timer s = Some t ->
  timeLeft (comp s) = t ->
  0 < t ->
  let s' := steps b s (replicate k Tick) in
  timeLeft (comp s') = Z.max 0 (t - Z.of_nat k)
  /\ countEvents isInvoked (log s')
     = (countEvents isInvoked (log s)
        + if bool_decide (t <= Z.of_nat k)%Z then 1 else 0)%nat
  /\ (Z.of_nat k < t -> phase (comp s') = Ready).
Proof.
  intros s t Hm Hph Htimer Ht Hpos.
  destruct (ticks_countdown b k s t Hm Htimer Ht Hpos) as (H1 & H2 & H3 & _).
  repeat split; [done|done|].
  intros Hk. destruct (H3 Hk) as (-> & _). by rewrite phase_SetTimeLeft.
Qed.

Lemma countdown_submits_once_at_zero_witness :
  let s := readySession dailyQuiz threeOfFour 0 3 in
  let s' := steps sampleBackend s (replicate 5 Tick) in
  mounted s = true
  /\ phase (comp s) = Ready
  /\ timer s = Some 3
  /\ timeLeft (comp s) = 3
  /\ 0 < 3
  /\ timeLeft (comp s') = Z.max 0 (3 - Z.of_nat 5)
  /\ countEvents isInvoked (log s')
     = (countEvents isInvoked (log s)
        + if bool_decide (3 <= Z.of_nat 5)%Z then 1 else 0)%nat
  /\ (Z.of_nat 5 < 3 -> phase (comp s') = Ready).
Proof.
  do 5 (split; [reflexivity|]).
  apply (countdown_submits_once_at_zero sampleBackend 5
           (readySession dailyQuiz threeOfFour 0 3) 3); reflexivity.
Defined.

(** Three seconds left and five ticks: three decrements, then the one
    submission, with the score of the selections made so far. *)
Example countdown_log :
  log (steps sampleBackend (readySession dailyQuiz threeOfFour 0 3)
         (replicate 5 Tick))
  = [Did (SetTimeLeft 2); Did (SetTimeLeft 1); Did (SetTimeLeft 0);
     Invoked ByTimer; Did (SetIsSubmitting true);
     Called (UpdateAttempt (Some "attempt-1") 75 threeOfFour)].
Proof. vm_compute. reflexivity. Qed.

Lemma calculateScore_no_questions st : questions st = [] -> calculateScore st = 0.
Proof. intros H. unfold calculateScore. by rewrite H. Qed.

Lemma truthyString_Some v : v <> "" -> truthyString (Some v) = true.
Proof. intros H. simpl. by rewrite bool_decide_eq_false_2. Qed.

(** C10.  The countdown does not look at the phase of the session.
    - At mount the component shows the spinner ([Loading]), has 1800
      seconds left and the first timeout pending.
    - In any mounted session with the timeout of the current render
      pending and [t > 0] seconds left, whatever its phase, [k] ticks leave
      [t - k] seconds (none from the [t]-th tick on) and, before the [t]-th
      tick, leave the phase as it is: seconds pass in [Loading] as they do
      in [Ready].
    - From the [t]-th tick on the timer effect has invoked
      [handleSubmitQuiz] once; unless a submission is in progress this
      invocation makes the update call with the score computed from the
      state it finds, which is 0 for a state without questions.
    - In particular, when no answer to the load ever arrives, 1800 ticks
      after the mount the handler is invoked with no quiz loaded and
      writes the score 0 with no answers. *)
Theorem countdown_runs_in_every_phase (b : Backend) (aid uid : string)
    (s : Session) (t : Z) (k : nat) :
  aid <> "" ->
  mounted s = true ->
  timer s = Some t ->
  timeLeft (comp s) = t ->
  0 < t ->
  let s0 := mount b (Some aid) (Some uid) in
  let s0' := steps b s0 (replicate (Z.to_nat 1800) Tick) in
  let s' := steps b s (replicate k Tick) in
  (phase (comp s0) = Loading /\ timeLeft (comp s0) = 1800
   /\ timer s0 = Some 1800 /\ mounted s0 = true)
  /\ timeLeft (comp s') = Z.max 0 (t - Z.of_nat k)
  /\ (Z.of_nat k < t -> phase (comp s') = phase (comp s))
  /\ countEvents isInvoked (log s')
     = (countEvents isInvoked (log s)
        + if bool_decide (t <= Z.of_nat k)%Z then 1 else 0)%nat
  /\ (t <= Z.of_nat k -> isSubmitting (comp s) = false ->
      exists tr,
        log s'
        = log s ++ tr
          ++ [Invoked ByTimer; Did (SetIsSubmitting true);
              Called (UpdateAttempt (attemptId s) (calculateScore (comp s))
                        (selectedAnswers (comp s)))])
  /\ (questions (comp s) = [] -> calculateScore (comp s) = 0)
  /\ (quiz (comp s0') = None
      /\ exists tr,
           log s0'
           = log s0 ++ tr
             ++ [Invoked ByTimer; Did (SetIsSubmitting true);
                 Called (UpdateAttempt (Some aid) 0 ∅)]).
Proof.
  intros Haid Hm Htimer Ht Hpos s0 s0' s'.
  destruct (ticks_countdown b k s t Hm Htimer Ht Hpos) as (H1 & H2 & H3 & H4).
  assert (truthyString (Some aid) = true) as Htruthy
    by by apply truthyString_Some.
  split; [|split; [|split; [|split; [|split; [|split]]]]]; try done.
  - unfold s0. by rewrite mount_loading.
  - intros Hk. unfold s'. destruct (H3 Hk) as (-> & _).
    by rewrite phase_SetTimeLeft.
  - intros Hk Hs. by destruct (H4 Hk Hs) as (_ & Htr).
  - apply calculateScore_no_questions.
  - assert (mounted s0 = true) as Hm0 by (unfold s0; by rewrite mount_loading).
    assert (timer s0 = Some 1800) as Htimer0
      by (unfold s0; by rewrite mount_loading).
    assert (comp s0 = initialState) as Hcomp0
      by (unfold s0; by rewrite mount_loading).
    assert (attemptId s0 = Some aid) as Haid0
      by (unfold s0; by rewrite mount_loading).
    assert (timeLeft (comp s0) = 1800) as Ht0 by by rewrite Hcomp0.
    assert (0 < 1800) as Hpos0 by lia.
    destruct (ticks_countdown b (Z.to_nat 1800) s0 1800 Hm0 Htimer0 Ht0 Hpos0)
      as (_ & _ & _ & H0).
    destruct H0 as (Hcomp & tr & Htr); [lia | by rewrite Hcomp0 |].
    fold s0' in Htr, Hcomp. split.
    + by rewrite Hcomp, Hcomp0.
    + exists tr. by rewrite Htr, Haid0, Hcomp0.
Qed.

Lemma countdown_runs_in_every_phase_witness :
  let s := mount sampleBackend (Some "attempt-1") (Some "student-1") in
  let s' := steps sampleBackend s (replicate 2 Tick) in
  "attempt-1" <> ""
  /\ mounted s = true
  /\ timer s = Some 1800
  /\ timeLeft (comp s) = 1800
  /\ 0 < 1800
  /\ timeLeft (comp s') = Z.max 0 (1800 - Z.of_nat 2)
  /\ (Z.of_nat 2 < 1800 -> phase (comp s') = phase (comp s)).
Proof.
  split; [discriminate|]. do 4 (split; [reflexivity|]).
  destruct (countdown_runs_in_every_phase sampleBackend "attempt-1" "student-1"
              (mount sampleBackend (Some "attempt-1") (Some "student-1"))
              1800 2)
    as (_ & H2 & H3 & _); [discriminate|reflexivity..|].
  split; [exact H2|exact H3].
Defined.

(** * Loading *)

(** Once the page is left with nothing suspended, nothing happens any
    more. *)
Lemma terminated_stays b s i :
  mounted s = false -> timer s = None -> pending s = [] -> step b s i = s.
Proof.
  intros Hm Ht Hp. destruct i; cbv beta iota delta [step]; rewrite ?Hm; try done.
  - by apply tick_idle.
  - by rewrite Hp.
Qed.

(** The load when the first query fails. *)
Lemma load_attempt_failed b aid uid e :
  truthyString aid = true ->
  select_attempt (db b) aid uid = Err e ->
  step b (mount b aid (Some uid)) (Reply 0)
  = mkSession aid (Some uid) initialState None [] false
      [Called (SelectAttempt aid uid);
       Did (ConsoleError "Error fetching quiz:");
       Did (Toast (ToastError "Failed to load quiz"));
       Did (Navigate "/quizzes");
       Did (SetLoading false)].
Proof.
  intros Haid Hsel. rewrite mount_loading by done. rewrite Hsel. reflexivity.
Qed.

(** The load when both queries succeed. *)
Lemma load_succeeded b aid uid att Q :
  truthyString aid = true ->
  select_attempt (db b) aid uid = Ok att ->
  select_quiz (db b) (QuizAttempt.quiz_id att) = Ok Q ->
  steps b (mount b aid (Some uid)) [Reply 0; Reply 0]
  = mkSession aid (Some uid)
      (mkState (Some att) (Some Q) (loadedQuestions Q) 0 ∅ 1800 false false)
      (Some 1800) [] true
      [Called (SelectAttempt aid uid);
       Did (SetAttempt att);
       Called (SelectQuiz (QuizAttempt.quiz_id att));
       Did (SetQuiz Q);
       Did (SetQuestions (loadedQuestions Q));
       Did (SetLoading false)].
Proof.
  intros Haid Hsel Hquiz. rewrite mount_loading by done. rewrite Hsel.
  unfold steps. simpl. rewrite Hquiz. reflexivity.
Qed.

(** No row of the table has both the id and the owner asked for: the
    query answers with the not-found error. *)
Lemma select_attempt_foreign d aid uid :
  (forall row, row ∈ quiz_attempts d ->
     QuizAttempt.id row = aid -> QuizAttempt.student_id row <> uid) ->
  select_attempt d (Some aid) uid = Err NotFoundError.
Proof.
  intros H. unfold select_attempt.
  assert (filter (fun row => Some (QuizAttempt.id row) = Some aid
                             /\ QuizAttempt.student_id row = uid)
                 (quiz_attempts d) = []) as ->; [|done].
  induction (quiz_attempts d) as [|row rows IH]; [done|].
  rewrite filter_cons_False.
  - apply IH. intros row' Hrow'. apply H. by apply list_elem_of_further.
  - intros [[= Hid] Hown]. apply (H row); [apply list_elem_of_here|done..].
Qed.

(** C7.  When no attempt with the requested id belongs to the requesting
    user, the load fails with the not-found error of the first query: no
    second query is made, the attempt, quiz and question state stay as they
    were at mount (absent, absent, empty), the error toast "Failed to load
    quiz" is raised, and the component navigates to the quiz list, which
    ends the session: from then on nothing happens any more. *)
Theorem foreign_attempt_not_loaded (b : Backend) (aid uid : string) :
  aid <> "" ->
  (forall row, row ∈ quiz_attempts (db b) ->
     QuizAttempt.id row = aid -> QuizAttempt.student_id row <> uid) ->
  let s := step b (mount b (Some aid) (Some uid)) (Reply 0) in
  select_attempt (db b) (Some aid) uid = Err NotFoundError
  /\ attempt (comp s) = None /\ quiz (comp s) = None /\ questions (comp s) = []
  /\ log s = [Called (SelectAttempt (Some aid) uid);
              Did (ConsoleError "Error fetching quiz:");
              Did (Toast (ToastError "Failed to load quiz"));
              Did (Navigate "/quizzes");
              Did (SetLoading false)]
  /\ mounted s = false
  /\ (forall ins, steps b s ins = s).
Proof.
  intros Haid Hforeign s.
  pose proof (select_attempt_foreign _ _ _ Hforeign) as Hsel.
  assert (s = mkSession (Some aid) (Some uid) initialState None [] false
                [Called (SelectAttempt (Some aid) uid);
                 Did (ConsoleError "Error fetching quiz:");
                 Did (Toast (ToastError "Failed to load quiz"));
                 Did (Navigate "/quizzes");
                 Did (SetLoading false)]) as ->.
  { unfold s. eapply load_attempt_failed; [by apply truthyString_Some|done]. }
  repeat split; try done.
  induction ins as [|i ins IH]; [done|].
  rewrite steps_cons, terminated_stays by done. exact IH.
Qed.

Lemma foreign_attempt_not_loaded_witness :
  let s := step sampleBackend
             (mount sampleBackend (Some "attempt-1") (Some "student-2"))
             (Reply 0) in
  "attempt-1" <> ""
  /\ (forall row, row ∈ quiz_attempts (db sampleBackend) ->
        QuizAttempt.id row = "attempt-1" ->
        QuizAttempt.student_id row <> "student-2")
  /\ quiz (comp s) = None /\ questions (comp s) = [] /\ mounted s = false.
Proof.
  assert (forall row, row ∈ quiz_attempts (db sampleBackend) ->
            QuizAttempt.id row = "attempt-1" ->
            QuizAttempt.student_id row <> "student-2") as H.
  { intros row Hrow _. simpl in Hrow.
    repeat (apply elem_of_cons in Hrow as [->|Hrow]; [discriminate|]).
    by apply elem_of_nil in Hrow. }
  split; [discriminate|]. split; [exact H|].
  destruct (foreign_attempt_not_loaded sampleBackend "attempt-1" "student-2")
    as (_ & _ & Hq & Hqs & _ & Hm & _); [discriminate|exact H|].
  split; [exact Hq|]. split; [exact Hqs|exact Hm].
Defined.

(** The attempt exists but belongs to another student. *)
Example foreign_attempt_log :
  log (step sampleBackend
         (mount sampleBackend (Some "attempt-1") (Some "student-2")) (Reply 0))
  = [Called (SelectAttempt (Some "attempt-1") "student-2");
     Did (ConsoleError "Error fetching quiz:");
     Did (Toast (ToastError "Failed to load quiz"));
     Did (Navigate "/quizzes");
     Did (SetLoading false)].
Proof. vm_compute. reflexivity. Qed.

(** * Time passing during the load *)

Lemma steps_app b s l1 l2 : steps b s (l1 ++ l2) = steps b (steps b s l1) l2.
Proof. unfold steps. apply foldl_app. Qed.

Lemma ticking_snoc k : forall t,
  ticking t (S k) = ticking t k ++ [Did (SetTimeLeft (t - Z.of_nat (S k)))].
Proof.
  induction k as [|k IH]; intros t.
  - reflexivity.
  - change (ticking t (S (S k)))
      with (Did (SetTimeLeft (t - 1)) :: ticking (t - 1) (S k)).
    rewrite IH.
    replace (t - 1 - Z.of_nat (S k)) with (t - Z.of_nat (S (S k))) by lia.
    reflexivity.
Qed.

Lemma countEvents_ticking p t k :
  (forall x, p (Did (SetTimeLeft x)) = false) ->
  countEvents p (ticking t k) = 0%nat.
Proof.
  intros H. revert t. induction k as [|k IH]; intros t; [done|].
  simpl. unfold countEvents. rewrite filter_cons_False by (rewrite H; discriminate).
  apply IH.
Qed.

(** Fewer ticks than seconds left: nothing but the countdown moves. *)
Lemma ticks_running b k : forall s t,
  mounted s = true -> timer s = Some t -> timeLeft (comp s) = t ->
  Z.of_nat k < t ->
  steps b s (replicate k Tick)
  = mkSession (attemptId s) (user s)
      (commit1 (comp s) (SetTimeLeft (t - Z.of_nat k)))
      (Some (t - Z.of_nat k)) (pending s) true (log s ++ ticking t k).
Proof.
  induction k as [|k IH]; intros s t Hm Htimer Ht Hk.
  - destruct s as [a u st tm p m l].
    cbn [mounted timer comp attemptId user pending log replicate] in *. subst.
    change (Z.of_nat 0) with 0. rewrite Z.sub_0_r.
    by rewrite commit1_SetTimeLeft_same, app_nil_r.
  - cbn [replicate]. rewrite steps_cons. change (step b s Tick) with (tick b s).
    rewrite (tick_counting b s t) by (done || lia).
    rewrite (IH _ (t - 1)) by (done || (simpl; lia)).
    cbn [attemptId user comp pending log].
    rewrite <- app_assoc. cbn [app ticking].
    replace (t - 1 - Z.of_nat k) with (t - Z.of_nat (S k)) by lia. done.
Qed.

(** As many ticks as seconds left: the last one makes the timer effect
    call [handleSubmitQuiz]. *)
Lemma ticks_to_zero b s t :
  mounted s = true -> timer s = Some t -> timeLeft (comp s) = t -> 0 < t ->
  steps b s (replicate (Z.to_nat t) Tick)
  = invokeSubmit b ByTimer
      (mkSession (attemptId s) (user s) (commit1 (comp s) (SetTimeLeft 0))
         None (pending s) true (log s ++ ticking t (Z.to_nat t))).
Proof.
  intros Hm Htimer Ht Hpos.
  destruct (Z.to_nat t) as [|n] eqn:En; [lia|].
  cbn [replicate]. rewrite replicate_cons_app, steps_app, ticking_snoc.
  rewrite (ticks_running b n s t) by (done || lia).
  unfold steps. cbn [foldl]. change (step b ?x Tick) with (tick b x).
  replace (t - Z.of_nat n) with 1 by lia.
  rewrite tick_last by done.
  cbn [attemptId user comp pending log].
  replace (t - Z.of_nat (S n)) with 0 by lia. by rewrite <- app_assoc.
Qed.

(** The load when both queries succeed, [k1] seconds passing before the
    first answer and [k2] before the second: the countdown has gone on
    meanwhile, and the load does not set it back. *)
Lemma slow_load_succeeded b aid uid att Q k1 k2 :
  truthyString aid = true ->
  select_attempt (db b) aid uid = Ok att ->
  select_quiz (db b) (QuizAttempt.quiz_id att) = Ok Q ->
  Z.of_nat k1 + Z.of_nat k2 < 1800 ->
  steps b (mount b aid (Some uid)) (slowLoad k1 k2)
  = mkSession aid (Some uid)
      (mkState (Some att) (Some Q) (loadedQuestions Q) 0 ∅
         (1800 - Z.of_nat k1 - Z.of_nat k2) false false)
      (Some (1800 - Z.of_nat k1 - Z.of_nat k2)) [] true
      ([Called (SelectAttempt aid uid)] ++ ticking 1800 k1
       ++ [Did (SetAttempt att); Called (SelectQuiz (QuizAttempt.quiz_id att))]
       ++ ticking (1800 - Z.of_nat k1) k2
       ++ [Did (SetQuiz Q); Did (SetQuestions (loadedQuestions Q));
           Did (SetLoading false)]).
Proof.
  intros Haid Hsel Hquiz Hk. unfold slowLoad.
  rewrite mount_loading by done. rewrite Hsel.
  rewrite steps_app, (ticks_running b k1 _ 1800) by (done || (simpl; lia)).
  rewrite steps_app. unfold steps at 2. cbn [foldl step]. simpl.
  rewrite Hquiz.
  rewrite steps_app, (ticks_running b k2 _ (1800 - Z.of_nat k1))
    by (done || (simpl; lia)).
  unfold steps. simpl. rewrite <- !app_assoc. simpl.
  replace (1800 - Z.of_nat k1 - Z.of_nat k2)
    with (1800 - Z.of_nat k1 - Z.of_nat k2) by lia.
  done.
Qed.

(** * A quiz without questions *)

(** C4 as stated does not hold: the load of a quiz without questions
    neither navigates away nor raises an error.  Once the quiz is loaded
    the component is still mounted on the not-found card, and it has
    neither navigated nor raised a toast. *)
Lemma empty_quiz_stays_on_page :
  let s := steps sampleBackend
             (mount sampleBackend (Some "attempt-3") (Some "student-1"))
             [Reply 0; Reply 0] in
  quiz (comp s) = Some emptyQuiz
  /\ questions (comp s) = []
  /\ render (comp s) = NotFoundCard
  /\ mounted s = true
  /\ ~ (exists path, Did (Navigate path) ∈ log s)
  /\ ~ (exists msg, Did (Toast msg) ∈ log s).
Proof.
  cbv zeta.
  split; [vm_compute; reflexivity|]. split; [reflexivity|].
  split; [reflexivity|]. split; [reflexivity|].
  split.
  - intros [path H]. vm_compute in H.
    repeat (apply elem_of_cons in H as [H|H]; [discriminate|]).
    by apply elem_of_nil in H.
  - intros [msg H]. vm_compute in H.
    repeat (apply elem_of_cons in H as [H|H]; [discriminate|]).
    by apply elem_of_nil in H.
Qed.

(** C4, amended.  A quiz without questions is treated as invalid: once it
    is loaded the component renders no quiz but the card "Quiz not found or
    has no questions." with the button [Back to Quizzes].  However long the
    load took ([k1] and [k2] seconds for the two queries) and however long
    the card has been shown ([k] seconds), as long as the countdown has
    not ended:
    - the component is on the card; nothing has navigated, raised a toast
      or invoked [handleSubmitQuiz]; the option, next, previous, submit
      and leave controls of a session are not there and no reply is
      awaited; a click on the button of the card navigates to the quiz
      list;
    - the countdown goes on, and when it ends on the card the timer
      effect invokes [handleSubmitQuiz], which writes the score 0 with no
      answers; when this write succeeds the handler raises the completion
      toast with the score 0 and navigates to the quiz list; when it fails
      the handler raises the toast "Failed to submit quiz" and the
      component stays on the card. *)
Theorem empty_quiz_shows_card (b : Backend) (aid uid : string)
    (att : QuizAttempt.t) (Q : Quiz.t) (k1 k2 k : nat) :
  aid <> "" ->
  select_attempt (db b) (Some aid) uid = Ok att ->
  select_quiz (db b) (QuizAttempt.quiz_id att) = Ok Q ->
  loadedQuestions Q = [] ->
  Z.of_nat k1 + Z.of_nat k2 + Z.of_nat k < 1800 ->
  let s := steps b (mount b (Some aid) (Some uid))
             (slowLoad k1 k2 ++ replicate k Tick) in
  let left := 1800 - Z.of_nat k1 - Z.of_nat k2 - Z.of_nat k in
  let atZero := steps b s (replicate (Z.to_nat left) Tick) in
  let after := step b atZero (Reply 0) in
  (render (comp s) = NotFoundCard
   /\ mounted s = true
   /\ timeLeft (comp s) = left
   /\ countEvents isNavigate (log s) = 0%nat
   /\ countEvents isToast (log s) = 0%nat
   /\ countEvents isInvoked (log s) = 0%nat
   /\ (forall o, step b s (ClickOption o) = s)
   /\ step b s ClickNext = s
   /\ step b s ClickPrevious = s
   /\ step b s ClickSubmit = s
   /\ (forall c, step b s (ClickLeave c) = s)
   /\ (forall n, step b s (Reply n) = s)
   /\ log (step b s ClickBack) = log s ++ [Did (Navigate "/quizzes")]
   /\ mounted (step b s ClickBack) = false)
  /\ (render (comp atZero) = NotFoundCard
      /\ mounted atZero = true
      /\ log atZero
         = log s ++ ticking left (Z.to_nat left)
           ++ [Invoked ByTimer; Did (SetIsSubmitting true);
               Called (UpdateAttempt (Some aid) 0 ∅)])
  /\ (update_outcome b (Some aid) 0 ∅ = None ->
      log after
      = log atZero
        ++ [Did (Toast (ToastCompleted 0 (shownMaxScore (Some Q))));
            Did (Navigate "/quizzes"); Did (SetIsSubmitting false)]
      /\ mounted after = false)
  /\ (forall e, update_outcome b (Some aid) 0 ∅ = Some e ->
      log after
      = log atZero
        ++ [Did (ConsoleError "Error submitting quiz:");
            Did (Toast (ToastError "Failed to submit quiz"));
            Did (SetIsSubmitting false)]
      /\ mounted after = true
      /\ render (comp after) = NotFoundCard).
Proof.
  intros Haid Hsel Hquiz Hempty Hk. cbv zeta.
  rewrite steps_app.
  rewrite (slow_load_succeeded b (Some aid) uid att Q)
    by (done || lia || by apply truthyString_Some).
  rewrite Hempty.
  rewrite (ticks_running b k _ (1800 - Z.of_nat k1 - Z.of_nat k2))
    by (done || (simpl; lia)).
  cbn [attemptId user comp pending log commit1 attempt quiz questions
       currentQuestionIndex selectedAnswers timeLeft isSubmitting loading].
  set (left := 1800 - Z.of_nat k1 - Z.of_nat k2 - Z.of_nat k).
  set (l := [Called (SelectAttempt (Some aid) uid)] ++ _).
  assert (countEvents isNavigate l = 0%nat /\ countEvents isToast l = 0%nat
          /\ countEvents isInvoked l = 0%nat) as (Hnav & Htoast & Hinv).
  { unfold l. rewrite !countEvents_app, !countEvents_ticking by done.
    repeat split; reflexivity. }
  split.
  { rewrite !countEvents_app, !countEvents_ticking, Hnav, Htoast, Hinv by done.
    repeat split; done. }
  rewrite (ticks_to_zero b _ left) by (done || (unfold left; lia)).
  cbn [attemptId user comp pending log commit1 attempt quiz questions
       currentQuestionIndex selectedAnswers timeLeft isSubmitting loading].
  rewrite invokeSubmit_idle by done.
  cbn [attemptId user comp pending log commit1 attempt quiz questions
       currentQuestionIndex selectedAnswers timeLeft isSubmitting loading app].
  rewrite calculateScore_no_questions by done.
  split; [split; [done|split; [done|]]|].
  { by rewrite <- !app_assoc. }
  split.
  - intros Hupd. cbv beta iota delta [step]. cbn [pending lookup list_lookup].
    rewrite Hupd. split; [|done]. cbn. by rewrite <- !app_assoc.
  - intros e Hupd. cbv beta iota delta [step]. cbn [pending lookup list_lookup].
    rewrite Hupd. split; [|done]. cbn. by rewrite <- !app_assoc.
Qed.

Lemma empty_quiz_shows_card_witness :
  let s := steps sampleBackend
             (mount sampleBackend (Some "attempt-3") (Some "student-1"))
             (slowLoad 2 1 ++ replicate 4 Tick) in
  "attempt-3" <> ""
  /\ select_attempt (db sampleBackend) (Some "attempt-3") "student-1"
     = Ok emptyQuizAttempt
  /\ select_quiz (db sampleBackend) (QuizAttempt.quiz_id emptyQuizAttempt)
     = Ok emptyQuiz
  /\ loadedQuestions emptyQuiz = []
  /\ Z.of_nat 2 + Z.of_nat 1 + Z.of_nat 4 < 1800
  /\ render (comp s) = NotFoundCard
  /\ mounted s = true
  /\ timeLeft (comp s) = 1800 - Z.of_nat 2 - Z.of_nat 1 - Z.of_nat 4.
Proof.
  split; [discriminate|]. do 3 (split; [reflexivity|]). split; [reflexivity|].
  destruct (empty_quiz_shows_card sampleBackend "attempt-3" "student-1"
              emptyQuizAttempt emptyQuiz 2 1 4)
    as ((H1 & H2 & H3 & _) & _); [discriminate|reflexivity..|].
  split; [exact H1|]. split; [exact H2|exact H3].
Defined.

(** The countdown ending on the card of a quiz without questions, five
    seconds before the end: no click, and the component writes the score
    0, raises the completion toast and leaves the page. *)
Example empty_quiz_countdown_ends :
  let s := mkSession (Some "attempt-3") (Some "student-1")
             (mkState (Some emptyQuizAttempt) (Some emptyQuiz) [] 0 ∅ 5 false false)
             (Some 5) [] true [] in
  render (comp s) = NotFoundCard
  /\ log (steps sampleBackend s (replicate 5 Tick ++ [Reply 0]))
     = [Did (SetTimeLeft 4); Did (SetTimeLeft 3); Did (SetTimeLeft 2);
        Did (SetTimeLeft 1); Did (SetTimeLeft 0);
        Invoked ByTimer; Did (SetIsSubmitting true);
        Called (UpdateAttempt (Some "attempt-3") 0 ∅);
        Did (Toast (ToastCompleted 0 100));
        Did (Navigate "/quizzes"); Did (SetIsSubmitting false)].
Proof. by vm_compute. Qed.

(** * The cursor in every reachable session *)

Lemma perform_keepsCursor s a :
  keepsCursor a = true ->
  questions (comp (perform s a)) = questions (comp s)
  /\ currentQuestionIndex (comp (perform s a)) = currentQuestionIndex (comp s).
Proof. destruct a; try discriminate; intros _; simpl; by destruct (mounted s). Qed.

Lemma perform_keepsIndex s a :
  keepsIndex a = true ->
  currentQuestionIndex (comp (perform s a)) = currentQuestionIndex (comp s).
Proof. destruct a; try discriminate; intros _; simpl; by destruct (mounted s). Qed.

Lemma performAll_keepsCursor s acts :
  Forall (fun a => keepsCursor a = true) acts ->
  questions (comp (performAll s acts)) = questions (comp s)
  /\ currentQuestionIndex (comp (performAll s acts))
     = currentQuestionIndex (comp s).
Proof.
  intros H. revert s. induction H as [|a acts Ha _ IH]; intros s; [done|].
  rewrite performAll_cons.
  destruct (IH (perform s a)) as [-> ->]. by apply perform_keepsCursor.
Qed.

Lemma performAll_keepsIndex s acts :
  Forall (fun a => keepsIndex a = true) acts ->
  currentQuestionIndex (comp (performAll s acts)) = currentQuestionIndex (comp s).
Proof.
  intros H. revert s. induction H as [|a acts Ha _ IH]; intros s; [done|].
  rewrite performAll_cons, IH. by apply perform_keepsIndex.
Qed.

(** With the cursor at 0 any list of questions is fine. *)
Lemma cursor_at_zero st :
  currentQuestionIndex st = 0 -> pristine st \/ cursorInRange st.
Proof.
  intros H. unfold pristine, cursorInRange, questionCount. rewrite H.
  destruct (questions st); [by left|right]. simpl. lia.
Qed.

Lemma Plain_Loader a : Plain a -> Loader a.
Proof.
  induction 1 as [acts H|acts A req k H _ IH]; constructor; try done.
  eapply Forall_impl; [exact H|]. by intros [].
Qed.

Lemma OneLoader_snoc_Plain l a : OneLoader l -> Plain a -> OneLoader (l ++ [a]).
Proof.
  intros H Ha. induction H as [x l Hx Hl|x l Hx _ IH]; simpl.
  - constructor; [done|]. apply Forall_app. split; [done|]. by constructor.
  - by apply OneLoader_later.
Qed.

Lemma OneLoader_snoc_Loader l a : Forall Plain l -> Loader a -> OneLoader (l ++ [a]).
Proof.
  intros H Ha. induction H as [|x l Hx _ IH]; simpl.
  - by constructor.
  - by apply OneLoader_later.
Qed.

(** Taking one function out of the suspended ones: a plain one leaves the
    loader behind, the loader leaves plain ones behind. *)
Lemma OneLoader_delete l : forall n a,
  OneLoader l -> l !! n = Some a ->
  (Plain a /\ OneLoader (delete n l)) \/ (Loader a /\ Forall Plain (delete n l)).
Proof.
  intros n a H. revert n. induction H as [x l Hx Hl|x l Hx Hl IH]; intros [|n] Hn;
    simpl in *.
  - injection Hn as <-. by right.
  - left. split; [by eapply Forall_lookup_1|].
    constructor; [done|]. by apply Forall_delete.
  - injection Hn as <-. by left.
  - destruct (IH _ Hn) as [[Ha Hrest]|[Ha Hrest]].
    + left. split; [done|]. by apply OneLoader_later.
    + right. split; [done|]. by constructor.
Qed.

Lemma Plain_trackQuestions aid st finalScore qs :
  Plain (trackQuestions aid st finalScore qs).
Proof.
  induction qs as [|q qs IH]; simpl.
  - constructor. repeat constructor.
  - constructor; [constructor|]. intros [|]; [exact IH|].
    constructor. repeat constructor.
Qed.

Lemma Plain_handleSubmitQuiz aid st : Plain (handleSubmitQuiz aid st).
Proof.
  unfold handleSubmitQuiz. destruct (isSubmitting st).
  - constructor. constructor.
  - constructor; [repeat constructor|]. intros [e|].
    + constructor. repeat constructor.
    + apply Plain_trackQuestions.
Qed.

Lemma performAll_cursor s acts :
  CursorInv s -> Forall (fun a => keepsCursor a = true) acts ->
  CursorInv (performAll s acts).
Proof.
  intros [Hst Hp] Hacts.
  destruct (performAll_keepsCursor s acts Hacts) as [Hq Hi].
  constructor; unfold pristine, cursorInRange, questionCount in *;
    rewrite ?performAll_pending, ?Hq, ?Hi; done.
Qed.

(** A plain function started or resumed keeps the invariant. *)
Lemma launch_Plain_cursor b s a :
  CursorInv s -> Plain a -> CursorInv (launch b s a).
Proof.
  intros Hinv Ha. destruct Ha as [acts Hacts|acts A req k Hacts Hk]; simpl.
  - by apply performAll_cursor.
  - destruct Hinv as [Hst Hp].
    destruct (performAll_keepsCursor s acts Hacts) as [Hq Hi].
    constructor; simpl; unfold pristine, cursorInRange, questionCount in *;
      rewrite ?performAll_pending, ?Hq, ?Hi; [done|].
    destruct Hp as [Hp|[Hpr Hp]].
    + left. apply Forall_app. split; [done|]. by constructor.
    + right. split; [done|]. by apply OneLoader_snoc_Plain.
Qed.

(** The loader resumed before any question has arrived keeps it too. *)
Lemma launch_Loader_cursor b s a :
  pristine (comp s) -> Forall Plain (pending s) -> Loader a ->
  CursorInv (launch b s a).
Proof.
  intros Hpr Hp Ha. destruct Ha as [acts Hacts|acts A req k Hacts Hk]; simpl.
  - constructor.
    + apply cursor_at_zero. rewrite performAll_keepsIndex by done. apply Hpr.
    + left. by rewrite performAll_pending.
  - destruct (performAll_keepsCursor s acts Hacts) as [Hq Hi].
    assert (pristine (comp (performAll s acts))) as Hpr'.
    { unfold pristine in *. by rewrite Hq, Hi. }
    constructor; simpl; [by left|]. right. split; [done|].
    rewrite performAll_pending. by apply OneLoader_snoc_Loader.
Qed.

Lemma record_cursor s e : CursorInv s -> CursorInv (record s e).
Proof. by intros []. Qed.

Lemma setTimer_cursor s t : CursorInv s -> CursorInv (setTimer s t).
Proof. by intros []. Qed.

Lemma invokeSubmit_cursor b who s : CursorInv s -> CursorInv (invokeSubmit b who s).
Proof.
  intros Hinv. unfold invokeSubmit.
  apply launch_Plain_cursor; [by apply record_cursor|apply Plain_handleSubmitQuiz].
Qed.

Lemma tick_cursor b s : CursorInv s -> CursorInv (tick b s).
Proof.
  intros Hinv. unfold tick. destruct (timer s) as [c|]; [|done].
  assert (CursorInv (perform (setTimer s None) (SetTimeLeft (c - 1)))) as H.
  { change (CursorInv (performAll (setTimer s None) [SetTimeLeft (c - 1)])).
    apply performAll_cursor; [by apply setTimer_cursor|]. repeat constructor. }
  case_bool_decide; [done|]. unfold runTimerEffect.
  destruct (mounted _); [|done].
  destruct (timerEffect _).
  - by apply setTimer_cursor.
  - by apply invokeSubmit_cursor, setTimer_cursor.
Qed.

(** In range, the two moves stay in range. *)
Lemma moves_stay_in_range s :
  cursorInRange (comp s) ->
  Forall Plain (pending s) ->
  CursorInv (performAll s (handleNextQuestion (comp s)))
  /\ CursorInv (performAll s (handlePreviousQuestion (comp s))).
Proof.
  intros Hr Hp. unfold handleNextQuestion, handlePreviousQuestion.
  split; case_bool_decide as Hc; simpl; try (constructor; by auto).
  - constructor; simpl; [right|by left]. destruct (mounted s); simpl; [|done].
    unfold cursorInRange, questionCount in *. simpl. lia.
  - constructor; simpl; [right|by left]. destruct (mounted s); simpl; [|done].
    unfold cursorInRange, questionCount in *. simpl. lia.
Qed.

(** A quiz on the screen means questions, hence plain suspended functions
    and a cursor in range. *)
Lemma SessionView_in_range s cq :
  CursorInv s -> render (comp s) = SessionView cq ->
  cursorInRange (comp s) /\ Forall Plain (pending s).
Proof.
  intros [Hst Hp] Hv.
  assert (questions (comp s) <> []) as Hne.
  { unfold render in Hv. destruct (loading _); [done|].
    destruct (quiz _); [|done]. by destruct (questions _). }
  split.
  - destruct Hst as [[Hq _]|H]; done.
  - destruct Hp as [H|[[Hq _] _]]; done.
Qed.

Lemma step_cursor b s i : CursorInv s -> CursorInv (step b s i).
Proof.
  intros Hinv.
  assert (CursorInv (perform s (Navigate "/quizzes"))) as Hnav.
  { change (CursorInv (performAll s [Navigate "/quizzes"])).
    apply performAll_cursor; [done|]. repeat constructor. }
  destruct i; cbv beta iota delta [step]; try by apply tick_cursor.
  - destruct (pending s !! n) as [a|] eqn:Ha; [|done].
    destruct Hinv as [Hst [Hp|[Hpr Hp]]].
    + apply launch_Plain_cursor.
      * constructor; simpl; [done|left]. by apply Forall_delete.
      * by eapply Forall_lookup_1.
    + destruct (OneLoader_delete _ _ _ Hp Ha) as [[Hplain Hrest]|[Hload Hrest]].
      * apply launch_Plain_cursor; [|done]. constructor; simpl; auto.
      * by apply launch_Loader_cursor.
  - destruct (mounted s); [|done].
    destruct (render (comp s)) as [| |[q|]]; try done.
    apply performAll_cursor; [done|]. repeat constructor.
  - destruct (mounted s); [|done].
    destruct (render (comp s)) as [| |cq] eqn:Hv; try done.
    destruct (SessionView_in_range _ _ Hinv Hv) as [Hr Hp].
    destruct cq; (case_bool_decide; [done|]); by apply moves_stay_in_range.
  - destruct (mounted s); [|done].
    destruct (render (comp s)) as [| |cq] eqn:Hv; try done.
    destruct (SessionView_in_range _ _ Hinv Hv) as [Hr Hp].
    destruct cq; (case_bool_decide; [done|]); by apply moves_stay_in_range.
  - destruct (mounted s); [|done].
    destruct (render (comp s)) as [| |[q|]]; try done.
    all: destruct (_ && _); [|done]; by apply invokeSubmit_cursor.
  - destruct (mounted s); [|done].
    destruct (render (comp s)) as [| |[q|]]; done.
  - destruct (mounted s); [|done].
    destruct (render (comp s)) as [| |[q|]]; try done.
    all: by destruct confirmed.
Qed.

Lemma Loader_fetch_resumed b aid uid :
  Loader (match select_attempt (db b) aid uid with
          | Err _ => Return fetchFailed
          | Ok attemptData =>
              Await [SetAttempt attemptData]
                (SelectQuiz (QuizAttempt.quiz_id attemptData)) (fun r' =>
                  match r' with
                  | Err _ => Return fetchFailed
                  | Ok quizData =>
                      Return [SetQuiz quizData;
                              SetQuestions (loadedQuestions quizData);
                              SetLoading false]
                  end)
          end).
Proof.
  destruct (select_attempt _ _ _).
  - constructor; [repeat constructor|]. intros [?|?];
      constructor; repeat constructor.
  - constructor. repeat constructor.
Qed.

Lemma mount_cursor b aid uid : CursorInv (mount b aid uid).
Proof.
  destruct uid as [uid|]; [destruct (truthyString aid) eqn:E|].
  - rewrite mount_loading by done. constructor; simpl.
    + by left.
    + right. split; [done|]. constructor; [|constructor].
      apply Loader_fetch_resumed.
  - rewrite mount_missing by auto. constructor; simpl; [by left|by left].
  - rewrite mount_missing by auto. constructor; simpl; [by left|by left].
Qed.

Lemma steps_cursor b ins : forall s, CursorInv s -> CursorInv (steps b s ins).
Proof.
  induction ins as [|i ins IH]; intros s Hinv; [done|].
  apply IH. by apply step_cursor.
Qed.

(** Whenever a session reached from a mount shows a quiz, the cursor is
    within [0, questionCount - 1] and points at a question. *)
Lemma reachable_cursor_in_range b aid uid ins cq :
  let s := steps b (mount b aid uid) ins in
  render (comp s) = SessionView cq ->
  cursorInRange (comp s) /\ is_Some cq.
Proof.
  intros s Hv.
  destruct (SessionView_in_range s cq) as [Hr _];
    [apply steps_cursor, mount_cursor|done|].
  split; [done|]. unfold render in Hv.
  destruct (loading _); [done|]. destruct (quiz _); [|done].
  destruct (questions (comp s)) eqn:Hq; [done|]. injection Hv as <-.
  unfold cursorInRange, questionCount in Hr. rewrite Hq in Hr.
  rewrite bool_decide_eq_true_2 by lia.
  apply lookup_lt_is_Some. simpl in *. lia.
Qed.

(** * The gemini-chat handler *)

Import GeminiChat.

Lemma storeConversation_no_fetch w req q subject chapter a p :
  Fetch p ∉ storeConversation w req q subject chapter a.
Proof.
  unfold storeConversation. intros H.
  destruct (truthyString _); [|by apply elem_of_nil in H].
  destruct (authorization req); [|by apply elem_of_nil in H].
  destruct (getUser _ _);
    repeat (apply elem_of_cons in H as [H|H]; [discriminate|]);
    by apply elem_of_nil in H.
Qed.

Lemma isNull_false v : isNull v = false <-> v <> JNull.
Proof. destruct v; simpl; split; try done; by intros []. Qed.

Lemma respond_fetch w req prompt q subject chapter response p :
  Fetch p ∈ (respond w req prompt q subject chapter response).1 -> p = prompt.
Proof.
  unfold respond. intros H.
  destruct (upstream_json response) as [data|];
    [destruct (isNull data)|]; simpl in H.
  - by apply list_elem_of_singleton in H as [= ->].
  - apply elem_of_cons in H as [[= ->]|H]; [done|].
    by apply storeConversation_no_fetch in H.
  - by apply list_elem_of_singleton in H as [= ->].
Qed.

(** A request on which the handler calls the completion API: it is no
    preflight, its body is a JSON value other than [null] with a truthy
    [question], the API key is configured, and the call carries the prompt
    built from the body. *)
Lemma handler_reaches_fetch w req p :
  Fetch p ∈ (handler w req).1 ->
  method req <> "OPTIONS"
  /\ exists payload q,
       json_body req = Some payload
       /\ isNull payload = false
       /\ member payload "question" = Some q
       /\ truthy (Some q) = true
       /\ truthyString (GEMINI_API_KEY w) = true
       /\ p = mkPrompt (orElse (member payload "subject") (JString "General"))
                (orElse (member payload "chapter") (JString "General")) q.
Proof.
  unfold handler. intros H.
  case_bool_decide as Hmethod; [by apply elem_of_nil in H|].
  split; [done|].
  destruct (json_body req) as [payload|]; [|by apply elem_of_nil in H].
  exists payload.
  destruct (isNull payload) eqn:Hnull; [by apply elem_of_nil in H|].
  destruct (member payload "question") as [q|] eqn:Hq;
    [|by apply elem_of_nil in H].
  exists q.
  destruct (truthy (Some q)) eqn:Htruthy; [|by apply elem_of_nil in H].
  destruct (truthyString (GEMINI_API_KEY w)) eqn:Hkey;
    [|by apply elem_of_nil in H].
  repeat split; try done.
  destruct (gemini w _) as [|r];
    [by apply list_elem_of_singleton in H as [= ->]|].
  destruct (ok r); [|by apply list_elem_of_singleton in H as [= ->]].
  by apply respond_fetch in H.
Qed.

(** When the completion API fails, the handler answers 500. *)
Lemma upstream_failure_status w req :
  upstreamFailed w req -> status (handler w req).2 = 500.
Proof.
  intros (p & Hp & Hfail).
  destruct (handler_reaches_fetch _ _ _ Hp)
    as (Hmethod & payload & q & Hbody & Hnull & Hq & Htruthy & Hkey & ->).
  unfold handler.
  rewrite bool_decide_eq_false_2, Hbody, Hnull, Hq, Htruthy, Hkey by done.
  destruct Hfail as [->|(r & -> & Hok)]; [done|]. by rewrite Hok.
Qed.

(** C8 as stated does not hold.  A body that is [null] has no [question]
    (and a body that is not JSON has none either), but the handler does not
    answer it with a client-error status: reading [question] off [null]
    throws, no call to the outside is made, and the [catch] block answers
    500, which is the status it answers with when the completion API
    fails. *)
Lemma null_body_answered_as_failure :
  let w := worldAnswering overloaded in
  let failing := questionRequest (JString "What is a limit?") in
  member JNull "question" = None
  /\ (handler w nullRequest).1 = []
  /\ (handler w nullRequest).2 = mkResponse 500 (ThrownBody TypeError)
  /\ (handler w unreadableRequest).2 = mkResponse 500 (ThrownBody SyntaxError)
  /\ ~ isClientError (status (handler w nullRequest).2)
  /\ upstreamFailed w failing
  /\ status (handler w failing).2 = status (handler w nullRequest).2.
Proof.
  cbv zeta. do 4 (split; [reflexivity|]).
  split; [unfold isClientError; simpl; lia|]. split; [|reflexivity].
  exists (mkPrompt (JString "Maths") (JString "General")
            (JString "What is a limit?")).
  split; [apply list_elem_of_here|].
  right. by eexists.
Qed.

(** C8, amended.  A request to the proxy (not the CORS preflight) whose
    body is a JSON value other than [null] and whose [question] is missing
    or the empty string is answered 400 with the error "Question is
    required", without any call to the outside, in particular none to the
    completion API.  400 is a client-error status, and it differs from the
    status 500 with which the handler answers whenever the completion API
    fails. *)
Theorem missing_question_rejected (w : World) (req : HttpRequest) (payload : json) :
  method req <> "OPTIONS" ->
  json_body req = Some payload ->
  payload <> JNull ->
  member payload "question" = None
  \/ member payload "question" = Some (JString "") ->
  handler w req = ([], mkResponse 400 (ErrorBody "Question is required"))
  /\ isClientError (status (handler w req).2)
  /\ forall w' req',
       upstreamFailed w' req' ->
       status (handler w' req').2 = 500
       /\ status (handler w' req').2 <> status (handler w req).2.
Proof.
  intros Hmethod Hbody Hnull Hq.
  assert (handler w req = ([], mkResponse 400 (ErrorBody "Question is required")))
    as Hresp.
  { unfold handler. apply isNull_false in Hnull.
    rewrite bool_decide_eq_false_2, Hbody, Hnull by done.
    by destruct Hq as [->| ->]. }
  rewrite Hresp. split; [done|]. split; [unfold isClientError; simpl; lia|].
  intros w' req' Hfail. rewrite (upstream_failure_status _ _ Hfail). done.
Qed.

Lemma missing_question_rejected_witness :
  method (questionRequest (JString "")) <> "OPTIONS"
  /\ json_body (questionRequest (JString ""))
     = Some (JObject [("question", JString ""); ("subject", JString "Maths")])
  /\ JObject [("question", JString ""); ("subject", JString "Maths")] <> JNull
  /\ (member (JObject [("question", JString ""); ("subject", JString "Maths")])
        "question" = None
      \/ member (JObject [("question", JString ""); ("subject", JString "Maths")])
           "question" = Some (JString ""))
  /\ handler (worldAnswering overloaded) (questionRequest (JString ""))
     = ([], mkResponse 400 (ErrorBody "Question is required")).
Proof.
  split; [discriminate|]. split; [reflexivity|]. split; [discriminate|].
  split; [right; reflexivity|].
  apply (missing_question_rejected (worldAnswering overloaded)
           (questionRequest (JString ""))
           (JObject [("question", JString ""); ("subject", JString "Maths")]));
    [discriminate|reflexivity|discriminate|right; reflexivity].
Defined.

Example no_question_field :
  handler (worldAnswering overloaded) noQuestionRequest
  = ([], mkResponse 400 (ErrorBody "Question is required")).
Proof. reflexivity. Qed.

Example upstream_overloaded :
  (handler (worldAnswering overloaded) (questionRequest (JString "What is a limit?"))).2
  = mkResponse 500 (ThrownBody (GeminiApiError 503 "overloaded")).
Proof. reflexivity. Qed.

(** The requests that never reach the check of [question]: the preflight
    is answered 200 whatever its body, and a body that is not JSON or is
    [null] is answered 500 by the [catch] block. *)
Lemma preflight_answer w req :
  method req = "OPTIONS" -> handler w req = ([], mkResponse 200 NoBody).
Proof. intros H. unfold handler. by rewrite bool_decide_eq_true_2. Qed.

Lemma unreadable_body_answer w req :
  method req <> "OPTIONS" ->
  json_body req = None \/ json_body req = Some JNull ->
  (handler w req).1 = [] /\ status (handler w req).2 = 500.
Proof.
  intros Hm H. unfold handler. rewrite bool_decide_eq_false_2 by done.
  by destruct H as [->| ->].
Qed.

(** The source's chain of optional reads follows the path of the candidate
    text. *)
Lemma candidateText_follows_path data :
  data <> JNull -> candidateText data = follow candidateTextPath (Some data).
Proof. intros H. by destruct data. Qed.

Lemma orElse_falsy v d : truthy v = false -> orElse v d = d.
Proof. intros H. unfold orElse. destruct v; [by rewrite H|done]. Qed.

(** C9 as stated does not hold.  A 2xx answer of the completion API whose
    body is [null] holds no candidate text, but the handler does not answer
    with the fallback: reading [candidates] off [null] throws, and the
    [catch] block answers 500 with an error.  A 2xx answer whose body is
    not JSON ends the same way. *)
Lemma null_completion_body_is_error :
  let w := worldAnswering nullBody in
  let req := questionRequest (JString "What is a limit?") in
  let p := mkPrompt (JString "Maths") (JString "General")
             (JString "What is a limit?") in
  Fetch p ∈ (handler w req).1
  /\ gemini w p = Responds (mkUpstream true 200 "" (Some JNull))
  /\ noCandidateText JNull
  /\ (handler w req).2 = mkResponse 500 (ThrownBody TypeError)
  /\ ~ isSuccess (status (handler w req).2).
Proof.
  cbv zeta. split; [apply list_elem_of_here|]. do 3 (split; [reflexivity|]).
  unfold isSuccess. simpl. lia.
Qed.

(** C9, amended.  When the handler has called the completion API and the
    API has answered with a 2xx response whose body is a JSON value other
    than [null] that holds no candidate text, the handler answers 200, a
    success status, with the answer "Sorry, I could not generate a
    response.", not with an error. *)
Theorem no_candidate_text_gets_fallback (w : World) (req : HttpRequest)
    (p : Prompt) (r : UpstreamResponse) (data : json) :
  Fetch p ∈ (handler w req).1 ->
  gemini w p = Responds r ->
  ok r = true ->
  upstream_json r = Some data ->
  data <> JNull ->
  noCandidateText data ->
  (handler w req).2
  = mkResponse 200 (AnswerBody (JString "Sorry, I could not generate a response."))
  /\ isSuccess (status (handler w req).2).
Proof.
  intros Hp Hr Hok Hdata Hnull Hnone.
  destruct (handler_reaches_fetch _ _ _ Hp)
    as (Hmethod & payload & q & Hbody & Hpnull & Hq & Htruthy & Hkey & ->).
  assert ((handler w req).2
          = mkResponse 200 (AnswerBody (JString fallbackAnswer))) as Hresp.
  { unfold handler.
    rewrite bool_decide_eq_false_2, Hbody, Hpnull, Hq, Htruthy, Hkey by done.
    cbv zeta. rewrite Hr, Hok. unfold respond. rewrite Hdata.
    apply isNull_false in Hnull. rewrite Hnull. simpl.
    rewrite candidateText_follows_path by by apply isNull_false.
    by rewrite orElse_falsy. }
  rewrite Hresp. split; [done|]. unfold isSuccess. simpl. lia.
Qed.

Lemma no_candidate_text_gets_fallback_witness :
  let w := worldAnswering noCandidates in
  let req := questionRequest (JString "What is a limit?") in
  let p := mkPrompt (JString "Maths") (JString "General")
             (JString "What is a limit?") in
  let r := mkUpstream true 200 "" (Some (JObject [("candidates", JArray [])])) in
  Fetch p ∈ (handler w req).1
  /\ gemini w p = Responds r
  /\ ok r = true
  /\ upstream_json r = Some (JObject [("candidates", JArray [])])
  /\ JObject [("candidates", JArray [])] <> JNull
  /\ noCandidateText (JObject [("candidates", JArray [])])
  /\ (handler w req).2
     = mkResponse 200 (AnswerBody (JString "Sorry, I could not generate a response.")).
Proof.
  cbv zeta.
  split; [apply list_elem_of_here|]. do 3 (split; [reflexivity|]).
  split; [discriminate|]. split; [reflexivity|].
  eapply (no_candidate_text_gets_fallback (worldAnswering noCandidates));
    [apply list_elem_of_here|reflexivity|reflexivity|reflexivity
    |discriminate|reflexivity].
Defined.

Example candidate_text_is_answer :
  (handler (worldAnswering (oneCandidate "A limit is ..."))
     (questionRequest (JString "What is a limit?"))).2
  = mkResponse 200 (AnswerBody (JString "A limit is ...")).
Proof. reflexivity. Qed.

Example empty_candidate_text_is_fallback :
  (handler (worldAnswering (oneCandidate ""))
     (questionRequest (JString "What is a limit?"))).2
  = mkResponse 200 (AnswerBody (JString "Sorry, I could not generate a response.")).
Proof. reflexivity. Qed.

(** A 2xx answer whose body is [null] makes the read of
    [data.candidates] throw, and the [catch] block answers 500. *)
Example null_completion_body :
  (handler (worldAnswering nullBody)
     (questionRequest (JString "What is a limit?"))).2
  = mkResponse 500 (ThrownBody TypeError).
Proof. reflexivity. Qed.

(** * The clock *)

Lemma string_append_length s t :
  String.length (String.append s t) = (String.length s + String.length t)%nat.
Proof. induction s as [|c s IH]; simpl; [done|]. by rewrite IH. Qed.

Lemma string_append_inj s1 : forall s2 t1 t2,
  String.length s1 = String.length s2 ->
  String.append s1 t1 = String.append s2 t2 -> s1 = s2 /\ t1 = t2.
Proof.
  induction s1 as [|c s1 IH]; intros [|c' s2] t1 t2 Hlen H; simpl in *;
    try discriminate; [done|].
  injection H as -> H. destruct (IH s2 t1 t2) as [-> ->]; [lia|done|done].
Qed.

Lemma to_int_printable n :
  Z.to_int n <> Decimal.Pos Decimal.Nil /\ Z.to_int n <> Decimal.Neg Decimal.Nil.
Proof.
  destruct n as [|p|p]; simpl; split; try discriminate;
    intros [= H]; by apply DecimalPos.Unsigned.to_uint_nonnil in H.
Qed.

(** [String(n)] reads back as [n]: different integers print differently. *)
Lemma numberToString_inj a b : numberToString a = numberToString b -> a = b.
Proof.
  unfold numberToString. intros H. apply DecimalZ.to_int_inj.
  destruct (to_int_printable a) as [Ha1 Ha2].
  destruct (to_int_printable b) as [Hb1 Hb2].
  pose proof (DecimalString.NilZero.isi _ Ha1 Ha2) as Ha.
  pose proof (DecimalString.NilZero.isi _ Hb1 Hb2) as Hb.
  rewrite H in Ha. congruence.
Qed.

Example formatTime_samples :
  formatTime 1800 = "30:00" /\ formatTime 61 = "1:01" /\ formatTime 59 = "0:59"
  /\ formatTime 0 = "0:00" /\ formatTime (-1) = "-1:-1".
Proof. repeat split; reflexivity. Qed.

(** The seconds field for each of the sixty remainders, checked one by
    one: two characters, and a different text for a different remainder. *)
Lemma seconds_field_checked :
  Forall (fun r =>
            String.length (padStart2 (numberToString r)) = 2%nat
            /\ Forall (fun r' =>
                         padStart2 (numberToString r) = padStart2 (numberToString r')
                         -> r = r')
                      (seqZ 0 60))
         (seqZ 0 60).
Proof. apply (bool_decide_unpack _). vm_compute. exact I. Qed.

Lemma seconds_field r :
  0 <= r < 60 ->
  String.length (padStart2 (numberToString r)) = 2%nat
  /\ forall r', 0 <= r' < 60 ->
       padStart2 (numberToString r) = padStart2 (numberToString r') -> r = r'.
Proof.
  intros Hr. pose proof seconds_field_checked as H.
  rewrite Forall_forall in H. destruct (H r) as [Hlen Hinj].
  { apply elem_of_seqZ. lia. }
  split; [done|]. intros r' Hr'. rewrite Forall_forall in Hinj.
  apply Hinj. apply elem_of_seqZ. lia.
Qed.

(** X1.  For a whole number of seconds from 0 to [Number.MAX_SAFE_INTEGER]
    (the countdown, which the component passes, stays within 0 and 1800)
    the clock reads the minutes, a colon and a seconds field of exactly two
    characters that stands for a number from 0 to 59; two different such
    numbers of seconds never read the same. *)
Theorem formatTime_reads_back (a b : Z) :
  0 <= a <= maxSafeInteger ->
  0 <= b <= maxSafeInteger ->
  formatTime a
  = String.append (numberToString (a / 60))
      (String.append ":" (padStart2 (numberToString (a mod 60))))
  /\ String.length (padStart2 (numberToString (a mod 60))) = 2%nat
  /\ 0 <= a mod 60 < 60
  /\ (formatTime a = formatTime b -> a = b).
Proof.
  intros Ha Hb.
  assert (forall x, 0 <= x ->
            formatTime x
            = String.append (numberToString (x / 60))
                (String.append ":" (padStart2 (numberToString (x mod 60))))) as Hshape.
  { intros x Hx. unfold formatTime. by rewrite Z.rem_mod_nonneg by lia. }
  assert (0 <= a mod 60 < 60) as Hra by (apply Z.mod_pos_bound; lia).
  assert (0 <= b mod 60 < 60) as Hrb by (apply Z.mod_pos_bound; lia).
  destruct (seconds_field _ Hra) as [Hlen Hinj].
  destruct (seconds_field _ Hrb) as [Hlen' _].
  split; [apply Hshape; lia|]. split; [done|]. split; [done|].
  rewrite !Hshape by lia. intros H.
  apply string_append_inj in H as [Hmin Hsec].
  - apply numberToString_inj in Hmin. injection Hsec as Hsec.
    apply Hinj in Hsec; [|done].
    rewrite (Z.div_mod a 60), (Z.div_mod b 60) by lia. congruence.
  - apply (f_equal String.length) in H.
    rewrite !string_append_length in H. simpl in H. lia.
Qed.

Lemma formatTime_reads_back_witness :
  0 <= 119 <= maxSafeInteger
  /\ 0 <= 120 <= maxSafeInteger
  /\ String.length (padStart2 (numberToString (119 mod 60))) = 2%nat
  /\ (formatTime 119 = formatTime 120 -> 119 = 120).
Proof.
  assert (0 <= 119 <= maxSafeInteger) as Ha by (split; by vm_compute).
  assert (0 <= 120 <= maxSafeInteger) as Hb by (split; by vm_compute).
  split; [exact Ha|]. split; [exact Hb|].
  destruct (formatTime_reads_back 119 120 Ha Hb) as (_ & H2 & _ & H4).
  split; [exact H2|exact H4].
Defined.

(** * Selecting an answer *)

Lemma optionLetter_inj o o' : optionLetter o = optionLetter o' -> o = o'.
Proof. by destruct o, o'. Qed.

(** X2.  After [handleAnswerSelect] for a question with the letter of an
    option, exactly that option of the question is drawn as selected; the
    options of a question with another id are drawn as before; selecting
    again replaces the earlier selection of the question (the last one
    stands, and selecting the same option twice changes nothing); and
    nothing but the selection mapping changes. *)
Theorem select_marks_one_option (st : State) (q : Question.t) (o o2 : OptionButton) :
  let select := fun o => handleAnswerSelect (Question.id q) (optionLetter o) in
  let st' := commit st (select o) in
  (forall o', isSelected st' q o' = true <-> o' = o)
  /\ (forall q' o', Question.id q' <> Question.id q ->
        isSelected st' q' o' = isSelected st q' o')
  /\ commit st' (select o2) = commit st (select o2)
  /\ commit st' (select o) = st'
  /\ st' = mkState (attempt st) (quiz st) (questions st) (currentQuestionIndex st)
             (<[Question.id q := optionLetter o]> (selectedAnswers st))
             (timeLeft st) (isSubmitting st) (loading st).
Proof.
  cbv zeta. unfold isSelected, handleAnswerSelect, commit. simpl.
  split; [|split; [|split; [|split]]].
  - intros o'. rewrite lookup_insert_eq. simpl.
    rewrite bool_decide_eq_true. split; [|by intros ->].
    intros H. symmetry. by apply optionLetter_inj.
  - intros q' o' Hne. by rewrite lookup_insert_ne.
  - by rewrite insert_insert_eq.
  - by rewrite insert_insert_eq.
  - done.
Qed.

(** * Bounds of the score *)

Lemma filter_none {A} (P : A -> Prop) `{!forall x, Decision (P x)} (l : list A) :
  Forall (fun x => ~ P x) l -> filter P l = [].
Proof.
  induction 1 as [|x l Hx _ IH]; [done|]. by rewrite filter_cons_False.
Qed.

Lemma filter_all {A} (P : A -> Prop) `{!forall x, Decision (P x)} (l : list A) :
  Forall P l -> filter P l = l.
Proof.
  induction 1 as [|x l Hx _ IH]; [done|]. rewrite filter_cons_True by done.
  by rewrite IH.
Qed.

(** X3.  The score is never negative and never more than the number of
    questions times the point value of the quiz type (8, or 25 for a daily
    quiz); it is 0 when nothing is selected and it is that maximum when the
    selection of every question is its correct letter. *)
Theorem score_bounds (st : State) :
  0 <= calculateScore st <= questionCount st * pointsPerQuestion (quiz st)
  /\ (pointsPerQuestion (quiz st) = 8 \/ pointsPerQuestion (quiz st) = 25)
  /\ (selectedAnswers st = ∅ -> calculateScore st = 0)
  /\ ((forall q, q ∈ questions st -> answeredCorrectly (selectedAnswers st) q) ->
      calculateScore st = questionCount st * pointsPerQuestion (quiz st)).
Proof.
  assert (pointsPerQuestion (quiz st) = 8 \/ pointsPerQuestion (quiz st) = 25) as Hp.
  { unfold pointsPerQuestion. destruct (quiz st); [case_bool_decide|]; auto. }
  unfold calculateScore, questionCount. rewrite forEach_counts.
  pose proof (length_filter (answeredCorrectly (selectedAnswers st)) (questions st)).
  split; [|split; [done|split]].
  - destruct Hp as [-> | ->]; lia.
  - intros ->. rewrite filter_none; [done|].
    apply Forall_forall. intros q _. unfold answeredCorrectly.
    by rewrite lookup_empty.
  - intros Hall. rewrite filter_all; [done|]. by apply Forall_forall.
Qed.

(** * The gemini-chat handler: the five ways a request ends *)

(** Every request ends in one of five ways: the preflight answer; an error
    thrown before the completion API is called; the missing-question
    answer; an error thrown after the one call to the completion API; or
    the answer, after the call to the completion API and the block that
    stores the conversation. *)
Lemma handler_cases w req :
  (method req = "OPTIONS" /\ handler w req = ([], mkResponse 200 NoBody))
  \/ (exists e, handler w req = ([], mkResponse 500 (ThrownBody e)))
  \/ handler w req = ([], mkResponse 400 (ErrorBody "Question is required"))
  \/ (exists p e, handler w req = ([Fetch p], mkResponse 500 (ThrownBody e)))
  \/ (exists payload q r data,
        let p := mkPrompt (orElse (member payload "subject") (JString "General"))
                   (orElse (member payload "chapter") (JString "General")) q in
        let a := orElse (candidateText data) (JString fallbackAnswer) in
        json_body req = Some payload
        /\ member payload "question" = Some q
        /\ gemini w p = Responds r
        /\ ok r = true
        /\ upstream_json r = Some data
        /\ isNull data = false
        /\ handler w req
           = (Fetch p :: storeConversation w req q (member payload "subject")
                           (member payload "chapter") a,
              mkResponse 200 (AnswerBody a))).
Proof.
  unfold handler. case_bool_decide as Hm; [by left|]. right.
  destruct (json_body req) as [payload|]; [|left; by eexists].
  destruct (isNull payload); [left; by eexists|].
  destruct (member payload "question") as [q|] eqn:Hq; [|by right; left].
  destruct (truthy (Some q)); [|by right; left].
  destruct (truthyString _); [|left; by eexists].
  cbv zeta.
  destruct (gemini w _) as [|r] eqn:Hg; [right; right; left; by do 2 eexists|].
  destruct (ok r) eqn:Hok; [|right; right; left; by do 2 eexists].
  unfold respond.
  destruct (upstream_json r) as [data|] eqn:Hd;
    [|right; right; left; by do 2 eexists].
  destruct (isNull data) eqn:Hn; [right; right; left; by do 2 eexists|].
  right. right. right. exists payload, q, r, data. cbv zeta. by rewrite Hq.
Qed.

Lemma storeConversation_calls w req q subject chapter a :
  Forall (fun c => isStoreCall c = true) (storeConversation w req q subject chapter a).
Proof.
  unfold storeConversation. destruct (truthyString _); [|constructor].
  destruct (authorization req); [|constructor].
  destruct (getUser _ _); repeat constructor.
Qed.

(** X4.  A request makes at most one call to the completion API, and that
    call comes before every other call to the outside: the user lookup and
    the insert of the conversation happen only after it. *)
Theorem one_completion_call_first (w : World) (req : HttpRequest) :
  let calls := (handler w req).1 in
  (length (filter (fun c => isFetch c = true) calls) <= 1)%nat
  /\ (calls = [] \/ exists p rest,
        calls = Fetch p :: rest /\ Forall (fun c => isStoreCall c = true) rest).
Proof.
  cbv zeta.
  destruct (handler_cases w req)
    as [[_ ->]|[[e ->]|[->|[(p & e & ->)|(payload & q & r & data & H)]]]];
    cbn [fst]; try (split; [rewrite filter_nil; simpl; lia|by left]).
  - split; [by rewrite filter_cons_True, filter_nil|]. right.
    exists p, []. by split.
  - cbv zeta in H. destruct H as (_ & _ & _ & _ & _ & _ & ->). cbn [fst].
    pose proof (storeConversation_calls w req q (member payload "subject")
                  (member payload "chapter")
                  (orElse (candidateText data) (JString fallbackAnswer))) as Hs.
    split.
    + rewrite filter_cons_True by done. rewrite filter_none; [simpl; lia|].
      eapply Forall_impl; [exact Hs|]. intros [] Hc; simpl in *; congruence.
    + right. by do 2 eexists.
Qed.

Lemma substring_all s : forall m,
  (String.length s <= m)%nat -> String.substring 0 m s = s.
Proof.
  induction s as [|c s IH]; intros [|m] H; simpl in *; try done; [lia|].
  rewrite IH; [done|lia].
Qed.

Lemma replaceFirst_unfold pat rep s :
  replaceFirst pat rep s
  = if String.prefix pat s
    then String.append rep
           (String.substring (String.length pat) (String.length s) s)
    else match s with
         | EmptyString => EmptyString
         | String c s' => String c (replaceFirst pat rep s')
         end.
Proof. by destruct s. Qed.

Lemma prefix_append pat t : String.prefix pat (String.append pat t) = true.
Proof.
  induction pat as [|c pat IH]; simpl; [by destruct t|].
  destruct (Ascii.ascii_dec c c); [exact IH|done].
Qed.

Lemma substring_append pat t : forall m,
  (String.length t <= m)%nat ->
  String.substring (String.length pat) m (String.append pat t) = t.
Proof.
  induction pat as [|c pat IH]; intros m H; simpl.
  - by apply substring_all.
  - by apply IH.
Qed.

(** [s.replace(pat, rep)] of a text that starts with [pat]. *)
Lemma replaceFirst_prefix pat rep t :
  replaceFirst pat rep (String.append pat t) = String.append rep t.
Proof.
  rewrite replaceFirst_unfold, prefix_append, substring_append; [done|].
  rewrite string_append_length. lia.
Qed.

(** [header.replace('Bearer ', '')] of a header that starts with the
    prefix is the rest of the header. *)
Lemma replaceFirst_Bearer token :
  replaceFirst "Bearer " "" (String.append "Bearer " token) = token.
Proof. by rewrite replaceFirst_prefix. Qed.

(** X6.  When an answer is returned to a request whose [Authorization]
    header is ["Bearer "] followed by a token, the user is looked up with
    exactly that token, right after the call to the completion API; the
    conversation is inserted if and only if the lookup finds a user. *)
Theorem bearer_token_looked_up (w : World) (req : HttpRequest) (token : string)
    (a : json) :
  authorization req = Some (String.append "Bearer " token) ->
  body (handler w req).2 = AnswerBody a ->
  exists p rest,
    (handler w req).1 = Fetch p :: GetUser token :: rest
    /\ match getUser w token with
       | Some uid => exists row, rest = [Insert row] /\ user_id row = uid
       | None => rest = []
       end.
Proof.
  intros Hauth Hbody.
  destruct (handler_cases w req)
    as [[_ H]|[[e H]|[H|[(p & e & H)|(payload & q & r & data & H)]]]];
    try (rewrite H in Hbody; discriminate).
  cbv zeta in H. destruct H as (_ & _ & _ & _ & _ & _ & H).
  rewrite H. cbn [fst]. eexists. unfold storeConversation.
  rewrite Hauth. rewrite replaceFirst_Bearer.
  assert (truthyString (Some (String.append "Bearer " token)) = true) as ->
    by reflexivity.
  destruct (getUser w token) as [uid|] eqn:Hu.
  - eexists. split; [reflexivity|]. by eexists.
  - eexists. by split.
Qed.

Lemma bearer_token_looked_up_witness :
  let w := worldWithUser (oneCandidate "A limit is ...") in
  let req := authorizedRequest "Bearer t0k3n" in
  authorization req = Some (String.append "Bearer " "t0k3n")
  /\ body (handler w req).2 = AnswerBody (JString "A limit is ...")
  /\ exists p rest,
       (handler w req).1 = Fetch p :: GetUser "t0k3n" :: rest
       /\ match getUser w "t0k3n" with
          | Some uid => exists row, rest = [Insert row] /\ user_id row = uid
          | None => rest = []
          end.
Proof.
  cbv zeta. split; [reflexivity|]. split; [reflexivity|].
  apply (bearer_token_looked_up _ _ "t0k3n" (JString "A limit is ..."));
    reflexivity.
Defined.

Example bearer_only_first_occurrence :
  replaceFirst "Bearer " "" "Bearer Bearer x" = "Bearer x"
  /\ replaceFirst "Bearer " "" "Token abc" = "Token abc"
  /\ replaceFirst "Bearer " "" "xBearer abc" = "xabc".
Proof. repeat split; reflexivity. Qed.

(** X7.  Whenever a conversation row is inserted, the request has been
    answered with status 200 and the row holds what was exchanged: its
    answer is the answer returned, its question is the [question] of the
    body, its subject and chapter are those of the body or [null], and its
    user is the one found for the token of the header. *)
Theorem stored_row_matches_exchange (w : World) (req : HttpRequest)
    (row : ConversationRow) :
  Insert row ∈ (handler w req).1 ->
  (handler w req).2 = mkResponse 200 (AnswerBody (answer_text row))
  /\ exists payload header,
       json_body req = Some payload
       /\ member payload "question" = Some (question_text row)
       /\ subject row = orNull (member payload "subject")
       /\ chapter row = orNull (member payload "chapter")
       /\ authorization req = Some header
       /\ getUser w (replaceFirst "Bearer " "" header) = Some (user_id row).
Proof.
  intros Hin.
  destruct (handler_cases w req)
    as [[_ H]|[[e H]|[H|[(p & e & H)|(payload & q & r & data & H)]]]].
  - rewrite H in Hin. by apply elem_of_nil in Hin.
  - rewrite H in Hin. by apply elem_of_nil in Hin.
  - rewrite H in Hin. by apply elem_of_nil in Hin.
  - rewrite H in Hin. by apply list_elem_of_singleton in Hin.
  - cbv zeta in H. destruct H as (Hb & Hq & _ & _ & _ & _ & H).
    rewrite H in Hin. rewrite H. cbn [fst snd] in *. clear H.
    apply elem_of_cons in Hin as [[=]|Hin].
    unfold storeConversation in Hin.
    destruct (truthyString _); [|by apply elem_of_nil in Hin].
    destruct (authorization req) as [header|] eqn:Ha;
      [|by apply elem_of_nil in Hin].
    destruct (getUser w _) as [uid|] eqn:Hu.
    + apply elem_of_cons in Hin as [[=]|Hin].
      apply list_elem_of_singleton in Hin. injection Hin as ->. simpl.
      split; [done|]. by exists payload, header.
    + by apply list_elem_of_singleton in Hin.
Qed.

Lemma stored_row_matches_exchange_witness :
  let w := worldWithUser (oneCandidate "A limit is ...") in
  let req := authorizedRequest "Bearer t0k3n" in
  let row := mkRow "user-7" (JString "What is a limit?") (JString "A limit is ...")
               JNull JNull in
  Insert row ∈ (handler w req).1
  /\ (handler w req).2 = mkResponse 200 (AnswerBody (answer_text row)).
Proof.
  cbv zeta.
  assert (Insert (mkRow "user-7" (JString "What is a limit?")
                    (JString "A limit is ...") JNull JNull)
          ∈ (handler (worldWithUser (oneCandidate "A limit is ..."))
               (authorizedRequest "Bearer t0k3n")).1) as H.
  { apply list_elem_of_further, list_elem_of_further, list_elem_of_here. }
  split; [exact H|].
  exact (proj1 (stored_row_matches_exchange _ _ _ H)).
Defined.

Lemma truthy_false_iff v :
  truthy v = false
  <-> v = None \/ v = Some JNull \/ v = Some (JBool false)
      \/ v = Some (JNumber 0) \/ v = Some (JString "").
Proof.
  split.
  - destruct v as [[| b | n | s | l | f]|]; simpl; intros H; auto.
    + destruct b; [done|auto].
    + apply negb_false_iff, bool_decide_eq_true in H as ->. auto 6.
    + apply negb_false_iff, bool_decide_eq_true in H as ->. auto 6.
    + done.
    + done.
  - intros [->|[->|[->|[->| ->]]]]; reflexivity.
Qed.

(** X8.  A request that is not the preflight and whose body is a JSON
    value other than [null] is answered 400 exactly when its [question] is
    falsy, that is missing, [null], [false], [0] or the empty string; the
    400 answer is the same whatever the API key, the completion API and
    the header are, and no call to the outside is made for it. *)
Theorem question_required_iff_falsy (w : World) (req : HttpRequest)
    (payload : json) :
  method req <> "OPTIONS" ->
  json_body req = Some payload ->
  payload <> JNull ->
  let question := member payload "question" in
  (status (handler w req).2 = 400 <-> truthy question = false)
  /\ (truthy question = false
      <-> question = None \/ question = Some JNull
          \/ question = Some (JBool false) \/ question = Some (JNumber 0)
          \/ question = Some (JString ""))
  /\ (truthy question = false ->
      handler w req = ([], mkResponse 400 (ErrorBody "Question is required"))).
Proof.
  intros Hm Hb Hn. cbv zeta. apply isNull_false in Hn.
  split; [|split; [apply truthy_false_iff|]].
  - unfold handler. rewrite bool_decide_eq_false_2, Hb, Hn by done.
    destruct (member payload "question") as [q|] eqn:Hq; [|done].
    destruct (truthy (Some q)); [|done].
    destruct (truthyString _); [|done]. cbv zeta.
    destruct (gemini w _) as [|r]; [done|]. destruct (ok r); [|done].
    unfold respond. destruct (upstream_json r) as [data|]; [|done].
    by destruct (isNull data).
  - intros Hq. unfold handler. rewrite bool_decide_eq_false_2, Hb, Hn by done.
    destruct (member payload "question") as [q|]; [|done]. by rewrite Hq.
Qed.

Lemma question_required_iff_falsy_witness :
  let req := questionRequest (JNumber 0) in
  let payload := JObject [("question", JNumber 0); ("subject", JString "Maths")] in
  method req <> "OPTIONS"
  /\ json_body req = Some payload
  /\ payload <> JNull
  /\ (status (handler worldWithoutKey req).2 = 400
      <-> truthy (member payload "question") = false).
Proof.
  cbv zeta. split; [discriminate|]. split; [reflexivity|]. split; [discriminate|].
  apply (question_required_iff_falsy worldWithoutKey (questionRequest (JNumber 0)));
    [discriminate|reflexivity|discriminate].
Defined.

Lemma orElse_truthy v d : truthy (Some d) = true -> truthy (Some (orElse v d)) = true.
Proof.
  intros Hd. unfold orElse. destruct v as [x|]; [|done].
  by destruct (truthy (Some x)) eqn:E.
Qed.

(** X9.  Every response is of one of three kinds: status 200 with no body
    (the preflight) or with an answer; status 400 with the error "Question
    is required"; status 500 with the message of a thrown error.  An
    answer is never empty or otherwise falsy, and nothing about the
    conversation is looked up or stored unless an answer is returned. *)
Theorem response_kinds (w : World) (req : HttpRequest) :
  let calls := (handler w req).1 in
  let response := (handler w req).2 in
  (response = mkResponse 200 NoBody
   \/ (exists a, response = mkResponse 200 (AnswerBody a)
                 /\ truthy (Some a) = true)
   \/ response = mkResponse 400 (ErrorBody "Question is required")
   \/ exists e, response = mkResponse 500 (ThrownBody e))
  /\ ((forall a, body response <> AnswerBody a) ->
      Forall (fun c => isStoreCall c = false) calls).
Proof.
  cbv zeta.
  destruct (handler_cases w req)
    as [[_ ->]|[[e ->]|[->|[(p & e & ->)|(payload & q & r & data & H)]]]];
    cbn [fst snd].
  - split; [by left|]. by intros _.
  - split; [right; right; right; by eexists|]. by intros _.
  - split; [by right; right; left|]. by intros _.
  - split; [right; right; right; by eexists|]. intros _. by repeat constructor.
  - cbv zeta in H. destruct H as (_ & _ & _ & _ & _ & _ & ->). cbn [fst snd].
    split.
    + right. left. eexists. split; [done|]. by apply orElse_truthy.
    + intros Hno.
      by destruct (Hno (orElse (candidateText data) (JString fallbackAnswer))).
Qed.

(** X10.  Without an API key (not set, or set to the empty string) a
    request with a truthy question is answered 500 and the completion API
    is not called; a request with a falsy question is still answered 400:
    the question is checked before the key. *)
Theorem missing_key_is_server_error (w : World) (req : HttpRequest)
    (payload : json) :
  truthyString (GEMINI_API_KEY w) = false ->
  method req <> "OPTIONS" ->
  json_body req = Some payload ->
  payload <> JNull ->
  handler w req
  = if truthy (member payload "question")
    then ([], mkResponse 500 (ThrownBody ApiKeyNotConfigured))
    else ([], mkResponse 400 (ErrorBody "Question is required")).
Proof.
  intros Hkey Hm Hb Hn. apply isNull_false in Hn. unfold handler.
  rewrite bool_decide_eq_false_2, Hb, Hn, Hkey by done.
  destruct (member payload "question") as [q|]; [|done].
  by destruct (truthy (Some q)).
Qed.

Lemma missing_key_is_server_error_witness :
  let req := questionRequest (JString "What is a limit?") in
  let payload := JObject [("question", JString "What is a limit?");
                          ("subject", JString "Maths")] in
  truthyString (GEMINI_API_KEY worldWithoutKey) = false
  /\ method req <> "OPTIONS"
  /\ json_body req = Some payload
  /\ payload <> JNull
  /\ handler worldWithoutKey req
     = if truthy (member payload "question")
       then ([], mkResponse 500 (ThrownBody ApiKeyNotConfigured))
       else ([], mkResponse 400 (ErrorBody "Question is required")).
Proof.
  cbv zeta. split; [reflexivity|]. split; [discriminate|].
  split; [reflexivity|]. split; [discriminate|].
  apply (missing_key_is_server_error worldWithoutKey
           (questionRequest (JString "What is a limit?"))
           (JObject [("question", JString "What is a limit?");
                     ("subject", JString "Maths")]));
    [reflexivity|discriminate|reflexivity|discriminate].
Defined.

(** X11.  When the handler has called the completion API and the API has
    answered with a 2xx response whose JSON body (other than [null]) holds
    a truthy value at [candidates[0].content.parts[0].text], the handler
    answers 200 with exactly that value as the answer. *)
Theorem candidate_text_is_returned (w : World) (req : HttpRequest)
    (p : Prompt) (r : UpstreamResponse) (data text : json) :
  Fetch p ∈ (handler w req).1 ->
  gemini w p = Responds r ->
  ok r = true ->
  upstream_json r = Some data ->
  data <> JNull ->
  follow candidateTextPath (Some data) = Some text ->
  truthy (Some text) = true ->
  (handler w req).2 = mkResponse 200 (AnswerBody text).
Proof.
  intros Hp Hr Hok Hdata Hnull Htext Htruthy.
  destruct (handler_reaches_fetch _ _ _ Hp)
    as (Hmethod & payload & q & Hbody & Hpnull & Hq & Hqt & Hkey & ->).
  unfold handler.
  rewrite bool_decide_eq_false_2, Hbody, Hpnull, Hq, Hqt, Hkey by done.
  cbv zeta. rewrite Hr, Hok. unfold respond. rewrite Hdata.
  rewrite (proj2 (isNull_false data)) by done. cbn [snd].
  rewrite candidateText_follows_path, Htext by done.
  unfold orElse. by rewrite Htruthy.
Qed.

Lemma candidate_text_is_returned_witness :
  let w := worldAnswering (oneCandidate "A limit is ...") in
  let req := questionRequest (JString "What is a limit?") in
  let p := mkPrompt (JString "Maths") (JString "General")
             (JString "What is a limit?") in
  Fetch p ∈ (handler w req).1
  /\ gemini w p = oneCandidate "A limit is ..."
  /\ (handler w req).2 = mkResponse 200 (AnswerBody (JString "A limit is ...")).
Proof.
  cbv zeta. split; [apply list_elem_of_here|]. split; [reflexivity|].
  eapply (candidate_text_is_returned (worldAnswering (oneCandidate "A limit is ...")));
    [apply list_elem_of_here|reflexivity|reflexivity|reflexivity
    |discriminate|reflexivity|reflexivity].
Defined.

(** X12.  The three values that the prompt template embeds come from the
    body of the request: the question is the [question] of the body, which
    is truthy; subject and chapter are those of the body when they are
    truthy, and the string ["General"] when they are missing, [null],
    [false], [0] or the empty string.  A value that is a string, which is
    the shape the request declares, is therefore never the empty string.
    (Nothing is said of the text that the template makes of a truthy value
    of another kind: the empty array is embedded as empty text.) *)
Theorem prompt_values_from_body (w : World) (req : HttpRequest) (p : Prompt) :
  Fetch p ∈ (handler w req).1 ->
  exists payload,
    json_body req = Some payload
    /\ member payload "question" = Some (prompt_question p)
    /\ truthy (Some (prompt_question p)) = true
    /\ (truthy (member payload "subject") = false ->
        prompt_subject p = JString "General")
    /\ (truthy (member payload "chapter") = false ->
        prompt_chapter p = JString "General")
    /\ (truthy (member payload "subject") = true ->
        member payload "subject" = Some (prompt_subject p))
    /\ (truthy (member payload "chapter") = true ->
        member payload "chapter" = Some (prompt_chapter p))
    /\ (forall s, prompt_question p = JString s
                  \/ prompt_subject p = JString s
                  \/ prompt_chapter p = JString s -> s <> "").
Proof.
  intros Hp.
  destruct (handler_reaches_fetch _ _ _ Hp)
    as (_ & payload & q & Hbody & _ & Hq & Hqt & _ & ->).
  simpl. exists payload.
  split; [done|]. split; [done|]. split; [done|].
  assert (forall v d, truthy v = true -> v = Some (orElse v d)) as Hkeep.
  { intros [x|] d H; [|done]. unfold orElse. by rewrite H. }
  split; [apply orElse_falsy|]. split; [apply orElse_falsy|].
  split; [apply Hkeep|]. split; [apply Hkeep|].
  assert (forall v s, truthy (Some v) = true -> v = JString s -> s <> "")
    as Hstr.
  { intros v s Ht -> ->. discriminate. }
  intros s [H|[H|H]]; eapply Hstr; try exact H; try done;
    by apply orElse_truthy.
Qed.

Lemma prompt_values_from_body_witness :
  let w := worldAnswering noCandidates in
  let req := questionRequest (JString "What is a limit?") in
  let p := mkPrompt (JString "Maths") (JString "General")
             (JString "What is a limit?") in
  Fetch p ∈ (handler w req).1
  /\ exists payload,
       json_body req = Some payload
       /\ member payload "question" = Some (prompt_question p).
Proof.
  cbv zeta.
  assert (Fetch (mkPrompt (JString "Maths") (JString "General")
                   (JString "What is a limit?"))
          ∈ (handler (worldAnswering noCandidates)
               (questionRequest (JString "What is a limit?"))).1) as H
    by apply list_elem_of_here.
  split; [exact H|].
  destruct (prompt_values_from_body _ _ _ H) as (payload & H1 & H2 & _).
  exists payload. split; [exact H1|exact H2].
Defined.

(** A question that is the empty array is truthy: it passes the check and
    is embedded in the prompt that is sent. *)
Example empty_array_question_is_sent :
  (handler (worldAnswering noCandidates) (questionRequest (JArray []))).1
  = [Fetch (mkPrompt (JString "Maths") (JString "General") (JArray []))].
Proof. reflexivity. Qed.

(** * The countdown in every reachable session *)






(** * After the page is left *)

Lemma performAll_unmounted s acts :
  mounted s = false -> timer s = None ->
  comp (performAll s acts) = comp s
  /\ mounted (performAll s acts) = false
  /\ timer (performAll s acts) = None.
Proof.
  revert s. induction acts as [|a acts IH]; intros s Hm Ht; [done|].
  rewrite performAll_cons.
  destruct (IH (perform s a)) as (-> & -> & ->).
  - by apply perform_mounted_false.
  - destruct (perform_timer s a) as [[-> _]|[-> _]]; done.
  - split; [by apply perform_unmounted_comp|done].
Qed.

Lemma countEvents_Called p acts A (req : Request A) tr :
  (forall a, p (Did a) = false) ->
  countEvents p ((tr ++ (Did <$> acts)) ++ [Called req])
  = (countEvents p tr + if p (Called req) then 1 else 0)%nat.
Proof.
  intros H. rewrite countEvents_snoc, countEvents_app, countEvents_Did by done.
  lia.
Qed.

(** A function resumed in an unmounted component changes nothing of the
    state, and it invokes nothing. *)
Lemma launch_unmounted b s a :
  mounted s = false -> timer s = None ->
  comp (launch b s a) = comp s
  /\ mounted (launch b s a) = false
  /\ timer (launch b s a) = None
  /\ countEvents isInvoked (log (launch b s a)) = countEvents isInvoked (log s).
Proof.
  intros Hm Ht. destruct (performAll_unmounted s) with (acts :=
    match a with Return acts | Await acts _ _ => acts end) as (Hc & Hm' & Ht');
    [done..|].
  destruct a as [acts|acts A req k]; simpl.
  - rewrite performAll_log, countEvents_app, countEvents_Did by done.
    repeat split; try done; lia.
  - rewrite performAll_log, countEvents_Called by done. simpl.
    repeat split; try done; lia.
Qed.

Lemma step_unmounted b s i :
  mounted s = false -> timer s = None ->
  comp (step b s i) = comp s
  /\ mounted (step b s i) = false
  /\ timer (step b s i) = None
  /\ countEvents isInvoked (log (step b s i)) = countEvents isInvoked (log s).
Proof.
  intros Hm Ht. destruct i; cbv beta iota delta [step]; rewrite ?Hm; try done.
  - by rewrite tick_idle.
  - destruct (pending s !! n) as [a|]; [|done].
    by apply (launch_unmounted b (setPending s (delete n (pending s))) a).
Qed.

(** X14.  Once a session reached from a mount has left the page, no
    timeout is pending and nothing that happens afterwards (ticks, clicks,
    late replies to calls that were under way) changes the component state
    or invokes [handleSubmitQuiz] or makes an update call: there is no
    stray submission after the session has ended. *)
Theorem nothing_after_leaving (b : Backend) (aid uid : option string)
    (ins later : list Input) :
  let s := steps b (mount b aid uid) ins in
  let s' := steps b s later in
  mounted s = false ->
  timer s = None
  /\ comp s' = comp s
  /\ mounted s' = false
  /\ countEvents isInvoked (log s') = countEvents isInvoked (log s)
  /\ countEvents isUpdate (log s') = countEvents isUpdate (log s).
Proof.
  cbv zeta. intros Hm.
  assert (timer (steps b (mount b aid uid) ins) = None) as Ht.
  { destruct (timer _) as [c|] eqn:Ht; [|done].
    destruct (inv_armed _ (steps_inv b ins _ (mount_inv b aid uid)) c Ht)
      as (_ & _ & Hm'). congruence. }
  split; [done|].
  pose proof (reachable_pending_NoUpdate b aid uid ins) as Hp.
  revert Hm Ht Hp. generalize (steps b (mount b aid uid) ins). clear ins.
  induction later as [|i later IH]; intros s Hm Ht Hp; [done|].
  rewrite steps_cons.
  destruct (step_unmounted b s i Hm Ht) as (Hc & Hm' & Ht' & Hinv).
  destruct (IH (step b s i)) as (-> & -> & -> & ->);
    [done|done|by apply step_pending_NoUpdate|].
  repeat split; try done.
  (* no update call: a reply resumes a function without update call, and a
     click does nothing *)
  destruct i; cbv beta iota delta [step]; rewrite ?Hm; try done.
  - by rewrite tick_idle.
  - destruct (pending s !! n) as [a|] eqn:Ha; [|done].
    apply (launch_NoUpdate b (setPending s (delete n (pending s))) a).
    + by eapply Forall_lookup_1.
    + by apply Forall_delete.
Qed.

Lemma nothing_after_leaving_witness :
  let s := steps sampleBackend
             (mount sampleBackend (Some "attempt-1") (Some "student-2"))
             [Reply 0] in
  let s' := steps sampleBackend s [Tick; ClickSubmit; Reply 0] in
  mounted s = false
  /\ timer s = None
  /\ comp s' = comp s.
Proof.
  cbv zeta. split; [reflexivity|].
  destruct (nothing_after_leaving sampleBackend (Some "attempt-1")
              (Some "student-2") [Reply 0] [Tick; ClickSubmit; Reply 0])
    as (H1 & H2 & _); [reflexivity|].
  split; [exact H1|exact H2].
Defined.

(** * The question on the screen *)

(** X15.  Whenever a session reached from a mount shows a quiz, the cursor
    lies within [0, questionCount - 1] and [questions[currentQuestionIndex]]
    is a question of the quiz: the render never reads an undefined
    current question. *)
Theorem shown_question_exists (b : Backend) (aid uid : option string)
    (ins : list Input) :
  let s := steps b (mount b aid uid) ins in
  match render (comp s) with
  | SessionView currentQuestion =>
      cursorInRange (comp s)
      /\ exists q, currentQuestion = Some q /\ q ∈ questions (comp s)
                   /\ questions (comp s) !! Z.to_nat (currentQuestionIndex (comp s))
                      = Some q
  | _ => True
  end.
Proof.
  cbv zeta. destruct (render _) as [| |cq] eqn:Hv; try done.
  destruct (reachable_cursor_in_range b aid uid ins cq Hv) as [Hr [q ->]].
  split; [done|]. exists q. split; [done|].
  unfold render in Hv. destruct (loading _); [done|].
  destruct (quiz _); [|done]. destruct (questions _) eqn:Hq; [done|].
  injection Hv as Hv. case_bool_decide; [|done].
  split; [|done]. by eapply list_elem_of_lookup_2.
Qed.

(** * Mount and load: the other ways *)

(** X16.  Without an attempt id (undefined or the empty string) or without
    a user, the component navigates to the quiz list as soon as it is
    mounted: it makes no query, raises no toast, leaves no timeout pending,
    and nothing that happens later changes this. *)
Theorem mount_without_parameters (b : Backend) (aid uid : option string)
    (ins : list Input) :
  truthyString aid = false \/ uid = None ->
  steps b (mount b aid uid) ins
  = mkSession aid uid initialState None [] false [Did (Navigate "/quizzes")].
Proof.
  intros H. rewrite mount_missing by done.
  induction ins as [|i ins IH]; [done|].
  by rewrite steps_cons, terminated_stays.
Qed.

Lemma mount_without_parameters_witness :
  (truthyString (Some "") = false \/ Some "student-1" = None)
  /\ steps sampleBackend (mount sampleBackend (Some "") (Some "student-1"))
       [Tick; Reply 0; ClickSubmit]
     = mkSession (Some "") (Some "student-1") initialState None [] false
         [Did (Navigate "/quizzes")].
Proof.
  split; [left; reflexivity|].
  apply mount_without_parameters. left. reflexivity.
Defined.

(** The load when the attempt is found and its quiz is not. *)
Lemma load_quiz_failed b aid uid att e :
  truthyString aid = true ->
  select_attempt (db b) aid uid = Ok att ->
  select_quiz (db b) (QuizAttempt.quiz_id att) = Err e ->
  steps b (mount b aid (Some uid)) [Reply 0; Reply 0]
  = mkSession aid (Some uid)
      (mkState (Some att) None [] 0 ∅ 1800 false true)
      None [] false
      [Called (SelectAttempt aid uid);
       Did (SetAttempt att);
       Called (SelectQuiz (QuizAttempt.quiz_id att));
       Did (ConsoleError "Error fetching quiz:");
       Did (Toast (ToastError "Failed to load quiz"));
       Did (Navigate "/quizzes");
       Did (SetLoading false)].
Proof.
  intros Haid Hsel Hquiz. rewrite mount_loading by done. rewrite Hsel.
  unfold steps. simpl. rewrite Hquiz. reflexivity.
Qed.

(** X17.  When the attempt is found but its quiz is not, the load fails
    after the second query: the attempt is already set, the quiz and the
    questions are not, the error toast "Failed to load quiz" is raised and
    the component navigates to the quiz list, which ends the session. *)
Theorem missing_quiz_not_loaded (b : Backend) (aid uid : string)
    (att : QuizAttempt.t) (e : PgError) :
  aid <> "" ->
  select_attempt (db b) (Some aid) uid = Ok att ->
  select_quiz (db b) (QuizAttempt.quiz_id att) = Err e ->
  let s := steps b (mount b (Some aid) (Some uid)) [Reply 0; Reply 0] in
  attempt (comp s) = Some att
  /\ quiz (comp s) = None
  /\ questions (comp s) = []
  /\ log s = [Called (SelectAttempt (Some aid) uid);
              Did (SetAttempt att);
              Called (SelectQuiz (QuizAttempt.quiz_id att));
              Did (ConsoleError "Error fetching quiz:");
              Did (Toast (ToastError "Failed to load quiz"));
              Did (Navigate "/quizzes");
              Did (SetLoading false)]
  /\ mounted s = false
  /\ (forall ins, steps b s ins = s).
Proof.
  intros Haid Hsel Hquiz. cbv zeta.
  rewrite (load_quiz_failed b (Some aid) uid att e)
    by (done || by apply truthyString_Some).
  repeat split; try done.
  induction ins as [|i ins IH]; [done|].
  by rewrite steps_cons, terminated_stays.
Qed.

Lemma missing_quiz_not_loaded_witness :
  let s := steps orphanBackend
             (mount orphanBackend (Some "attempt-9") (Some "student-1"))
             [Reply 0; Reply 0] in
  "attempt-9" <> ""
  /\ select_attempt (db orphanBackend) (Some "attempt-9") "student-1"
     = Ok orphanAttempt
  /\ select_quiz (db orphanBackend) (QuizAttempt.quiz_id orphanAttempt)
     = Err NotFoundError
  /\ attempt (comp s) = Some orphanAttempt
  /\ quiz (comp s) = None
  /\ mounted s = false.
Proof.
  cbv zeta. split; [discriminate|]. split; [reflexivity|]. split; [reflexivity|].
  destruct (missing_quiz_not_loaded orphanBackend "attempt-9" "student-1"
              orphanAttempt NotFoundError)
    as (H1 & H2 & _ & _ & H5 & _); [discriminate|reflexivity|reflexivity|].
  split; [exact H1|]. split; [exact H2|exact H5].
Defined.

(** X18.  After a successful load of a quiz with at least one question,
    however long the two queries took ([k1] and [k2] seconds, together
    less than the 1800 of the countdown), the session is in [Ready] on the
    first question: no option of any question is selected, Previous does
    nothing, the load has raised no toast and has not navigated.  The
    pending timeout carries what is left of the 1800 seconds of the mount,
    [1800 - k1 - k2]: the time that the load took is gone, the load does
    not set the countdown back. *)
Theorem loaded_quiz_is_ready (b : Backend) (aid uid : string)
    (att : QuizAttempt.t) (Q : Quiz.t) (first : Question.t)
    (rest : list Question.t) (k1 k2 : nat) :
  aid <> "" ->
  select_attempt (db b) (Some aid) uid = Ok att ->
  select_quiz (db b) (QuizAttempt.quiz_id att) = Ok Q ->
  loadedQuestions Q = first :: rest ->
  Z.of_nat k1 + Z.of_nat k2 < 1800 ->
  let s := steps b (mount b (Some aid) (Some uid)) (slowLoad k1 k2) in
  phase (comp s) = Ready
  /\ render (comp s) = SessionView (Some first)
  /\ quiz (comp s) = Some Q
  /\ questions (comp s) = first :: rest
  /\ (forall q o, isSelected (comp s) q o = false)
  /\ step b s ClickPrevious = s
  /\ countEvents isToast (log s) = 0%nat
  /\ countEvents isNavigate (log s) = 0%nat
  /\ countEvents isInvoked (log s) = 0%nat
  /\ timer s = Some (1800 - Z.of_nat k1 - Z.of_nat k2)
  /\ timeLeft (comp s) = 1800 - Z.of_nat k1 - Z.of_nat k2.
Proof.
  intros Haid Hsel Hquiz Hqs Hk. cbv zeta.
  rewrite (slow_load_succeeded b (Some aid) uid att Q)
    by (done || by apply truthyString_Some).
  rewrite Hqs. cbn [log].
  rewrite !countEvents_app, !countEvents_ticking by done.
  repeat split; try done.
Qed.

Lemma loaded_quiz_is_ready_witness :
  let s := steps sampleBackend
             (mount sampleBackend (Some "attempt-1") (Some "student-1"))
             (slowLoad 3 2) in
  "attempt-1" <> ""
  /\ select_attempt (db sampleBackend) (Some "attempt-1") "student-1"
     = Ok sampleAttempt
  /\ select_quiz (db sampleBackend) (QuizAttempt.quiz_id sampleAttempt)
     = Ok dailyQuiz
  /\ loadedQuestions dailyQuiz
     = sampleQuestion "q1" "A"
       :: [sampleQuestion "q2" "B"; sampleQuestion "q3" "C"; sampleQuestion "q4" "D"]
  /\ Z.of_nat 3 + Z.of_nat 2 < 1800
  /\ phase (comp s) = Ready
  /\ render (comp s) = SessionView (Some (sampleQuestion "q1" "A"))
  /\ timeLeft (comp s) = 1800 - Z.of_nat 3 - Z.of_nat 2.
Proof.
  cbv zeta. split; [discriminate|]. do 3 (split; [reflexivity|]).
  split; [reflexivity|].
  destruct (loaded_quiz_is_ready sampleBackend "attempt-1" "student-1"
              sampleAttempt dailyQuiz (sampleQuestion "q1" "A")
              [sampleQuestion "q2" "B"; sampleQuestion "q3" "C";
               sampleQuestion "q4" "D"] 3 2)
    as (H1 & H2 & _ & _ & _ & _ & _ & _ & _ & _ & H11);
    [discriminate|reflexivity..|].
  split; [exact H1|]. split; [exact H2|exact H11].
Defined.

(** A load that takes five seconds leaves 1795 seconds. *)
Example slow_load_countdown :
  let s := steps sampleBackend
             (mount sampleBackend (Some "attempt-1") (Some "student-1"))
             (slowLoad 3 2) in
  phase (comp s) = Ready /\ timer s = Some 1795 /\ timeLeft (comp s) = 1795.
Proof. by vm_compute. Qed.

(** * A submission from start to end *)

Lemma replay_app s tr tr' : replay s (tr ++ tr') = replay (replay s tr) tr'.
Proof. unfold replay. apply foldl_app. Qed.

Lemma replay_Did s acts : replay s (Did <$> acts) = performAll s acts.
Proof.
  revert s. induction acts as [|a acts IH]; intros s; [done|].
  rewrite performAll_cons, <- IH. reflexivity.
Qed.

Lemma replay_Called s A (req : Request A) tr :
  replay s (Called req :: tr) = replay (record s (Called req)) tr.
Proof. reflexivity. Qed.

Lemma resume_only_pending b s a :
  pending s = [] -> step b (suspend s a) (Reply 0) = launch b s a.
Proof.
  intros Hp. cbv beta iota delta [step]. unfold suspend. cbn [pending].
  rewrite Hp. cbn. f_equal. unfold setPending. cbn. rewrite <- Hp. by destruct s.
Qed.

(** The event loop and the sequential reading agree: a function started
    with nothing else suspended, and resumed at each of its [await]s, goes
    through exactly the trace that [run] gives. *)
Lemma launch_replies b a : forall s,
  pending s = [] ->
  steps b (launch b s a) (replicate (awaits b a) (Reply 0)) = replay s (run b a).
Proof.
  induction a as [acts|acts A req k IH]; intros s Hp.
  - simpl. by rewrite replay_Did.
  - cbn [awaits replicate run]. rewrite steps_cons.
    rewrite replay_app, replay_Did, replay_Called.
    assert (pending (record (performAll s acts) (Called req)) = []) as Hp'
      by (unfold record; cbn [pending]; by rewrite performAll_pending).
    rewrite <- IH by done.
    f_equal. cbn [launch]. by apply resume_only_pending.
Qed.

Lemma replay_cons s e tr :
  replay s (e :: tr)
  = replay (match e with Did a => perform s a | _ => record s e end) tr.
Proof. reflexivity. Qed.

Lemma replay_log tr : forall s, log (replay s tr) = log s ++ tr.
Proof.
  induction tr as [|e tr IH]; intros s; [by rewrite app_nil_r|].
  rewrite replay_cons, IH.
  destruct e; rewrite ?perform_log; simpl; by rewrite <- app_assoc.
Qed.

(** Entries that are calls or invocations only add to the log. *)
Lemma replay_quiet tr : forall s,
  Forall (fun e => isDid e = false) tr ->
  replay s tr
  = mkSession (attemptId s) (user s) (comp s) (timer s) (pending s) (mounted s)
      (log s ++ tr).
Proof.
  induction tr as [|e tr IH]; intros s H.
  - rewrite app_nil_r. by destruct s.
  - inversion H as [|? ? He Htr]; subst. rewrite replay_cons.
    destruct e; [done|..]; rewrite IH by done; simpl; by rewrite <- app_assoc.
Qed.

Lemma trackCalls_quiet aid sel qs :
  Forall (fun e => isDid e = false) (trackCall aid sel <$> qs).
Proof. induction qs; constructor; done. Qed.

(** The loop over the questions when every activity-log call resolves:
    one call per question, in the order of the quiz, then the success toast
    and the navigation. *)
Lemma run_trackQuestions_resolved b aid st finalScore qs :
  Forall (fun q => track_outcome b aid (Question.id q) = Resolved) qs ->
  run b (trackQuestions aid st finalScore qs)
  = (trackCall aid (selectedAnswers st) <$> qs)
    ++ [Did (Toast (ToastCompleted finalScore (shownMaxScore (quiz st))));
        Did (Navigate "/quizzes"); Did (SetIsSubmitting false)]
  /\ awaits b (trackQuestions aid st finalScore qs) = length qs.
Proof.
  induction 1 as [|q qs Hq _ [IHrun IHn]]; [done|].
  cbn [trackQuestions run awaits answer fmap list_fmap app].
  rewrite Hq. by rewrite IHrun, IHn.
Qed.


(** A click on Submit in [Ready] on the last question invokes
    [handleSubmitQuiz]. *)
Lemma ClickSubmit_invokes b s :
  mounted s = true ->
  phase (comp s) = Ready ->
  currentQuestionIndex (comp s) = questionCount (comp s) - 1 ->
  step b s ClickSubmit = invokeSubmit b ByClick s.
Proof.
  intros Hm Hph Hlast. cbv beta iota delta [step]. rewrite Hm.
  pose proof (phase_Ready_idle _ Hph) as Hs. unfold phase in Hph.
  destruct (render (comp s)) as [| |[q|]]; try done;
    rewrite bool_decide_eq_true_2 by done; by rewrite Hs.
Qed.

(** X19.  A submission that succeeds, from the click to its end: in
    [Ready] on the last question with nothing else under way, when the
    update and every activity-log call succeed, the click on Submit and the
    replies that follow give, in this order: the flag set, one update call
    with the computed score and the selection mapping, one activity-log
    call for each question in the order of the quiz (with the selection of
    the question; without selection with the empty string, or with the
    inherited member when the id of the question is a name of
    [Object.prototype]; and with whether this is the correct answer), the
    toast with that same score and the shown maximum, and the navigation
    to the quiz list.  Then the session is over: the component
    is unmounted, no timeout is pending and nothing is suspended. *)
Theorem submission_succeeds (b : Backend) (s : Session) :
  mounted s = true ->
  phase (comp s) = Ready ->
  currentQuestionIndex (comp s) = questionCount (comp s) - 1 ->
  pending s = [] ->
  update_outcome b (attemptId s) (calculateScore (comp s))
    (selectedAnswers (comp s)) = None ->
  Forall (fun q => track_outcome b (attemptId s) (Question.id q) = Resolved)
    (questions (comp s)) ->
  let replies := replicate (S (length (questions (comp s)))) (Reply 0) in
  let s' := steps b s (ClickSubmit :: replies) in
  log s'
  = log s
    ++ [Invoked ByClick; Did (SetIsSubmitting true);
        Called (UpdateAttempt (attemptId s) (calculateScore (comp s))
                  (selectedAnswers (comp s)))]
    ++ (trackCall (attemptId s) (selectedAnswers (comp s)) <$> questions (comp s))
    ++ [Did (Toast (ToastCompleted (calculateScore (comp s))
                      (shownMaxScore (quiz (comp s)))));
        Did (Navigate "/quizzes"); Did (SetIsSubmitting false)]
  /\ mounted s' = false
  /\ timer s' = None
  /\ pending s' = [].
Proof.
  intros Hm Hph Hlast Hp Hupd Htrack. cbv zeta.
  pose proof (phase_Ready_idle _ Hph) as Hs.
  destruct (run_trackQuestions_resolved b (attemptId s) (comp s)
              (calculateScore (comp s)) _ Htrack) as [Hrun Hn].
  rewrite steps_cons, ClickSubmit_invokes by done. unfold invokeSubmit.
  assert (awaits b (handleSubmitQuiz (attemptId s) (comp s))
          = S (length (questions (comp s)))) as <-.
  { rewrite handleSubmitQuiz_idle by done. cbn [awaits answer].
    unfold afterUpdate. by rewrite Hupd, Hn. }
  rewrite launch_replies by done.
  rewrite handleSubmitQuiz_idle by done. cbn [run answer fmap list_fmap app].
  unfold afterUpdate. rewrite Hupd, Hrun.
  rewrite !replay_cons. cbn [perform]. rewrite replay_app.
  rewrite (replay_quiet (trackCall _ _ <$> _)) by apply trackCalls_quiet.
  cbn. split; [by rewrite <- !app_assoc|]. by rewrite Hp.
Qed.

Lemma submission_succeeds_witness :
  let s := readySession dailyQuiz threeOfFour 3 1800 in
  let s' := steps sampleBackend s (ClickSubmit :: replicate 5 (Reply 0)) in
  mounted s = true
  /\ phase (comp s) = Ready
  /\ currentQuestionIndex (comp s) = questionCount (comp s) - 1
  /\ pending s = []
  /\ update_outcome sampleBackend (attemptId s) (calculateScore (comp s))
       (selectedAnswers (comp s)) = None
  /\ Forall (fun q => track_outcome sampleBackend (attemptId s) (Question.id q)
                      = Resolved) (questions (comp s))
  /\ mounted s' = false
  /\ timer s' = None.
Proof.
  cbv zeta. do 5 (split; [reflexivity|]).
  assert (Forall (fun q => track_outcome sampleBackend (Some "attempt-1")
                             (Question.id q) = Resolved)
            (questions (comp (readySession dailyQuiz threeOfFour 3 1800)))) as H
    by (repeat constructor).
  split; [exact H|].
  destruct (submission_succeeds sampleBackend
              (readySession dailyQuiz threeOfFour 3 1800))
    as (_ & H2 & H3 & _); [reflexivity..|exact H|].
  split; [exact H2|exact H3].
Defined.

Example submission_log :
  log (steps sampleBackend (readySession dailyQuiz threeOfFour 3 1800)
         (ClickSubmit :: replicate 5 (Reply 0)))
  = [Invoked ByClick; Did (SetIsSubmitting true);
     Called (UpdateAttempt (Some "attempt-1") 75 threeOfFour);
     Called (TrackQuizQuestion (Some "attempt-1") "q1" "?" (AnswerString "A") "A" true);
     Called (TrackQuizQuestion (Some "attempt-1") "q2" "?" (AnswerString "B") "B" true);
     Called (TrackQuizQuestion (Some "attempt-1") "q3" "?" (AnswerString "C") "C" true);
     Called (TrackQuizQuestion (Some "attempt-1") "q4" "?" (AnswerString "A") "D" false);
     Did (Toast (ToastCompleted 75 100));
     Did (Navigate "/quizzes"); Did (SetIsSubmitting false)].
Proof. vm_compute. reflexivity. Qed.

Lemma commit1_submitting_round_trip st :
  isSubmitting st = false ->
  commit1 (commit1 st (SetIsSubmitting true)) (SetIsSubmitting false) = st.
Proof. intros H. destruct st. simpl in *. by subst. Qed.






(** * The outcome log and the score *)

Lemma countEvents_cons p e tr :
  countEvents p (e :: tr) = ((if p e then 1 else 0) + countEvents p tr)%nat.
Proof.
  change (e :: tr) with ([e] ++ tr). rewrite countEvents_app. f_equal.
  change [e] with ([] ++ [e]). by rewrite countEvents_snoc.
Qed.

Lemma countEvents_trackCalls aid sel qs :
  countEvents isTrackedCorrect (trackCall aid sel <$> qs)
  = length (filter (fun q => answerIs (studentAnswerOf sel q)
                               (Question.correct_answer q) = true) qs).
Proof.
  induction qs as [|q qs IH]; [done|].
  rewrite fmap_cons, countEvents_cons, IH. simpl.
  destruct (answerIs _ _) eqn:E.
  - by rewrite filter_cons_True.
  - rewrite filter_cons_False; [done|]. by rewrite E.
Qed.

Lemma answeredCorrectly_logged sel q :
  answeredCorrectly sel q ->
  answerIs (studentAnswerOf sel q) (Question.correct_answer q) = true.
Proof.
  unfold answeredCorrectly, studentAnswerOf. intros ->. simpl.
  by apply bool_decide_eq_true_2.
Qed.

Lemma logged_answeredCorrectly sel q :
  Question.correct_answer q <> "" ->
  answerIs (studentAnswerOf sel q) (Question.correct_answer q) = true ->
  answeredCorrectly sel q.
Proof.
  unfold answeredCorrectly, studentAnswerOf. intros Hne.
  destruct (sel !! Question.id q) as [a|]; simpl.
  - intros H. apply bool_decide_eq_true_1 in H. by rewrite H.
  - case_bool_decide as Hin; simpl; [discriminate|].
    intros Heq. apply bool_decide_eq_true_1 in Heq. by destruct Hne.
Qed.

Lemma filter_length_le {A} (P Q : A -> Prop) `{!forall x, Decision (P x)}
    `{!forall x, Decision (Q x)} (l : list A) :
  Forall (fun x => P x -> Q x) l ->
  (length (filter P l) <= length (filter Q l))%nat.
Proof.
  induction 1 as [|x l Hx _ IH]; [done|].
  destruct (decide (P x)) as [HP|HP].
  - rewrite (filter_cons_True P), (filter_cons_True Q) by auto. simpl. lia.
  - rewrite (filter_cons_False P) by done.
    destruct (decide (Q x)).
    + rewrite (filter_cons_True Q) by done. simpl. lia.
    + by rewrite (filter_cons_False Q).
Qed.

(** X22.  In a submission that succeeds there is one activity-log call
    for each question, and the number of these calls that report a correct
    answer, times the point value, is never less than the score written;
    the two are equal when no question has the empty string as its correct
    answer.  (The call for a question without selection reports the empty
    string as the student's answer, or the inherited member when the id of
    the question is a name of [Object.prototype]; the empty string is
    reported as correct when the correct answer is empty, while the score
    does not count the question.) *)
Theorem logged_outcomes_match_score (b : Backend) (aid : option string)
    (st : State) :
  isSubmitting st = false ->
  update_outcome b aid (calculateScore st) (selectedAnswers st) = None ->
  Forall (fun q => track_outcome b aid (Question.id q) = Resolved) (questions st) ->
  let reported :=
    Z.of_nat (countEvents isTrackedCorrect (run b (handleSubmitQuiz aid st))) in
  calculateScore st <= reported * pointsPerQuestion (quiz st)
  /\ (Forall (fun q => Question.correct_answer q <> "") (questions st) ->
      calculateScore st = reported * pointsPerQuestion (quiz st))
  /\ countEvents isTrack (run b (handleSubmitQuiz aid st)) = length (questions st).
Proof.
  intros Hs Hupd Htrack. cbv zeta.
  destruct (run_trackQuestions_resolved b aid st (calculateScore st) _ Htrack)
    as [Hrun _].
  rewrite handleSubmitQuiz_idle by done. cbn [run answer fmap list_fmap app].
  unfold afterUpdate. rewrite Hupd, Hrun.
  rewrite !countEvents_cons, !countEvents_app, countEvents_trackCalls.
  cbn [isTrackedCorrect isTrack isUpdateRequest].
  assert (countEvents isTrackedCorrect
            [Did (Toast (ToastCompleted (calculateScore st) (shownMaxScore (quiz st))));
             Did (Navigate "/quizzes"); Did (SetIsSubmitting false)] = 0%nat)
    as -> by reflexivity.
  assert (countEvents isTrack
            [Did (Toast (ToastCompleted (calculateScore st) (shownMaxScore (quiz st))));
             Did (Navigate "/quizzes"); Did (SetIsSubmitting false)] = 0%nat)
    as -> by reflexivity.
  assert (countEvents isTrack (trackCall aid (selectedAnswers st) <$> questions st)
          = length (questions st)) as ->.
  { clear. induction (questions st) as [|q qs IH]; [done|].
    rewrite fmap_cons, countEvents_cons, IH. done. }
  unfold calculateScore. rewrite forEach_counts.
  assert (pointsPerQuestion (quiz st) = 8 \/ pointsPerQuestion (quiz st) = 25) as Hp.
  { unfold pointsPerQuestion. destruct (quiz st); [case_bool_decide|]; auto. }
  split; [|split; [|simpl; lia]].
  - assert (length (filter (answeredCorrectly (selectedAnswers st)) (questions st))
            <= length (filter (fun q => answerIs (studentAnswerOf (selectedAnswers st) q)
                                          (Question.correct_answer q) = true)
                         (questions st)))%nat as H.
    { apply filter_length_le. apply Forall_forall. intros q _.
      apply answeredCorrectly_logged. }
    simpl. destruct Hp as [-> | ->]; lia.
  - intros Hne.
    assert (length (filter (answeredCorrectly (selectedAnswers st)) (questions st))
            = length (filter (fun q => answerIs (studentAnswerOf (selectedAnswers st) q)
                                         (Question.correct_answer q) = true)
                        (questions st))) as H.
    { apply Nat.le_antisymm; apply filter_length_le; apply Forall_forall.
      - intros q _. apply answeredCorrectly_logged.
      - intros q Hq. apply logged_answeredCorrectly.
        by apply (proj1 (Forall_forall _ _) Hne). }
    simpl. destruct Hp as [-> | ->]; lia.
Qed.

Lemma logged_outcomes_match_score_witness :
  let st := loadedState dailyQuiz threeOfFour 3 in
  let reported :=
    Z.of_nat (countEvents isTrackedCorrect
                (run sampleBackend (handleSubmitQuiz (Some "attempt-1") st))) in
  isSubmitting st = false
  /\ calculateScore st = reported * pointsPerQuestion (quiz st).
Proof.
  cbv zeta. split; [reflexivity|].
  destruct (logged_outcomes_match_score sampleBackend (Some "attempt-1")
              (loadedState dailyQuiz threeOfFour 3))
    as (_ & H & _); [reflexivity|reflexivity|repeat constructor|].
  apply H. repeat constructor; discriminate.
Defined.

(** A question whose correct answer is the empty string and that was left
    unanswered is reported as correct to the activity log, while the score
    written does not count it. *)
Example unanswered_unkeyed_question_logged_correct :
  let st := loadedState unkeyedQuiz ∅ 1 in
  calculateScore st = 0
  /\ countEvents isTrackedCorrect
       (run sampleBackend (handleSubmitQuiz (Some "attempt-1") st)) = 1%nat.
Proof. by vm_compute. Qed.

(** An unanswered question whose id is a name of [Object.prototype]: the
    call reports the inherited member, not the empty string, and reports
    it as wrong even when the correct answer is empty. *)
Example inherited_member_is_logged :
  let q := sampleQuestion "constructor" "" in
  let unselected := sampleQuestion "q7" "" in
  studentAnswerOf ∅ q = InheritedMember "constructor"
  /\ trackCall (Some "attempt-1") ∅ q
     = Called (TrackQuizQuestion (Some "attempt-1") "constructor" "?"
                 (InheritedMember "constructor") "" false)
  /\ studentAnswerOf (<["constructor" := "B"]> ∅) q = AnswerString "B"
  /\ trackCall (Some "attempt-1") ∅ unselected
     = Called (TrackQuizQuestion (Some "attempt-1") "q7" "?"
                 (AnswerString "") "" true).
Proof. by vm_compute. Qed.

(** * The selection in every reachable session *)

Lemma perform_keepsSelection s a :
  keepsSelection a = true ->
  questions (comp (perform s a)) = questions (comp s)
  /\ selectedAnswers (comp (perform s a)) = selectedAnswers (comp s).
Proof. destruct a; try discriminate; intros _; simpl; by destruct (mounted s). Qed.

Lemma perform_keepsAnswers s a :
  keepsAnswers a = true ->
  selectedAnswers (comp (perform s a)) = selectedAnswers (comp s).
Proof. destruct a; try discriminate; intros _; simpl; by destruct (mounted s). Qed.

Lemma performAll_keepsSelection s acts :
  Forall (fun a => keepsSelection a = true) acts ->
  questions (comp (performAll s acts)) = questions (comp s)
  /\ selectedAnswers (comp (performAll s acts)) = selectedAnswers (comp s).
Proof.
  intros H. revert s. induction H as [|a acts Ha _ IH]; intros s; [done|].
  rewrite performAll_cons.
  destruct (IH (perform s a)) as [-> ->]. by apply perform_keepsSelection.
Qed.

Lemma performAll_keepsAnswers s acts :
  Forall (fun a => keepsAnswers a = true) acts ->
  selectedAnswers (comp (performAll s acts)) = selectedAnswers (comp s).
Proof.
  intros H. revert s. induction H as [|a acts Ha _ IH]; intros s; [done|].
  rewrite performAll_cons, IH. by apply perform_keepsAnswers.
Qed.

Lemma validSelection_empty st : selectedAnswers st = ∅ -> validSelection st.
Proof. intros H k v. rewrite H. by rewrite lookup_empty. Qed.

Lemma validSelection_same st st' :
  questions st' = questions st -> selectedAnswers st' = selectedAnswers st ->
  validSelection st -> validSelection st'.
Proof. unfold validSelection. by intros -> ->. Qed.

Lemma OneFetching_snoc_Calm l a :
  OneFetching l -> Calm a -> OneFetching (l ++ [a]).
Proof.
  intros H Ha. induction H as [x l Hx Hl|x l Hx _ IH]; simpl.
  - constructor; [done|]. apply Forall_app. split; [done|]. by constructor.
  - by apply OneFetching_later.
Qed.

Lemma OneFetching_snoc_Fetching l a :
  Forall Calm l -> Fetching a -> OneFetching (l ++ [a]).
Proof.
  intros H Ha. induction H as [|x l Hx _ IH]; simpl.
  - by constructor.
  - by apply OneFetching_later.
Qed.

Lemma OneFetching_delete l : forall n a,
  OneFetching l -> l !! n = Some a ->
  (Calm a /\ OneFetching (delete n l)) \/ (Fetching a /\ Forall Calm (delete n l)).
Proof.
  intros n a H. revert n. induction H as [x l Hx Hl|x l Hx Hl IH]; intros [|n] Hn;
    simpl in *.
  - injection Hn as <-. by right.
  - left. split; [by eapply Forall_lookup_1|].
    constructor; [done|]. by apply Forall_delete.
  - injection Hn as <-. by left.
  - destruct (IH _ Hn) as [[Ha Hrest]|[Ha Hrest]].
    + left. split; [done|]. by apply OneFetching_later.
    + right. split; [done|]. by constructor.
Qed.

Lemma Calm_trackQuestions aid st finalScore qs :
  Calm (trackQuestions aid st finalScore qs).
Proof.
  induction qs as [|q qs IH]; simpl.
  - constructor. repeat constructor.
  - constructor; [constructor|]. intros [|]; [exact IH|].
    constructor. repeat constructor.
Qed.

Lemma Calm_handleSubmitQuiz aid st : Calm (handleSubmitQuiz aid st).
Proof.
  unfold handleSubmitQuiz. destruct (isSubmitting st).
  - constructor. constructor.
  - constructor; [repeat constructor|]. intros [e|].
    + constructor. repeat constructor.
    + apply Calm_trackQuestions.
Qed.

Lemma performAll_selection s acts :
  SelectionInv s -> Forall (fun a => keepsSelection a = true) acts ->
  SelectionInv (performAll s acts).
Proof.
  intros [Hst Hp] Hacts.
  destruct (performAll_keepsSelection s acts Hacts) as [Hq Hi].
  constructor.
  - by apply (validSelection_same (comp s)).
  - by rewrite performAll_pending, Hq, Hi.
Qed.

Lemma launch_Calm_selection b s a :
  SelectionInv s -> Calm a -> SelectionInv (launch b s a).
Proof.
  intros Hinv Ha. destruct Ha as [acts Hacts|acts A req k Hacts Hk]; simpl.
  - by apply performAll_selection.
  - destruct Hinv as [Hst Hp].
    destruct (performAll_keepsSelection s acts Hacts) as [Hq Hi].
    constructor; simpl.
    + by apply (validSelection_same (comp s)).
    + rewrite performAll_pending, Hq, Hi.
      destruct Hp as [Hp|(Hqs & Hsel & Hp)].
      * left. apply Forall_app. split; [done|]. by constructor.
      * right. split; [done|]. split; [done|]. by apply OneFetching_snoc_Calm.
Qed.

Lemma launch_Fetching_selection b s a :
  questions (comp s) = [] -> selectedAnswers (comp s) = ∅ ->
  Forall Calm (pending s) -> Fetching a ->
  SelectionInv (launch b s a).
Proof.
  intros Hqs Hsel Hp Ha. destruct Ha as [acts Hacts|acts A req k Hacts Hk]; simpl.
  - constructor.
    + apply validSelection_empty. by rewrite performAll_keepsAnswers.
    + left. by rewrite performAll_pending.
  - destruct (performAll_keepsSelection s acts Hacts) as [Hq Hi].
    constructor; simpl.
    + apply validSelection_empty. by rewrite Hi.
    + right. rewrite performAll_pending, Hq, Hi.
      split; [done|]. split; [done|]. by apply OneFetching_snoc_Fetching.
Qed.

Lemma record_selection s e : SelectionInv s -> SelectionInv (record s e).
Proof. by intros []. Qed.

Lemma setTimer_selection s t : SelectionInv s -> SelectionInv (setTimer s t).
Proof. by intros []. Qed.

Lemma invokeSubmit_selection b who s :
  SelectionInv s -> SelectionInv (invokeSubmit b who s).
Proof.
  intros Hinv. unfold invokeSubmit.
  apply launch_Calm_selection; [by apply record_selection|apply Calm_handleSubmitQuiz].
Qed.

Lemma tick_selection b s : SelectionInv s -> SelectionInv (tick b s).
Proof.
  intros Hinv. unfold tick. destruct (timer s) as [c|]; [|done].
  assert (SelectionInv (perform (setTimer s None) (SetTimeLeft (c - 1)))) as H.
  { change (SelectionInv (performAll (setTimer s None) [SetTimeLeft (c - 1)])).
    apply performAll_selection; [by apply setTimer_selection|]. repeat constructor. }
  case_bool_decide; [done|]. unfold runTimerEffect.
  destruct (mounted _); [|done].
  destruct (timerEffect _).
  - by apply setTimer_selection.
  - by apply invokeSubmit_selection, setTimer_selection.
Qed.

(** The question on the screen is one of the questions, and nothing is
    being loaded any more. *)
Lemma SessionView_question s q :
  SelectionInv s -> render (comp s) = SessionView (Some q) ->
  q ∈ questions (comp s) /\ Forall Calm (pending s).
Proof.
  intros [Hst Hp] Hv. unfold render in Hv.
  destruct (loading _); [done|]. destruct (quiz _); [|done].
  destruct (questions (comp s)) as [|q0 qs] eqn:Hq; [done|].
  split.
  - injection Hv as Hv. case_bool_decide; [|done].
    by eapply list_elem_of_lookup_2.
  - destruct Hp as [H|(Hnil & _)]; done.
Qed.

Lemma select_selection s q o :
  SelectionInv s -> q ∈ questions (comp s) -> Forall Calm (pending s) ->
  SelectionInv (performAll s (handleAnswerSelect (Question.id q) (optionLetter o))).
Proof.
  intros [Hst _] Hq Hp. constructor; [|by left].
  unfold handleAnswerSelect.
  change (validSelection
            (if mounted s
             then commit1 (comp s)
                    (SetSelectedAnswers (Question.id q) (optionLetter o))
             else comp s)).
  destruct (mounted s); [|done].
  intros k v. cbn [commit1 selectedAnswers questions].
  destruct (decide (k = Question.id q)) as [->|Hne].
  - rewrite lookup_insert_eq. intros [= <-]. split; [by exists q|by exists o].
  - rewrite lookup_insert_ne by done. apply Hst.
Qed.

Lemma step_selection b s i : SelectionInv s -> SelectionInv (step b s i).
Proof.
  intros Hinv.
  assert (SelectionInv (perform s (Navigate "/quizzes"))) as Hnav.
  { change (SelectionInv (performAll s [Navigate "/quizzes"])).
    apply performAll_selection; [done|]. repeat constructor. }
  assert (forall acts, Forall (fun a => keepsSelection a = true) acts ->
            SelectionInv (performAll s acts)) as Hkeep.
  { intros acts. by apply performAll_selection. }
  destruct i; cbv beta iota delta [step]; try by apply tick_selection.
  - destruct (pending s !! n) as [a|] eqn:Ha; [|done].
    destruct Hinv as [Hst [Hp|(Hqs & Hsel & Hp)]].
    + apply launch_Calm_selection.
      * constructor; simpl; [done|left]. by apply Forall_delete.
      * by eapply Forall_lookup_1.
    + destruct (OneFetching_delete _ _ _ Hp Ha) as [[Hcalm Hrest]|[Hload Hrest]].
      * apply launch_Calm_selection; [|done]. constructor; simpl; auto.
      * by apply launch_Fetching_selection.
  - destruct (mounted s); [|done].
    destruct (render (comp s)) as [| |[q|]] eqn:Hv; try done.
    destruct (SessionView_question _ _ Hinv Hv) as [Hq Hp].
    by apply select_selection.
  - destruct (mounted s); [|done].
    destruct (render (comp s)) as [| |cq]; try done.
    destruct cq; (case_bool_decide; [done|]); apply Hkeep;
      unfold handleNextQuestion; case_bool_decide; repeat constructor.
  - destruct (mounted s); [|done].
    destruct (render (comp s)) as [| |cq]; try done.
    destruct cq; (case_bool_decide; [done|]); apply Hkeep;
      unfold handlePreviousQuestion; case_bool_decide; repeat constructor.
  - destruct (mounted s); [|done].
    destruct (render (comp s)) as [| |[q|]]; try done.
    all: destruct (_ && _); [|done]; by apply invokeSubmit_selection.
  - destruct (mounted s); [|done].
    destruct (render (comp s)) as [| |[q|]]; done.
  - destruct (mounted s); [|done].
    destruct (render (comp s)) as [| |[q|]]; try done.
    all: by destruct confirmed.
Qed.

Lemma Fetching_fetch_resumed b aid uid :
  Fetching (match select_attempt (db b) aid uid with
            | Err _ => Return fetchFailed
            | Ok attemptData =>
                Await [SetAttempt attemptData]
                  (SelectQuiz (QuizAttempt.quiz_id attemptData)) (fun r' =>
                    match r' with
                    | Err _ => Return fetchFailed
                    | Ok quizData =>
                        Return [SetQuiz quizData;
                                SetQuestions (loadedQuestions quizData);
                                SetLoading false]
                    end)
            end).
Proof.
  destruct (select_attempt _ _ _).
  - constructor; [repeat constructor|]. intros [?|?];
      constructor; repeat constructor.
  - constructor. repeat constructor.
Qed.

Lemma mount_selection b aid uid : SelectionInv (mount b aid uid).
Proof.
  destruct uid as [uid|]; [destruct (truthyString aid) eqn:E|].
  - rewrite mount_loading by done. constructor; simpl.
    + by apply validSelection_empty.
    + right. split; [done|]. split; [done|]. constructor; [|constructor].
      apply Fetching_fetch_resumed.
  - rewrite mount_missing by auto. constructor; simpl;
      [by apply validSelection_empty|by left].
  - rewrite mount_missing by auto. constructor; simpl;
      [by apply validSelection_empty|by left].
Qed.

Lemma steps_selection b ins : forall s, SelectionInv s -> SelectionInv (steps b s ins).
Proof.
  induction ins as [|i ins IH]; intros s Hinv; [done|].
  apply IH. by apply step_selection.
Qed.

(** X23.  In every session reached from a mount, whatever the clicks, the
    ticks and the order of the replies: each key of [selectedAnswers] is
    the id of one of the loaded questions, and each value is one of the
    letters A, B, C, D. *)
Theorem selection_within_quiz (b : Backend) (aid uid : option string)
    (ins : list Input) (k v : string) :
  let s := steps b (mount b aid uid) ins in
  selectedAnswers (comp s) !! k = Some v ->
  (exists q, q ∈ questions (comp s) /\ Question.id q = k)
  /\ v ∈ ["A"; "B"; "C"; "D"].
Proof.
  intros s Hk.
  destruct (steps_selection b ins (mount b aid uid) (mount_selection b aid uid))
    as [Hst _].
  destruct (Hst k v Hk) as [Hq [o ->]]. split; [done|].
  destruct o; simpl;
    repeat first [apply list_elem_of_here|apply list_elem_of_further].
Qed.

Lemma selection_within_quiz_witness :
  let s := steps sampleBackend
             (mount sampleBackend (Some "attempt-1") (Some "student-1"))
             [Reply 0; Reply 0; ClickOption ButtonC; ClickNext;
              ClickOption ButtonB; ClickOption ButtonA] in
  selectedAnswers (comp s) !! "q2" = Some "A"
  /\ (exists q, q ∈ questions (comp s) /\ Question.id q = "q2").
Proof.
  cbv zeta.
  assert (selectedAnswers
            (comp (steps sampleBackend
                     (mount sampleBackend (Some "attempt-1") (Some "student-1"))
                     [Reply 0; Reply 0; ClickOption ButtonC; ClickNext;
                      ClickOption ButtonB; ClickOption ButtonA])) !! "q2"
          = Some "A") as H by (by vm_compute).
  split; [exact H|].
  exact (proj1 (selection_within_quiz sampleBackend (Some "attempt-1")
                  (Some "student-1") _ "q2" "A" H)).
Defined.

(** * Repeated moves *)

Lemma pressNext_cursor st :
  questions (pressNext st) = questions st
  /\ currentQuestionIndex (pressNext st)
     = if bool_decide (currentQuestionIndex st < questionCount st - 1)
       then currentQuestionIndex st + 1 else currentQuestionIndex st.
Proof.
  unfold pressNext, handleNextQuestion. by case_bool_decide.
Qed.

Lemma pressPrevious_cursor st :
  questions (pressPrevious st) = questions st
  /\ currentQuestionIndex (pressPrevious st)
     = if bool_decide (currentQuestionIndex st > 0)
       then currentQuestionIndex st - 1 else currentQuestionIndex st.
Proof.
  unfold pressPrevious, handlePreviousQuestion. by case_bool_decide.
Qed.

Lemma iter_pressNext_questions n st :
  questions (Nat.iter n pressNext st) = questions st.
Proof.
  induction n as [|n IH]; [done|]. rewrite Nat.iter_succ.
  by rewrite (proj1 (pressNext_cursor _)).
Qed.

Lemma iter_pressPrevious_questions n st :
  questions (Nat.iter n pressPrevious st) = questions st.
Proof.
  induction n as [|n IH]; [done|]. rewrite Nat.iter_succ.
  by rewrite (proj1 (pressPrevious_cursor _)).
Qed.

(** X24.  Pressing Next [n] times moves the cursor [n] questions on, but
    not past the last question; pressing Previous [n] times moves it [n]
    questions back, but not below the first; a cursor that is already
    beyond these bounds stays where it is.  Inside the quiz, Previous
    undoes Next and Next undoes Previous: the whole state is as before. *)
Theorem presses_move_and_undo (st : State) (n : nat) :
  let i := currentQuestionIndex st in
  let last := questionCount st - 1 in
  currentQuestionIndex (Nat.iter n pressNext st)
  = Z.max i (Z.min (i + Z.of_nat n) last)
  /\ currentQuestionIndex (Nat.iter n pressPrevious st)
     = Z.min i (Z.max (i - Z.of_nat n) 0)
  /\ (0 <= i < last -> pressPrevious (pressNext st) = st)
  /\ (0 < i <= last -> pressNext (pressPrevious st) = st).
Proof.
  cbv zeta. split; [|split; [|split]].
  - induction n as [|n IH]; [simpl; lia|].
    rewrite Nat.iter_succ. destruct (pressNext_cursor (Nat.iter n pressNext st)) as [_ ->].
    unfold questionCount in *. rewrite iter_pressNext_questions, IH.
    case_bool_decide; lia.
  - induction n as [|n IH]; [simpl; lia|].
    rewrite Nat.iter_succ.
    destruct (pressPrevious_cursor (Nat.iter n pressPrevious st)) as [_ ->].
    rewrite IH. case_bool_decide; lia.
  - intros H. unfold pressNext, pressPrevious, handleNextQuestion.
    rewrite bool_decide_eq_true_2 by lia.
    unfold handlePreviousQuestion. cbn [commit foldl commit1 currentQuestionIndex].
    rewrite bool_decide_eq_true_2 by lia.
    destruct st. cbn. f_equal. lia.
  - intros H. unfold pressNext, pressPrevious, handlePreviousQuestion.
    rewrite bool_decide_eq_true_2 by lia.
    unfold handleNextQuestion, questionCount.
    cbn [commit foldl commit1 currentQuestionIndex questions].
    unfold questionCount in H.
    rewrite bool_decide_eq_true_2 by lia.
    destruct st. cbn. f_equal. lia.
Qed.

Example presses_on_four_questions :
  let st := loadedState dailyQuiz ∅ 1 in
  currentQuestionIndex (Nat.iter 7 pressNext st) = 3
  /\ currentQuestionIndex (Nat.iter 7 pressPrevious st) = 0
  /\ pressPrevious (pressNext st) = st.
Proof. by vm_compute. Qed.

(** * Writes and invocations *)

Lemma performAll_counts p s acts :
  (forall a, p (Did a) = false) ->
  countEvents p (log (performAll s acts)) = countEvents p (log s).
Proof.
  intros H. rewrite performAll_log, countEvents_app, countEvents_Did by done. lia.
Qed.

Lemma launch_invoked b s a :
  countEvents isInvoked (log (launch b s a)) = countEvents isInvoked (log s).
Proof.
  destruct a as [acts|acts A req k]; simpl.
  - by apply performAll_counts.
  - rewrite countEvents_snoc, performAll_counts by done. simpl. lia.
Qed.

Lemma invokeSubmit_counts b who s :
  countEvents isInvoked (log (invokeSubmit b who s))
  = S (countEvents isInvoked (log s))
  /\ (countEvents isUpdate (log (invokeSubmit b who s))
      <= S (countEvents isUpdate (log s)))%nat.
Proof.
  destruct (isSubmitting (comp s)) eqn:E.
  - rewrite invokeSubmit_busy by done. simpl.
    rewrite !countEvents_snoc. simpl. lia.
  - unfold invokeSubmit. rewrite handleSubmitQuiz_idle by done.
    unfold launch, suspend. cbn [log record].
    rewrite !countEvents_snoc, !performAll_counts by done.
    cbn [log record]. rewrite !countEvents_snoc. simpl. lia.
Qed.

Lemma step_writes b s i :
  Forall NoUpdate (pending s) ->
  (countEvents isUpdate (log s) <= countEvents isInvoked (log s))%nat ->
  (countEvents isUpdate (log (step b s i))
   <= countEvents isInvoked (log (step b s i)))%nat.
Proof.
  intros Hp Hle.
  assert (forall s0 who,
            (countEvents isUpdate (log s0) <= countEvents isInvoked (log s0))%nat ->
            (countEvents isUpdate (log (invokeSubmit b who s0))
             <= countEvents isInvoked (log (invokeSubmit b who s0)))%nat) as Hsub.
  { intros s0 who H0. destruct (invokeSubmit_counts b who s0) as [-> H1]. lia. }
  assert (forall acts,
            (countEvents isUpdate (log (performAll s acts))
             <= countEvents isInvoked (log (performAll s acts)))%nat) as Hall.
  { intros acts. by rewrite !performAll_counts. }
  assert (forall a,
            (countEvents isUpdate (log (perform s a))
             <= countEvents isInvoked (log (perform s a)))%nat) as Hperf.
  { intros a. apply (Hall [a]). }
  destruct i; cbv beta iota delta [step].
  - unfold tick. destruct (timer s) as [c|]; [|done].
    assert (countEvents isUpdate
              (log (perform (setTimer s None) (SetTimeLeft (c - 1))))
            <= countEvents isInvoked
                 (log (perform (setTimer s None) (SetTimeLeft (c - 1)))))%nat as H.
    { rewrite perform_log, !countEvents_snoc. simpl. lia. }
    case_bool_decide; [done|].
    unfold runTimerEffect. destruct (mounted _); [|done].
    destruct (timerEffect _); [done|]. by apply Hsub.
  - destruct (pending s !! n) as [a|] eqn:Ha; [|done].
    destruct (launch_NoUpdate b (setPending s (delete n (pending s))) a)
      as [-> _]; [by eapply Forall_lookup_1|by apply Forall_delete|].
    by rewrite launch_invoked.
  - destruct (mounted s); [|done].
    destruct (render (comp s)) as [| |[q|]]; done.
  - destruct (mounted s); [|done].
    destruct (render (comp s)) as [| |[q|]]; try done.
    all: by case_bool_decide.
  - destruct (mounted s); [|done].
    destruct (render (comp s)) as [| |[q|]]; try done.
    all: by case_bool_decide.
  - destruct (mounted s); [|done].
    destruct (render (comp s)) as [| |[q|]]; try done.
    all: destruct (_ && _); [|done]; by apply Hsub.
  - destruct (mounted s); [|done].
    destruct (render (comp s)) as [| |[q|]]; done.
  - destruct (mounted s); [|done].
    destruct (render (comp s)) as [| |[q|]]; try done.
    all: by destruct confirmed.
Qed.

(** X25.  In every session reached from a mount, the attempt has been
    written at most as often as [handleSubmitQuiz] has been invoked, by
    the countdown or by the Submit button: loading, selecting, moving
    between questions and leaving never write it, and a session without
    invocation has written nothing. *)
Theorem no_write_without_submission (b : Backend) (aid uid : option string)
    (ins : list Input) :
  let s := steps b (mount b aid uid) ins in
  (countEvents isUpdate (log s) <= countEvents isInvoked (log s))%nat
  /\ (countEvents isInvoked (log s) = 0%nat -> countEvents isUpdate (log s) = 0%nat).
Proof.
  cbv zeta.
  assert (countEvents isUpdate (log (steps b (mount b aid uid) ins))
          <= countEvents isInvoked (log (steps b (mount b aid uid) ins)))%nat as H;
    [|split; [exact H|lia]].
  induction ins as [|i ins IH] using rev_ind.
  - destruct uid as [uid|]; [destruct (truthyString aid) eqn:E|].
    + by rewrite mount_loading.
    + rewrite mount_missing by auto. by vm_compute.
    + rewrite mount_missing by auto. by vm_compute.
  - rewrite steps_app. apply step_writes; [|exact IH].
    apply reachable_pending_NoUpdate.
Qed.
